(** * Spark signing operator and wallet: transaction builders, leaf locking,
      signing nonce lookup and the transfer state machine.

    The development follows the Go sources:
    - [wallet/transaction.go]            (module [wallet]),
    - [so/ent/treenode_extension.go]     (module [ent], tree nodes),
    - [so/ent/signingnonce_extension.go] (module [ent], signing nonces),
    - [so/handler/coop_exit_handler.go]  (module [handler]),
  and, of the SDK, [services/coop-exit.ts] (module [CoopExitService]).
    The transfer handler itself is not part of the sources at hand; its
    operations are modelled from the specification in module [transfer]. *)

From Stdlib Require Import ZArith List Bool Lia String Strings.Byte Floats.
From stdpp Require Import gmap list.
Import ListNotations.

Local Open Scope Z_scope.

(** ** Go errors *)

(** gRPC status codes that the handlers surface. *)
Inductive Code : Type :=
| InvalidArgument
| PermissionDenied
| NotFound
| FailedPrecondition
| Conflict
| Aborted
| Internal
| Unknown.

(** A Go [error] value, as far as the modelled code builds one, and the two
    error classes the SDK throws. *)
Inductive error : Type :=
| ErrNoDb                                   (* GetDbFromContext failed *)
| ErrEntNotFound (label : string)           (* *ent.NotFoundError *)
| ErrEntNotSingular (label : string)        (* *ent.NotSingularError *)
| ErrExternal (msg : string)                (* error of a library call *)
| ErrMsg (msg : string)                     (* fmt.Errorf without %w *)
| ErrWrap (msg : string) (inner : error)    (* fmt.Errorf("...: %w", err) *)
| ErrStatus (c : Code) (msg : string)       (* status.Error(code, msg) *)
| ErrPanic (msg : string)                   (* run-time panic *)
| ErrValidation (msg : string)              (* SDK: ValidationError *)
| ErrNetwork (msg : string)                 (* SDK: NetworkError *)
| ErrNetworkFrom (msg : string) (cause : error). (* ... with its cause *)

Inductive result (A : Type) : Type :=
| Ok (a : A)
| Err (e : error).
Arguments Ok {A} a.
Arguments Err {A} e.

Definition is_ok {A} (r : result A) : bool :=
  match r with Ok _ => true | Err _ => false end.

(** The gRPC code a client observes for an error: a status error carries its
    code, every other Go error is reported as [Unknown]. *)
Fixpoint status_code (e : error) : Code :=
  match e with
  | ErrStatus c _ => c
  | ErrWrap _ inner => status_code inner
  | _ => Unknown
  end.

(** ** Machine integers *)

Module Int64.
Definition min_signed : Z := - 2 ^ 63.
Definition max_signed : Z := 2 ^ 63 - 1.
Definition in_range (z : Z) : Prop := min_signed <= z <= max_signed.

(** Two's complement wrap-around of Go's [int64] arithmetic. *)
Definition wrap (z : Z) : Z := (z + 2 ^ 63) mod 2 ^ 64 - 2 ^ 63.

Definition add (a b : Z) : Z := wrap (a + b).
Definition sub (a b : Z) : Z := wrap (a - b).
End Int64.

(** ** IEEE 754 binary64, as Go's [float64] *)

Module Float64.
(** [float64(x)] for an integer [x]: round to nearest, ties to even. *)
Definition of_int (z : Z) : float :=
  SF2Prim (binary_normalize 53 1024 z 0 false).

(** [int64(f)]: truncation towards zero.  Where the value does not fit
    (or is not a number) Go leaves the result to the implementation; the
    amd64 instruction yields the smallest [int64], which is what is
    written here. *)
Definition to_int64 (f : float) : Z :=
  match Prim2SF f with
  | S754_zero _ => 0
  | S754_finite s m e =>
      let mag := if 0 <=? e then Z.shiftl (Z.pos m) e
                 else Z.shiftr (Z.pos m) (- e) in
      let v := if s then - mag else mag in
      if (Int64.min_signed <=? v) && (v <=? Int64.max_signed)
      then v else Int64.min_signed
  | _ => Int64.min_signed
  end.
End Float64.

(** ** btcd's [wire] package: the part of a transaction the builders fill in *)

Module wire.
Record OutPoint : Type := mkOutPoint {
  Hash : list byte;
  Index : Z
}.

Record TxIn : Type := mkTxIn {
  PreviousOutPoint : OutPoint;
  SignatureScript : list byte;
  Witness : list (list byte);
  Sequence : Z
}.

Record TxOut : Type := mkTxOut {
  Value : Z;
  PkScript : list byte
}.

Record MsgTx : Type := mkMsgTx {
  Version : Z;
  TxIns : list TxIn;
  TxOuts : list TxOut;
  LockTime : Z
}.

Definition MaxTxInSequenceNum : Z := 0xffffffff.

Definition NewMsgTx (version : Z) : MsgTx :=
  {| Version := version; TxIns := []; TxOuts := []; LockTime := 0 |}.

Definition NewTxIn (prevOut : OutPoint) (signatureScript : list byte)
    (witness : list (list byte)) : TxIn :=
  {| PreviousOutPoint := prevOut; SignatureScript := signatureScript;
     Witness := witness; Sequence := MaxTxInSequenceNum |}.

Definition NewTxOut (value : Z) (pkScript : list byte) : TxOut :=
  {| Value := value; PkScript := pkScript |}.

Definition AddTxIn (tx : MsgTx) (ti : TxIn) : MsgTx :=
  {| Version := Version tx; TxIns := TxIns tx ++ [ti];
     TxOuts := TxOuts tx; LockTime := LockTime tx |}.

Definition AddTxOut (tx : MsgTx) (to : TxOut) : MsgTx :=
  {| Version := Version tx; TxIns := TxIns tx;
     TxOuts := TxOuts tx ++ [to]; LockTime := LockTime tx |}.
End wire.

(** ** wallet/transaction.go *)

Module wallet.
Import wire.

(** [txscript.OP_TRUE] *)
Definition OP_TRUE : byte := x51.

Definition EphemeralAnchorOutput : TxOut :=
  NewTxOut 0 [OP_TRUE; x02; x4e; x73].

Section Builders.
(** [common.DefaultFeeSats]: the constant is declared in package
    [common]; the builders only convert it to [int64] and [float64]. *)
Variable DefaultFeeSats : Z.

(** A secp256k1 public key, and [common.P2TRScriptFromPubKey] applied
    to [keys.PublicKeyFromKey]. *)
Variable PublicKey : Type.
Variable P2TRScriptFromPubKey : PublicKey -> result (list byte).

Definition maybeApplyFee (amount : Z) : Z :=
  if amount >? DefaultFeeSats
  then Int64.sub amount DefaultFeeSats
  else amount.

Definition createRootTx (depositOutPoint : OutPoint)
    (depositTxOut : TxOut) : MsgTx :=
  let rootTx := NewMsgTx 3 in
  let rootTx := AddTxIn rootTx (NewTxIn depositOutPoint [] []) in
  AddTxOut rootTx
    (NewTxOut (maybeApplyFee (Value depositTxOut)) (PkScript depositTxOut)).

(** The running sum of the first loop of [createSplitTx]. *)
Definition totalOutputAmount (childTxOuts : list TxOut) : Z :=
  fold_left (fun total txOut => Int64.add total (Value txOut))
            childTxOuts 0.

Definition feeRatio (total : Z) : float :=
  PrimFloat.div (Float64.of_int DefaultFeeSats) (Float64.of_int total).

Definition adjustedAmount (ratio : float) (value : Z) : Z :=
  Float64.to_int64
    (PrimFloat.mul (Float64.of_int value)
                   (PrimFloat.sub (Float64.of_int 1) ratio)).

Definition createSplitTx (parentOutPoint : OutPoint)
    (childTxOuts : list TxOut) : MsgTx :=
  let splitTx := NewMsgTx 3 in
  let splitTx := AddTxIn splitTx (NewTxIn parentOutPoint [] []) in
  let total := totalOutputAmount childTxOuts in
  if total >? DefaultFeeSats then
    let ratio := feeRatio total in
    fold_left
      (fun tx txOut =>
         AddTxOut tx (NewTxOut (adjustedAmount ratio (Value txOut))
                               (PkScript txOut)))
      childTxOuts splitTx
  else
    fold_left (fun tx txOut => AddTxOut tx txOut) childTxOuts splitTx.

Definition createNodeTx (parentOutPoint : OutPoint) (txOut : TxOut)
    : MsgTx :=
  let newNodeTx := NewMsgTx 3 in
  let newNodeTx := AddTxIn newNodeTx (NewTxIn parentOutPoint [] []) in
  AddTxOut newNodeTx
    (NewTxOut (maybeApplyFee (Value txOut)) (PkScript txOut)).

Definition createLeafNodeTx (sequence : Z) (parentOutPoint : OutPoint)
    (txOut : TxOut) (shouldCalculateFee : bool) : MsgTx :=
  let newLeafTx := NewMsgTx 3 in
  let newLeafTx :=
    AddTxIn newLeafTx
      {| PreviousOutPoint := parentOutPoint; SignatureScript := [];
         Witness := []; Sequence := sequence |} in
  let amountSats := Value txOut in
  let outputAmount :=
    if shouldCalculateFee then maybeApplyFee amountSats else amountSats in
  AddTxOut newLeafTx (NewTxOut outputAmount (PkScript txOut)).

Definition createRefundTxs (sequence : Z) (nodeOutPoint : OutPoint)
    (amountSats : Z) (receivingPubkey : PublicKey)
    (shouldCalculateFee : bool) : result (MsgTx * MsgTx) :=
  let cpfpRefundTx := NewMsgTx 3 in
  let cpfpRefundTx :=
    AddTxIn cpfpRefundTx
      {| PreviousOutPoint := nodeOutPoint; SignatureScript := [];
         Witness := []; Sequence := sequence |} in
  match P2TRScriptFromPubKey receivingPubkey with
  | Err err => Err (ErrWrap "failed to create refund pkscript" err)
  | Ok refundPkScript =>
      let cpfpRefundTx :=
        AddTxOut cpfpRefundTx (NewTxOut amountSats refundPkScript) in
      let cpfpRefundTx := AddTxOut cpfpRefundTx EphemeralAnchorOutput in
      let directRefundTx := NewMsgTx 3 in
      let directRefundTx :=
        AddTxIn directRefundTx
          {| PreviousOutPoint := nodeOutPoint; SignatureScript := [];
             Witness := []; Sequence := sequence |} in
      let outputAmount :=
        if shouldCalculateFee then maybeApplyFee amountSats
        else amountSats in
      let directRefundTx :=
        AddTxOut directRefundTx (NewTxOut outputAmount refundPkScript) in
      Ok (cpfpRefundTx, directRefundTx)
  end.

Definition createConnectorRefundTransaction (sequence : Z)
    (nodeOutPoint connectorOutput : OutPoint) (amountSats : Z)
    (receiverPubKey : PublicKey) : result MsgTx :=
  let refundTx := NewMsgTx 3 in
  let refundTx :=
    AddTxIn refundTx
      {| PreviousOutPoint := nodeOutPoint; SignatureScript := [];
         Witness := []; Sequence := sequence |} in
  let refundTx := AddTxIn refundTx (NewTxIn connectorOutput [] []) in
  match P2TRScriptFromPubKey receiverPubKey with
  | Err err => Err (ErrWrap "failed to create receiver script" err)
  | Ok receiverScript =>
      Ok (AddTxOut refundTx (NewTxOut amountSats receiverScript))
  end.
End Builders.
End wallet.

(** ** Bytes as map keys *)

#[global] Instance byte_eq_decision : EqDecision byte := Byte.byte_eq_dec.
#[global] Instance byte_countable : Countable byte :=
  inj_countable Byte.to_N Byte.of_N Byte.of_to_N.

(** ** The operator database, as the ent client sees it *)

Module ent.
(** [uuid.UUID] *)
Definition UUID : Type := N.

(** Modelled from the spec: [schematype.TreeNodeStatus] is declared
    outside the sources at hand; its values are those of section 3. *)
Inductive TreeNodeStatus : Type :=
| TreeNodeStatusCreating
| TreeNodeStatusAvailable
| TreeNodeStatusSplitLocked
| TreeNodeStatusTransferLocked
| TreeNodeStatusSplitted
| TreeNodeStatusExited.

#[global] Instance TreeNodeStatus_eq_decision : EqDecision TreeNodeStatus.
Proof. solve_decision. Defined.

Definition TreeNodeStatus_string (s : TreeNodeStatus) : string :=
  match s with
  | TreeNodeStatusCreating => "creating"
  | TreeNodeStatusAvailable => "available"
  | TreeNodeStatusSplitLocked => "split_locked"
  | TreeNodeStatusTransferLocked => "transfer_locked"
  | TreeNodeStatusSplitted => "splitted"
  | TreeNodeStatusExited => "exited"
  end.

(** Modelled from the spec: [schematype.Network] is declared outside the
    sources at hand. *)
Inductive Network : Type := Mainnet | Regtest | Testnet | Signet.

#[global] Instance Network_eq_decision : EqDecision Network.
Proof. solve_decision. Defined.

Record Tree : Type := mkTree {
  TreeID : UUID;
  TreeNetwork : Network
}.

(** The columns of a tree node row that the extension reads or writes. *)
Record TreeNode : Type := mkTreeNode {
  ID : UUID;
  NodeTreeID : UUID;
  Value : Z;
  Status : TreeNodeStatus;
  VerifyingPubkey : list byte;
  OwnerIdentityPubkey : list byte;
  OwnerSigningPubkey : list byte;
  RawTx : list byte;
  RawRefundTx : option (list byte);      (* nil when absent *)
  Vout : Z
}.

Definition SetStatus (status : TreeNodeStatus) (tn : TreeNode) : TreeNode :=
  {| ID := ID tn; NodeTreeID := NodeTreeID tn; Value := Value tn;
     Status := status; VerifyingPubkey := VerifyingPubkey tn;
     OwnerIdentityPubkey := OwnerIdentityPubkey tn;
     OwnerSigningPubkey := OwnerSigningPubkey tn; RawTx := RawTx tn;
     RawRefundTx := RawRefundTx tn; Vout := Vout tn |}.

Definition SetOwnerIdentityPubkey (owner : list byte) (tn : TreeNode)
    : TreeNode :=
  {| ID := ID tn; NodeTreeID := NodeTreeID tn; Value := Value tn;
     Status := Status tn; VerifyingPubkey := VerifyingPubkey tn;
     OwnerIdentityPubkey := owner;
     OwnerSigningPubkey := OwnerSigningPubkey tn; RawTx := RawTx tn;
     RawRefundTx := RawRefundTx tn; Vout := Vout tn |}.

Record SigningNonce : Type := mkSigningNonce {
  Nonce : list byte;
  NonceCommitment : list byte
}.

(** Modelled from the spec: the transfer status column; the type is
    declared in [schematype], outside the sources at hand, and its values are
    the states of section 4.4. *)
Inductive TransferStatus : Type :=
| TransferStatusSenderInitiated
| TransferStatusSenderKeyTweakPending
| TransferStatusSenderKeyTweaked
| TransferStatusReceiverKeyTweaked
| TransferStatusCompleted
| TransferStatusCancelled
| TransferStatusExpired.

#[global] Instance TransferStatus_eq_decision : EqDecision TransferStatus.
Proof. solve_decision. Defined.

(** Modelled from the spec: [schematype.TransferType], declared outside the
    sources at hand; the values are those of section 3. *)
Inductive TransferType : Type :=
| TransferTypeTransfer
| TransferTypeCounterSwap
| TransferTypeCooperativeExit
| TransferTypePreimageSwap.

#[global] Instance TransferType_eq_decision : EqDecision TransferType.
Proof. solve_decision. Defined.

(** Modelled from the spec: the transfer row of section 3.  [SenderTweaked]
    records whether the sender has supplied the key tweak, which the
    status alone does not tell while it is [SENDER_KEY_TWEAK_PENDING]. *)
Record Transfer : Type := mkTransfer {
  TransferID : UUID;
  Type_ : TransferType;
  SenderIdentityPubkey : list byte;
  ReceiverIdentityPubkey : list byte;
  ExpiryTime : Z;
  TransferStatus_ : TransferStatus;
  LeavesToSend : list UUID;
  SenderTweaked : bool
}.

Definition SetTransferStatus (status : TransferStatus) (t : Transfer)
    : Transfer :=
  {| TransferID := TransferID t; Type_ := Type_ t;
     SenderIdentityPubkey := SenderIdentityPubkey t;
     ReceiverIdentityPubkey := ReceiverIdentityPubkey t;
     ExpiryTime := ExpiryTime t; TransferStatus_ := status;
     LeavesToSend := LeavesToSend t; SenderTweaked := SenderTweaked t |}.

(** The cooperative exit row written by [cooperativeExit]. *)
Record CooperativeExit : Type := mkCooperativeExit {
  ExitID : UUID;
  ExitTransfer : UUID;
  ExitTxid : list byte;
  ConfirmationHeight : option Z
}.

(** The tables, and the rows this transaction holds [FOR UPDATE]. *)
Record Db : Type := mkDb {
  Trees : gmap UUID Tree;
  TreeNodes : gmap UUID TreeNode;
  SigningNonces : list SigningNonce;     (* in the order the store returns *)
  Transfers : gmap UUID Transfer;
  CooperativeExits : gmap UUID CooperativeExit;
  RowLocks : gset UUID
}.

Definition with_TreeNodes (f : gmap UUID TreeNode -> gmap UUID TreeNode)
    (db : Db) : Db :=
  {| Trees := Trees db; TreeNodes := f (TreeNodes db);
     SigningNonces := SigningNonces db; Transfers := Transfers db;
     CooperativeExits := CooperativeExits db; RowLocks := RowLocks db |}.

Definition with_Transfers (f : gmap UUID Transfer -> gmap UUID Transfer)
    (db : Db) : Db :=
  {| Trees := Trees db; TreeNodes := TreeNodes db;
     SigningNonces := SigningNonces db; Transfers := f (Transfers db);
     CooperativeExits := CooperativeExits db; RowLocks := RowLocks db |}.

Definition with_CooperativeExits
    (f : gmap UUID CooperativeExit -> gmap UUID CooperativeExit)
    (db : Db) : Db :=
  {| Trees := Trees db; TreeNodes := TreeNodes db;
     SigningNonces := SigningNonces db; Transfers := Transfers db;
     CooperativeExits := f (CooperativeExits db); RowLocks := RowLocks db |}.

Definition with_RowLocks (f : gset UUID -> gset UUID) (db : Db) : Db :=
  {| Trees := Trees db; TreeNodes := TreeNodes db;
     SigningNonces := SigningNonces db; Transfers := Transfers db;
     CooperativeExits := CooperativeExits db; RowLocks := f (RowLocks db) |}.

(** A [context.Context]: it carries the current database transaction, or
    none. *)
Definition Context : Type := option Db.

(** Code that runs against a context: it returns a value or an error and
    leaves the (possibly changed) database behind. *)
Definition M (A : Type) : Type := Context -> result A * Context.

Definition ret {A} (a : A) : M A := fun ctx => (Ok a, ctx).
Definition fail {A} (e : error) : M A := fun ctx => (Err e, ctx).
Definition bind {A B} (m : M A) (k : A -> M B) : M B :=
  fun ctx =>
    match m ctx with
    | (Ok a, ctx') => k a ctx'
    | (Err e, ctx') => (Err e, ctx')
    end.
Definition lift {A} (r : result A) : M A := fun ctx => (r, ctx).

#[global] Instance M_ret : MRet M := @ret.
#[global] Instance M_bind : MBind M := fun A B k m => bind m k.

(** A read or write through the client: it needs the transaction. *)
Definition with_db {A} (f : Db -> result A * Db) : M A :=
  fun ctx =>
    match ctx with
    | None => (Err ErrNoDb, ctx)
    | Some db => let '(r, db') := f db in (r, Some db')
    end.

Definition GetDbFromContext : M unit :=
  with_db (fun db => (Ok tt, db)).

(** [db.TreeNode.Query().Where(enttreenode.ID(id)).ForUpdate().Only(ctx)]:
    the row with that primary key, locked for this transaction. *)
Definition TreeNode_ForUpdate_Only (id : UUID) : M TreeNode :=
  with_db (fun db =>
    match TreeNodes db !! id with
    | Some node => (Ok node, with_RowLocks (fun l => {[ id ]} ∪ l) db)
    | None => (Err (ErrEntNotFound "tree_node"), db)
    end).

(** [db.TreeNode.UpdateOne(node).SetStatus(status).Exec(ctx)]: the update
    touches the status column of the row with the node's key. *)
Definition TreeNode_UpdateOne_SetStatus (node : TreeNode)
    (status : TreeNodeStatus) : M unit :=
  with_db (fun db =>
    match TreeNodes db !! ID node with
    | Some row =>
        (Ok tt, with_TreeNodes (insert (ID node) (SetStatus status row)) db)
    | None => (Err (ErrEntNotFound "tree_node"), db)
    end).

(** [MarkNodeAsLocked] marks the node as locked.  It will only update the
    node status if it is in a state to be locked. *)
Definition MarkNodeAsLocked (nodeID : UUID) (nodeStatus : TreeNodeStatus)
    : M unit :=
  GetDbFromContext ;;
  if bool_decide (nodeStatus ≠ TreeNodeStatusSplitLocked) &&
     bool_decide (nodeStatus ≠ TreeNodeStatusTransferLocked)
  then fail (ErrMsg ("not updating node status to a locked state: " ++
                     TreeNodeStatus_string nodeStatus))
  else
    node ← TreeNode_ForUpdate_Only nodeID;
    if bool_decide (Status node ≠ TreeNodeStatusAvailable)
    then fail (ErrMsg ("node not in a state to be locked: " ++
                       TreeNodeStatus_string (Status node)))
    else TreeNode_UpdateOne_SetStatus node nodeStatus.

Section RefundTimeLock.
(** [common.TxFromRawTxBytes] *)
Variable TxFromRawTxBytes : list byte -> result wire.MsgTx.

(** [GetRefundTxTimeLock]: the time lock of the refund tx. *)
Definition GetRefundTxTimeLock (tn : TreeNode) : result (option Z) :=
  match RawRefundTx tn with
  | None => Ok None
  | Some raw =>
      match TxFromRawTxBytes raw with
      | Err err => Err err
      | Ok refundTx =>
          match wire.TxIns refundTx with
          | [] => Err (ErrPanic "index out of range [0] with length 0")
          | txIn :: _ => Ok (Some (Z.land (wire.Sequence txIn) 0xFFFF))
          end
      end
  end.
End RefundTimeLock.

Section SigningNonces.
(** [objects.SigningCommitment] with its [MarshalBinary], and
    [objects.SigningNonce] with its [UnmarshalBinary]. *)
Variable SigningCommitment : Type.
Variable MarshalBinary : SigningCommitment -> list byte.
Variable ObjectsSigningNonce : Type.
Variable UnmarshalBinary : list byte -> result ObjectsSigningNonce.

(** [db.SigningNonce.Query().Where(signingnonce.NonceCommitment(b)).First(ctx)] *)
Definition SigningNonce_Where_First (commitmentBytes : list byte)
    : M SigningNonce :=
  with_db (fun db =>
    match List.find
            (fun row => bool_decide (NonceCommitment row = commitmentBytes))
            (SigningNonces db) with
    | Some row => (Ok row, db)
    | None => (Err (ErrEntNotFound "signing_nonce"), db)
    end).

(** [db.SigningNonce.Query().Where(signingnonce.NonceCommitmentIn(bs...)).All(ctx)] *)
Definition SigningNonce_WhereIn_All (commitmentBytes : list (list byte))
    : M (list SigningNonce) :=
  with_db (fun db =>
    (Ok (List.filter
           (fun row => bool_decide (NonceCommitment row ∈ commitmentBytes))
           (SigningNonces db)),
     db)).

(** [GetSigningNonceFromCommitment] returns the signing nonce associated
    with the given commitment. *)
Definition GetSigningNonceFromCommitment (commitment : SigningCommitment)
    : M ObjectsSigningNonce :=
  let commitmentBytes := MarshalBinary commitment in
  GetDbFromContext ;;
  nonce ← SigningNonce_Where_First commitmentBytes;
  lift (UnmarshalBinary (Nonce nonce)).

(** The conversion [[66]byte(slice)]: it panics on a shorter slice and
    keeps the first 66 bytes of a longer one. *)
Definition array66 (b : list byte) : result (list byte) :=
  if (List.length b <? 66)%nat
  then Err (ErrPanic "cannot convert slice to array of length 66")
  else Ok (take 66 b).

(** The loop of [GetSigningNonces] that fills the result map. *)
Fixpoint collectNonces (noncesResult : list SigningNonce)
    (res : gmap (list byte) SigningNonce)
    : result (gmap (list byte) SigningNonce) :=
  match noncesResult with
  | [] => Ok res
  | nonce :: rest =>
      match array66 (NonceCommitment nonce) with
      | Err e => Err e
      | Ok key => collectNonces rest (<[key := nonce]> res)
      end
  end.

(** [GetSigningNonces] returns the signing nonces associated with the
    given commitments. *)
Definition GetSigningNonces (commitments : list SigningCommitment)
    : M (gmap (list byte) SigningNonce) :=
  let commitmentBytes := List.map MarshalBinary commitments in
  GetDbFromContext ;;
  noncesResult ← SigningNonce_WhereIn_All commitmentBytes;
  lift (collectNonces noncesResult ∅).
End SigningNonces.
End ent.

(** ** so/handler/coop_exit_handler.go *)

Module handler.
Import ent.

(** The request messages of [proto/spark] and [proto/common].  A field of
    message type is a pointer in the generated Go code, nil when the client
    left it out. *)
Record SigningCommitment : Type := mkSigningCommitment {
  Hiding : list byte;
  Binding : list byte
}.

Record SigningJob : Type := mkSigningJob {
  SigningPublicKey : list byte;
  JobRawTx : list byte;
  SigningNonceCommitment : option SigningCommitment
}.

Record LeafRefundTxSigningJob : Type := mkLeafRefundTxSigningJob {
  LeafId : string;
  RefundTxSigningJob : option SigningJob;
  DirectRefundTxSigningJob : option SigningJob;
  DirectFromCpfpRefundTxSigningJob : option SigningJob
}.

(** What the Go run time reports when a field is read through a nil
    pointer. *)
Definition nilDereference : error :=
  ErrPanic "invalid memory address or nil pointer dereference".

Record StartTransferRequest : Type := mkStartTransferRequest {
  TransferId : string;
  OwnerIdentityPublicKey : list byte;
  ReceiverIdentityPublicKey : list byte;
  RequestExpiryTime : Z;
  LeavesToSend : list LeafRefundTxSigningJob
}.

Record CooperativeExitRequest : Type := mkCooperativeExitRequest {
  RequestTransfer : StartTransferRequest;
  RequestExitId : string;
  RequestExitTxid : list byte
}.

(** The three refund maps filled by the first loop of [cooperativeExit]. *)
Record RefundMaps : Type := mkRefundMaps {
  cpfpLeafRefundMap : gmap string (list byte);
  directLeafRefundMap : gmap string (list byte);
  directFromCpfpLeafRefundMap : gmap string (list byte)
}.

Definition emptyRefundMaps : RefundMaps :=
  {| cpfpLeafRefundMap := ∅; directLeafRefundMap := ∅;
     directFromCpfpLeafRefundMap := ∅ |}.

(** The first loop of [cooperativeExit].  [job.RefundTxSigningJob.RawTx] is
    read before anything is checked: a leaf without that job stops the
    handler with a nil-pointer panic. *)
Fixpoint collectRefundMaps (requireDirectTx : bool)
    (jobs : list LeafRefundTxSigningJob) (maps : RefundMaps)
    : result RefundMaps :=
  match jobs with
  | [] => Ok maps
  | job :: rest =>
      match RefundTxSigningJob job with
      | None => Err nilDereference
      | Some refund =>
          let cpfp :=
            <[LeafId job := JobRawTx refund]> (cpfpLeafRefundMap maps) in
          match DirectRefundTxSigningJob job,
                DirectFromCpfpRefundTxSigningJob job with
          | Some direct, Some directFromCpfp =>
              collectRefundMaps requireDirectTx rest
                {| cpfpLeafRefundMap := cpfp;
                   directLeafRefundMap :=
                     <[LeafId job := JobRawTx direct]>
                       (directLeafRefundMap maps);
                   directFromCpfpLeafRefundMap :=
                     <[LeafId job := JobRawTx directFromCpfp]>
                       (directFromCpfpLeafRefundMap maps) |}
          | _, _ =>
              if requireDirectTx
              then Err (ErrMsg "DirectRefundTxSigningJob and DirectFromCpfpRefundTxSigningJob are required. Please upgrade to the latest SDK version")
              else collectRefundMaps requireDirectTx rest
                     {| cpfpLeafRefundMap := cpfp;
                        directLeafRefundMap := directLeafRefundMap maps;
                        directFromCpfpLeafRefundMap :=
                          directFromCpfpLeafRefundMap maps |}
          end
      end
  end.

(** [db.CooperativeExit.Create().SetID(id).SetTransfer(transfer).
    SetExitTxid(txid).Save(ctx)]: ConfirmationHeight is nil since the
    transaction is not confirmed yet. *)
Definition CooperativeExit_Create (exitUUID : UUID) (transfer : Transfer)
    (exitTxid : list byte) : M CooperativeExit :=
  with_db (fun db =>
    match CooperativeExits db !! exitUUID with
    | Some _ => (Err (ErrExternal "constraint failed: duplicate key"), db)
    | None =>
        let row := {| ExitID := exitUUID;
                      ExitTransfer := TransferID transfer;
                      ExitTxid := exitTxid;
                      ConfirmationHeight := None |} in
        (Ok row, with_CooperativeExits (insert exitUUID row) db)
    end).

Section CooperativeExit.
(** What [cooperativeExit] calls in packages outside the sources at
    hand. *)
Variable EnforceSessionIdentityPublicKeyMatches : list byte -> M unit.
Variable LeafMap TransferProto SigningResults : Type.
Variable createTransfer :
  string -> TransferType -> Z -> list byte -> list byte -> RefundMaps ->
  bool -> M (Transfer * LeafMap).
Variable uuid_Parse : string -> result UUID.
Variable MarshalProto : Transfer -> M TransferProto.
Variable signRefunds : StartTransferRequest -> LeafMap -> M SigningResults.
Variable syncCoopExitInit : CooperativeExitRequest -> M unit.

Definition wrap_err {A} (msg : string) (m : M A) : M A :=
  fun ctx =>
    match m ctx with
    | (Err e, ctx') => (Err (ErrWrap msg e), ctx')
    | ok => ok
    end.

Definition cooperativeExit (req : CooperativeExitRequest)
    (requireDirectTx : bool) : M (TransferProto * SigningResults) :=
  let transfer_req := RequestTransfer req in
  EnforceSessionIdentityPublicKeyMatches
    (OwnerIdentityPublicKey transfer_req) ;;
  maps ← lift (collectRefundMaps requireDirectTx
                 (LeavesToSend transfer_req) emptyRefundMaps);
  created ← wrap_err "failed to create transfer for request"
    (createTransfer (TransferId transfer_req) TransferTypeCooperativeExit
       (RequestExpiryTime transfer_req)
       (OwnerIdentityPublicKey transfer_req)
       (ReceiverIdentityPublicKey transfer_req) maps requireDirectTx);
  let '(transfer, leafMap) := created in
  exitUUID ← wrap_err "unable to parse exit_id"
    (lift (uuid_Parse (RequestExitId req)));
  if negb (List.length (RequestExitTxid req) =? 32)%nat
  then fail (ErrMsg "exit_txid is not 32 bytes in request")
  else
    wrap_err "failed to get or create current tx for request"
      GetDbFromContext ;;
    wrap_err "failed to create cooperative exit for request"
      (CooperativeExit_Create exitUUID transfer (RequestExitTxid req)) ;;
    transferProto ← wrap_err "failed to marshal transfer for request"
      (MarshalProto transfer);
    signingResults ←
      wrap_err "failed to sign refund transactions for request"
        (signRefunds transfer_req leafMap);
    wrap_err "failed to sync transfer init for request"
      (syncCoopExitInit req) ;;
    mret (transferProto, signingResults).

(** [CooperativeExit] signs refund transactions for leaves, spending
    connector outputs. *)
Definition CooperativeExit (req : CooperativeExitRequest)
    : M (TransferProto * SigningResults) :=
  cooperativeExit req false.

(** [CooperativeExitV2] is the same, but it enforces the use of direct
    transactions for unilateral exits. *)
Definition CooperativeExitV2 (req : CooperativeExitRequest)
    : M (TransferProto * SigningResults) :=
  cooperativeExit req true.
End CooperativeExit.

(** The messages of [proto/spark_internal] that [syncCoopExitInit] sends. *)
Module pbinternal.
Record InitiateTransferLeaf : Type := mkInitiateTransferLeaf {
  LeafId : string;
  RawRefundTx : list byte;
  DirectRefundTx : list byte;
  DirectFromCpfpRefundTx : list byte
}.

Record InitiateTransferRequest : Type := mkInitiateTransferRequest {
  TransferId : string;
  SenderIdentityPublicKey : list byte;
  ReceiverIdentityPublicKey : list byte;
  ExpiryTime : Z;
  Leaves : list InitiateTransferLeaf
}.

Record InitiateCooperativeExitRequest : Type :=
  mkInitiateCooperativeExitRequest {
  Transfer : InitiateTransferRequest;
  ExitId : string;
  ExitTxid : list byte
}.
End pbinternal.

(** The body of the loop of [syncCoopExitInit]: a missing direct job gives
    an empty byte string; the refund job is read unchecked, so a missing one
    is a nil-pointer panic. *)
Definition initiateTransferLeaf (leaf : LeafRefundTxSigningJob)
    : result pbinternal.InitiateTransferLeaf :=
  let directRefundTx :=
    match DirectRefundTxSigningJob leaf with
    | Some job => JobRawTx job
    | None => []
    end in
  let directFromCpfpRefundTx :=
    match DirectFromCpfpRefundTxSigningJob leaf with
    | Some job => JobRawTx job
    | None => []
    end in
  match RefundTxSigningJob leaf with
  | None => Err nilDereference
  | Some refund =>
      Ok {| pbinternal.LeafId := LeafId leaf;
            pbinternal.RawRefundTx := JobRawTx refund;
            pbinternal.DirectRefundTx := directRefundTx;
            pbinternal.DirectFromCpfpRefundTx := directFromCpfpRefundTx |}
  end.

(** The loop of [syncCoopExitInit], appending leaf by leaf. *)
Fixpoint initiateTransferLeaves (todo : list LeafRefundTxSigningJob)
    (leaves : list pbinternal.InitiateTransferLeaf)
    : result (list pbinternal.InitiateTransferLeaf) :=
  match todo with
  | [] => Ok leaves
  | leaf :: rest =>
      match initiateTransferLeaf leaf with
      | Err e => Err e
      | Ok out => initiateTransferLeaves rest (leaves ++ [out])
      end
  end.

(** The request [syncCoopExitInit] builds for the other operators. *)
Definition coopExitRequest (req : CooperativeExitRequest)
    : result pbinternal.InitiateCooperativeExitRequest :=
  let transfer := RequestTransfer req in
  match initiateTransferLeaves (LeavesToSend transfer) [] with
  | Err e => Err e
  | Ok leaves =>
      let initTransferRequest :=
        {| pbinternal.TransferId := TransferId transfer;
           pbinternal.SenderIdentityPublicKey :=
             OwnerIdentityPublicKey transfer;
           pbinternal.ReceiverIdentityPublicKey :=
             ReceiverIdentityPublicKey transfer;
           pbinternal.ExpiryTime := RequestExpiryTime transfer;
           pbinternal.Leaves := leaves |} in
      Ok {| pbinternal.Transfer := initTransferRequest;
            pbinternal.ExitId := RequestExitId req;
            pbinternal.ExitTxid := RequestExitTxid req |}
  end.

Section Sync.
(** [helper.ExecuteTaskWithAllOperators] with the selection that excludes
    this operator, running [InitiateCooperativeExit] on each of the others. *)
Variable ExecuteTaskWithAllOperators :
  pbinternal.InitiateCooperativeExitRequest -> M unit.

Definition syncCoopExitInit (req : CooperativeExitRequest) : M unit :=
  coopExitRequest ← lift (coopExitRequest req);
  ExecuteTaskWithAllOperators coopExitRequest.
End Sync.
End handler.

(** ** The transfer handler *)

Module transfer.
Import ent.

(** Modelled from the spec: the transaction boundary of a handler, which
    is not among the sources at hand ("all multi-row writes in one
    transition live in one DB transaction per operator"; on failure "any
    leaves already locked are released").  A successful run commits and
    drops the row locks; a failed run leaves the database as it was. *)
Definition transaction {A} (m : M A) : M A :=
  fun ctx =>
    match m ctx with
    | (Ok a, Some db) => (Ok a, Some (with_RowLocks (fun _ => ∅) db))
    | (Ok a, None) => (Ok a, None)
    | (Err e, _) => (Err e, ctx)
    end.

(** Modelled from the spec: reading a transfer row by its id; an unknown
    transfer is [NotFound] (section 7). *)
Definition Transfer_Get (id : UUID) : M Transfer :=
  with_db (fun db =>
    match Transfers db !! id with
    | Some t => (Ok t, db)
    | None => (Err (ErrStatus NotFound "unknown transfer"), db)
    end).

(** Modelled from the spec: the status update of a transfer row. *)
Definition Transfer_SetStatus (id : UUID) (status : TransferStatus)
    : M unit :=
  with_db (fun db =>
    (Ok tt, with_Transfers (alter (SetTransferStatus status) id) db)).

(** Modelled from the spec: [lock_for_update(leaf_id, transfer_locked)] as
    [start_transfer] uses it (section 4.4); the handler is not among the
    sources at hand.  It fails on an unknown leaf, on a leaf of another
    owner and, through [MarkNodeAsLocked], on a leaf that is not
    available. *)
Definition lock_for_update (owner : list byte) (leaf : UUID) : M unit :=
  fun ctx =>
    match ctx with
    | None => (Err ErrNoDb, ctx)
    | Some db =>
        match TreeNodes db !! leaf with
        | None => (Err (ErrStatus NotFound "unknown leaf"), ctx)
        | Some node =>
            if bool_decide (OwnerIdentityPubkey node = owner) then
              match MarkNodeAsLocked leaf TreeNodeStatusTransferLocked ctx
              with
              | (Ok _, ctx') => (Ok tt, ctx')
              | (Err _, ctx') =>
                  (Err (ErrStatus FailedPrecondition "leaf not available"),
                   ctx')
              end
            else (Err (ErrStatus PermissionDenied "identity mismatch"), ctx)
        end
    end.

(** Modelled from the spec: the leaves are locked in the order supplied; the
    first failure stops the loop. *)
Fixpoint lock_leaves (owner : list byte) (leaves : list UUID) : M unit :=
  match leaves with
  | [] => mret tt
  | leaf :: rest => lock_for_update owner leaf ;; lock_leaves owner rest
  end.

(** Modelled from the spec: the [InitiateTransfer] request of section 6. *)
Record InitiateTransferRequest : Type := mkInitiateTransferRequest {
  transfer_id : UUID;
  type : TransferType;
  expiry : Z;
  sender : list byte;
  receiver : list byte;
  leaves : list UUID
}.

(** Modelled from the spec: [InitiateTransfer] ([start_transfer], section
    4.4, with the error kinds of section 7); the handler is not among the
    sources at hand.  An empty leaf list is a malformed request; an expiry
    in the past or a leaf that cannot be locked fails the whole transfer;
    otherwise the leaves are locked in the order supplied and the transfer
    row is created in [SENDER_INITIATED]. *)
Definition InitiateTransfer (now : Z) (req : InitiateTransferRequest)
    : M Transfer :=
  transaction (
    if bool_decide (leaves req = [])
    then fail (ErrStatus InvalidArgument "no leaves to send")
    else if expiry req <=? now
    then fail (ErrStatus FailedPrecondition "expiry time is in the past")
    else
      lock_leaves (sender req) (leaves req) ;;
      let t := {| TransferID := transfer_id req; Type_ := type req;
                  SenderIdentityPubkey := sender req;
                  ReceiverIdentityPubkey := receiver req;
                  ExpiryTime := expiry req;
                  TransferStatus_ := TransferStatusSenderInitiated;
                  LeavesToSend := leaves req;
                  SenderTweaked := false |} in
      with_db (fun db =>
        (Ok t, with_Transfers (insert (transfer_id req) t) db))).

(** Modelled from the spec: cancellation is open before the sender's key
    tweak only (section 4.4). *)
Definition cancellable (t : Transfer) : bool :=
  (bool_decide (TransferStatus_ t = TransferStatusSenderInitiated) ||
   bool_decide (TransferStatus_ t = TransferStatusSenderKeyTweakPending)) &&
  negb (SenderTweaked t).

(** Modelled from the spec: on cancel the leaf goes back to its sender,
    available again. *)
Definition revert_leaf (owner : list byte) (tn : TreeNode) : TreeNode :=
  SetOwnerIdentityPubkey owner (SetStatus TreeNodeStatusAvailable tn).

(** Modelled from the spec: every leaf of the transfer is reverted. *)
Definition revert_leaves (owner : list byte) (leaves : list UUID)
    (nodes : gmap UUID TreeNode) : gmap UUID TreeNode :=
  fold_right (fun leaf m => alter (revert_leaf owner) leaf m) nodes leaves.

(** Modelled from the spec: the writes of a cancellation or an expiry, the
    transfer row and its leaves together. *)
Definition close_transfer (final : TransferStatus) (t : Transfer) : M unit :=
  with_db (fun db =>
    (Ok tt,
     with_Transfers (insert (TransferID t) (SetTransferStatus final t))
       (with_TreeNodes
          (revert_leaves (SenderIdentityPubkey t) (LeavesToSend t)) db))).

(** Modelled from the spec: [CancelTransfer] (section 4.4, "Cancellation");
    the handler is not among the sources at hand.  The expiry time plays
    no part in the decision. *)
Definition CancelTransfer (id : UUID) : M Transfer :=
  transaction (
    t ← Transfer_Get id;
    if cancellable t
    then close_transfer TransferStatusCancelled t ;;
         mret (SetTransferStatus TransferStatusCancelled t)
    else fail (ErrStatus FailedPrecondition
                 "transfer can no longer be cancelled")).

(** Modelled from the spec: expiry (section 4.4: "expiry after
    expiry_time is equivalent to cancellation as long as the pre-tweak
    invariant holds"); elsewhere it changes nothing. *)
Definition ExpireTransfer (now : Z) (id : UUID) : M unit :=
  transaction (
    t ← Transfer_Get id;
    if (ExpiryTime t <? now) && cancellable t
    then close_transfer TransferStatusExpired t
    else mret tt).

(** Modelled from the spec: the number of confirmations of an exit
    transaction at a chain tip, counted from its confirmation height:
    none while no confirmation height is recorded. *)
Definition confirmations (tip : Z) (exit : CooperativeExit) : Z :=
  match ConfirmationHeight exit with
  | None => 0
  | Some height => if tip <? height then 0 else tip - height + 1
  end.

(** Modelled from the spec: the cooperative exit row that belongs to a
    transfer. *)
Definition exit_of_transfer (db : Db) (id : UUID) : option CooperativeExit :=
  snd <$> List.find (fun kv => bool_decide (ExitTransfer (snd kv) = id))
                    (map_to_list (CooperativeExits db)).

Section Claim.
(** [handler.CoopExitConfirmationThreshold]: declared in the handler
    package, outside the sources at hand. *)
Variable CoopExitConfirmationThreshold : Z.

(** Modelled from the spec: the gate of a cooperative exit (section 4.4,
    "Cooperative Exit", and property 6 of section 8). *)
Definition checkCoopExitConfirmed (tip : Z) (t : Transfer) : M unit :=
  if bool_decide (Type_ t = TransferTypeCooperativeExit) then
    with_db (fun db =>
      match exit_of_transfer db (TransferID t) with
      | None =>
          (Err (ErrStatus Internal "cooperative exit not recorded"), db)
      | Some exit =>
          if confirmations tip exit <? CoopExitConfirmationThreshold
          then (Err (ErrStatus FailedPrecondition
                       "insufficient confirmations"), db)
          else (Ok tt, db)
      end)
  else mret tt.

(** Modelled from the spec: [ClaimTransferTweakKeys] (section 4.5, step
    3); the handler is not among the sources at hand.  The scalar
    arithmetic of the key rotation is outside this model: what is kept
    is the gate, the state check and the move to
    [RECEIVER_KEY_TWEAKED]. *)
Definition ClaimTransferTweakKeys (tip : Z) (id : UUID) : M unit :=
  transaction (
    t ← Transfer_Get id;
    checkCoopExitConfirmed tip t ;;
    if bool_decide (TransferStatus_ t = TransferStatusSenderKeyTweaked)
    then Transfer_SetStatus id TransferStatusReceiverKeyTweaked
    else fail (ErrStatus FailedPrecondition "transfer in wrong state")).
End Claim.

(** The network of a leaf is the network of its tree, as
    [MarshalSparkProto] reads it. *)
Definition leaf_network (db : Db) (leaf : UUID) : option Network :=
  node ← TreeNodes db !! leaf;
  tree ← Trees db !! NodeTreeID node;
  Some (TreeNetwork tree).

(** Modelled from the spec: the states in which a transfer is pending for
    its receiver.  Section 4.5 names [SENDER_KEY_TWEAKED] for
    [query_pending]; the same section has a receiver whose claim has
    partially succeeded "re-query pending, and continue", and the tests of
    the claim path ([TestTransferRecoverFinalizeSignatures], the partial
    claims of transfer_test.go) find the transfer among the pending ones
    after [ClaimTransferTweakKeys] and after [ClaimTransferSignRefunds] have
    succeeded.  So a transfer whose claim is under way, in
    [RECEIVER_KEY_TWEAKED], is pending as well; a completed, cancelled or
    expired one is not. *)
Definition pending_status (st : TransferStatus) : bool :=
  bool_decide (st = TransferStatusSenderKeyTweaked) ||
  bool_decide (st = TransferStatusReceiverKeyTweaked).

(** Modelled from the spec: what [query_pending] selects (section 4.5). *)
Definition pending_for (db : Db) (identity : list byte) (network : Network)
    (t : Transfer) : Prop :=
  ReceiverIdentityPubkey t = identity /\
  pending_status (TransferStatus_ t) = true /\
  Exists (fun leaf => leaf_network db leaf = Some network) (LeavesToSend t).

#[global] Instance pending_for_dec db identity network t :
  Decision (pending_for db identity network t).
Proof. unfold pending_for. apply _. Defined.

(** Modelled from the spec: [QueryPendingTransfers] ([query_pending],
    section 4.5, step 1); the handler is not among the sources at hand. *)
Definition QueryPendingTransfers (identity : list byte) (network : Network)
    : M (gmap UUID Transfer) :=
  with_db (fun db =>
    (Ok (filter (fun kv => pending_for db identity network (snd kv))
                (Transfers db)),
     db)).

Section Sequence.
(** The fixed step by which a new refund transaction lowers the time
    lock of the one it replaces. *)
Variable TimeLockInterval : Z.

(** Modelled from the spec: the sequence of the next refund transaction
    (section 4.4, "Refund-tx semantics"; [getNextTransactionSequence] of
    the SDK is not among the sources at hand).  An old sequence below
    the step refuses the transfer. *)
Definition nextSequence (oldSequence : Z) : result Z :=
  if oldSequence <? TimeLockInterval
  then Err (ErrStatus FailedPrecondition
              "time lock too low, refresh the leaf first")
  else Ok (oldSequence - TimeLockInterval).

(** Modelled from the spec: the sequences of the successive refund
    transactions of a leaf, newest last, until the next one would be
    refused. *)
Fixpoint refundChain (fuel : nat) (sequence : Z) : list Z :=
  match fuel with
  | O => []
  | S fuel' =>
      match nextSequence sequence with
      | Ok next => next :: refundChain fuel' next
      | Err _ => []
      end
  end.
End Sequence.
End transfer.

(** ** so/authz: the IP-based authorization interceptor *)

Module authz.
(** [type Mode int] with its constants, in the order of the [iota]. *)
Definition Mode : Type := Z.
Definition ModeUnset : Mode := 0.
Definition ModeDisabled : Mode := 1.
Definition ModeWarn : Mode := 2.
Definition ModeEnforce : Mode := 3.
Definition ModeLogOnly : Mode := 4.
Definition ModeMax : Mode := 5.

Definition Valid (m : Mode) : bool := (m >? ModeUnset) && (m <? ModeMax).

Record InterceptorConfig : Type := mkInterceptorConfig {
  AllowedIPs : list string;
  ConfigMode : Mode;
  ProtectedServices : list string;
  XffClientIpPosition : Z
}.

(** What the interceptor reads from the request context: the peer address
    ([peer.FromContext], as [p.Addr.String()]) if there is one, and the
    client IP that [middleware.GetClientIpFromHeader] finds at a position of
    the x-forwarded-for header. *)
Record RequestContext : Type := mkRequestContext {
  Peer : option string;
  GetClientIpFromHeader : Z -> result string
}.

(** [strings.HasPrefix(s, prefix)] *)
Definition HasPrefix (s pre : string) : bool := String.prefix pre s.

Section Authorize.
(** [net.SplitHostPort] *)
Variable SplitHostPort : string -> result (string * string).

(** The loop over the protected service prefixes. *)
Definition isProtected (prefixes : list string) (method : string) : bool :=
  existsb (fun pre => HasPrefix method pre) prefixes.

(** [authorizeRequest]: [None] is Go's [nil] error.  The log lines the
    function writes are left out. *)
Definition authorizeRequest (config : InterceptorConfig)
    (ctx : RequestContext) (method : string) : option error :=
  if ConfigMode config =? ModeDisabled then None
  else if (0 <? Z.of_nat (List.length (ProtectedServices config))) &&
          negb (isProtected (ProtectedServices config) method)
  then None
  else
    match Peer ctx with
    | None =>
        if ConfigMode config =? ModeEnforce
        then Some (ErrStatus Internal "failed to get peer information")
        else None
    | Some addr =>
        match SplitHostPort addr with
        | Err _ =>
            if ConfigMode config =? ModeEnforce
            then Some (ErrStatus Internal "failed to get peer information")
            else None
        | Ok (host, _) =>
            if negb (HasPrefix addr "10.") then
              if ConfigMode config =? ModeEnforce
              then Some (ErrStatus PermissionDenied
                           ("request not allowed from " ++ addr))
              else None
            else
              let clientIP :=
                match GetClientIpFromHeader ctx (XffClientIpPosition config)
                with
                | Ok xffClientIP => xffClientIP
                | Err _ => host
                end in
              if negb (HasPrefix clientIP "10.") &&
                 negb (ConfigMode config =? ModeLogOnly) &&
                 negb (bool_decide (clientIP ∈ AllowedIPs config))
              then
                if ConfigMode config =? ModeEnforce
                then Some (ErrStatus PermissionDenied
                             ("request not allowed from " ++ clientIP))
                else None
              else None
        end
    end.

(** [UnaryServerInterceptor]: the handler runs only for an authorized
    request. *)
Definition UnaryServerInterceptor {Req Resp : Type}
    (config : InterceptorConfig) (ctx : RequestContext) (req : Req)
    (fullMethod : string) (handler : RequestContext -> Req -> result Resp)
    : result Resp :=
  match authorizeRequest config ctx fullMethod with
  | Some err => Err err
  | None => handler ctx req
  end.
End Authorize.

Definition InterceptorConfigOption : Type :=
  InterceptorConfig -> InterceptorConfig.

Definition WithMode (mode : Mode) : InterceptorConfigOption :=
  fun config =>
    {| AllowedIPs := AllowedIPs config; ConfigMode := mode;
       ProtectedServices := ProtectedServices config;
       XffClientIpPosition := XffClientIpPosition config |}.

Definition WithAllowedIPs (ips : list string) : InterceptorConfigOption :=
  fun config =>
    {| AllowedIPs := ips; ConfigMode := ConfigMode config;
       ProtectedServices := ProtectedServices config;
       XffClientIpPosition := XffClientIpPosition config |}.

Definition WithProtectedServices (protectedServices : list string)
    : InterceptorConfigOption :=
  let fullProtectedServicesNames :=
    List.map (fun service => "/" ++ service ++ "/")%string protectedServices in
  fun config =>
    {| AllowedIPs := AllowedIPs config; ConfigMode := ConfigMode config;
       ProtectedServices := fullProtectedServicesNames;
       XffClientIpPosition := XffClientIpPosition config |}.

Definition WithXffClientIpPosition (position : Z) : InterceptorConfigOption :=
  fun config =>
    {| AllowedIPs := AllowedIPs config; ConfigMode := ConfigMode config;
       ProtectedServices := ProtectedServices config;
       XffClientIpPosition := position |}.

Definition NewAuthzConfig (opts : list InterceptorConfigOption)
    : InterceptorConfig :=
  fold_left (fun config opt => opt config) opts
    {| AllowedIPs := []; ConfigMode := ModeDisabled; ProtectedServices := [];
       XffClientIpPosition := 0 |}.
End authz.

(** ** so/knobs/knobs.go *)

Module knobs.
Record Config : Type := mkConfig {
  Enabled : option bool
}.

Definition IsEnabled (c : Config) : bool :=
  match Enabled c with
  | Some enabled => enabled
  | None => false
  end.

(** [Knobs]: the values by key.  The lock and the logger are left out. *)
Record Knobs : Type := mkKnobs {
  values : gmap string float
}.

Definition New : Knobs := {| values := ∅ |}.

(** [fmt.Sprintf("%s@%s", knob, target)] *)
Definition targetKey (knob target : string) : string :=
  (knob ++ "@" ++ target)%string.

Definition GetValueTarget (k : Knobs) (knob : string) (target : option string)
    (defaultValue : float) : float :=
  let key :=
    match target with
    | Some t => targetKey knob t
    | None => knob
    end in
  match values k !! key with
  | Some value => value
  | None => defaultValue
  end.

Definition GetValue (k : Knobs) (knob : string) (defaultValue : float)
    : float :=
  GetValueTarget k knob None defaultValue.

(** [new(big.Int).SetBytes(b)]: the bytes as a big-endian unsigned number. *)
Definition SetBytes (b : list byte) : Z :=
  fold_left (fun acc x => acc * 256 + Z.of_N (Byte.to_N x)) b 0.

Section Rollout.
(** [md5.Sum], 16 bytes. *)
Variable md5_Sum : list byte -> list byte.

(** [RolloutUUIDTarget]; [id] holds the 16 bytes of the UUID. *)
Definition RolloutUUIDTarget (k : Knobs) (knob : string) (id : list byte)
    (target : option string) (defaultValue : float) : bool :=
  let v := GetValueTarget k knob target defaultValue in
  let value := if negb (PrimFloat.eqb v defaultValue) then v
               else defaultValue in
  let hash := md5_Sum (list_byte_of_string knob) in
  let salt := SetBytes hash in
  let uuidInt := SetBytes id in
  let salted := Z.lxor uuidInt salt in
  let mod_ := salted mod 100000 in
  let threshold :=
    Float64.to_int64 (PrimFloat.mul value (Float64.of_int 1000)) in
  mod_ <? threshold.

Definition RolloutUUID (k : Knobs) (knob : string) (id : list byte)
    (defaultValue : float) : bool :=
  RolloutUUIDTarget k knob id None defaultValue.
End Rollout.

Section ConfigMap.
(** [yaml.Unmarshal] into a [float64] and into a [map[string]float64]; the
    pairs of the map come in the order the loop over it visits them. *)
Variable yamlFloat : string -> option float.
Variable yamlMap : string -> option (list (string * float)).

(** One round of the loop of [handleConfigMap]. *)
Definition storeEntry (vals : gmap string float) (entry : string * string)
    : gmap string float :=
  let '(name, value) := entry in
  match yamlFloat value with
  | Some parsedFloat => <[name := parsedFloat]> vals
  | None =>
      match yamlMap value with
      | Some parsedMap =>
          fold_left
            (fun vs '(target, targetValue) =>
               <[targetKey name target := targetValue]> vs)
            parsedMap vals
      | None => vals
      end
  end.

(** [handleConfigMap] processes updates from the ConfigMap; [data] is
    [configMap.Data], its pairs in the order the loop visits them. *)
Definition handleConfigMap (k : Knobs) (data : option (list (string * string)))
    : Knobs :=
  match data with
  | None => k
  | Some entries => {| values := fold_left storeEntry entries ∅ |}
  end.
End ConfigMap.

Section Timeout.
(** What [uint64(f)] gives where the truncated value does not fit: Go leaves
    it to the implementation. *)
Variable uint64_unrepresentable : float -> Z.

(** [uint64(f)]: truncation towards zero. *)
Definition to_uint64 (f : float) : Z :=
  match Prim2SF f with
  | S754_zero _ => 0
  | S754_finite s m e =>
      let mag := if 0 <=? e then Z.shiftl (Z.pos m) e
                 else Z.shiftr (Z.pos m) (- e) in
      if mag =? 0 then 0
      else if negb s && (mag <? 2 ^ 64) then mag
      else uint64_unrepresentable f
  | _ => uint64_unrepresentable f
  end.

Definition GetDatabaseStatementTimeoutMs (k : Knobs) : Z :=
  to_uint64
    (PrimFloat.mul (GetValue k "spark.database.statement_timeout" 60%float)
                   (Float64.of_int 1000)).
End Timeout.
End knobs.

(** ** so/grpc: the token metrics interceptor *)

Module grpc.
Definition tokenMethods : list string :=
  ["/spark_token.SparkTokenService/start_transaction";
   "/spark_token.SparkTokenService/commit_transaction";
   "/spark_token.SparkTokenInternalService/prepare_transaction";
   "/spark_token.SparkTokenInternalService/sign_token_transaction_from_coordination";
   "/spark_token.SparkTokenInternalService/exchange_revocation_secrets_shares"
  ]%string.

(** [isTokenTransactionMethod] checks if the gRPC method is related to token
    transactions. *)
Definition isTokenTransactionMethod (method : string) : bool :=
  bool_decide (method ∈ tokenMethods).

(** [strings.Split(s, "/")] *)
Fixpoint Split_slash (s : string) : list string :=
  match s with
  | EmptyString => [EmptyString]
  | String c rest =>
      if String.eqb (String c EmptyString) "/"
      then EmptyString :: Split_slash rest
      else match Split_slash rest with
           | part :: parts => String c part :: parts
           | [] => [String c EmptyString]
           end
  end.

Definition extractServiceName (method : string) : string :=
  match Split_slash method with
  | _ :: service :: _ => service
  | _ => "unknown"
  end.
End grpc.

(** ** sdks/js: services/coop-exit.ts *)

Module CoopExitService.
Import ent handler.

#[local] Instance result_ret : MRet result := @Ok.
#[local] Instance result_bind : MBind result :=
  fun A B k r => match r with Ok a => k a | Err e => Err e end.

(** [TransactionInput] of the bitcoin library, as far as the service reads
    it: a field that was left out is undefined. *)
Record TransactionInput : Type := mkTransactionInput {
  txid : option (list byte);
  index : option Z;
  sequence : option Z
}.

Record TransactionOutput : Type := mkTransactionOutput {
  script : list byte;
  amount : Z
}.

(** [Transaction]: its inputs and outputs in the order they were added, each
    as it was given; what the library fills in for a field left undefined is
    outside this model. *)
Record Transaction : Type := mkTransaction {
  inputs : list TransactionInput;
  outputs : list TransactionOutput
}.

(** The proto [TreeNode] the wallet holds for a leaf. *)
Record TreeNode : Type := mkTreeNode {
  id : string;
  value : Z;
  nodeTx : list byte;
  refundTx : list byte;
  vout : Z
}.

(** One signature of [signRefunds]. *)
Record NodeSignatures : Type := mkNodeSignatures {
  nodeId : string;
  refundTxSignature : list byte
}.

Section Service.
(** The fixed step of [getNextTransactionSequence]. *)
Variable TimeLockInterval : Z.

(** The bitcoin library: parsing, serialisation and the checks [addInput]
    and [addOutput] make before they accept what they are given. *)
Variable getTxFromRawTxBytes : list byte -> result Transaction.
Variable toBytes : Transaction -> result (list byte).
Variable validInput : TransactionInput -> bool.
Variable validOutput : TransactionOutput -> bool.
Variable getP2TRScriptFromPublicKey : list byte -> Network -> result (list byte).

(** The wallet configuration and its signer; the signing commitments are
    drawn at random, one for each leaf. *)
Variable KeyDerivation : Type.
Variable getNetwork : Network.
Variable getRandomSigningCommitment : nat -> result SigningCommitment.
Variable getPublicKeyFromDerivation : KeyDerivation -> result (list byte).
Variable getIdentityPublicKey : result (list byte).

(** [uuidv7()], by the number of the call, and [Date.now()]. *)
Variable uuidv7 : nat -> string.
Variable Date_now : Z.

(** The connection to the coordinator and its [cooperative_exit] call, which
    runs the handler on the coordinator's state. *)
Variable SparkClient TransferProto SigningResult : Type.
Variable createSparkClient : result SparkClient.

Record LeafKeyTweak : Type := mkLeafKeyTweak {
  leaf : TreeNode;
  keyDerivation : KeyDerivation
}.

Record LeafRefundSigningData : Type := mkLeafRefundSigningData {
  dataKeyDerivation : KeyDerivation;
  dataRefundTx : Transaction;
  dataSigningNonceCommitment : SigningCommitment;
  dataTx : Transaction;
  dataVout : Z;
  dataReceivingPubkey : list byte
}.

Record CooperativeExitResponse : Type := mkCooperativeExitResponse {
  transfer : option TransferProto;
  signingResults : list SigningResult
}.

Variable cooperative_exit :
  SparkClient -> CooperativeExitRequest -> M CooperativeExitResponse.
Variable signRefunds :
  gmap string LeafRefundSigningData -> list SigningResult ->
  result (list NodeSignatures).

Definition newTransaction : Transaction := {| inputs := []; outputs := [] |}.

Definition getInput (tx : Transaction) (i : nat) : result TransactionInput :=
  match inputs tx !! i with
  | Some input => Ok input
  | None => Err (ErrExternal "Wrong input index")
  end.

Definition addInput (tx : Transaction) (input : TransactionInput)
    : result Transaction :=
  if validInput input
  then Ok {| inputs := inputs tx ++ [input]; outputs := outputs tx |}
  else Err (ErrExternal "invalid transaction input").

Definition addOutput (tx : Transaction) (output : TransactionOutput)
    : result Transaction :=
  if validOutput output
  then Ok {| inputs := inputs tx; outputs := outputs tx ++ [output] |}
  else Err (ErrExternal "invalid transaction output").

(** Modelled from the spec: [getNextTransactionSequence] of
    utils/transaction.ts, which is not among the sources at hand; it is
    [transfer.nextSequence] (section 4.4, "Refund-tx semantics") on the
    sequence of the input, and an input that carries no sequence has none to
    lower and is refused as well. *)
Definition getNextTransactionSequence (currSequence : option Z) : result Z :=
  match currSequence with
  | Some oldSequence => transfer.nextSequence TimeLockInterval oldSequence
  | None => Err (ErrValidation "Invalid sequence")
  end.

Definition createConnectorRefundTransaction (sequence : Z)
    (nodeOutPoint connectorOutput : TransactionInput) (amountSats : Z)
    (receiverPubKey : list byte) : result Transaction :=
  let refundTx := newTransaction in
  match txid nodeOutPoint, index nodeOutPoint with
  | Some nodeTxid, Some nodeIndex =>
      refundTx ← addInput refundTx
                   {| txid := Some nodeTxid; index := Some nodeIndex;
                      sequence := Some sequence |};
      refundTx ← addInput refundTx connectorOutput;
      receiverScript ← getP2TRScriptFromPublicKey receiverPubKey getNetwork;
      addOutput refundTx {| script := receiverScript; amount := amountSats |}
  | _, _ => Err (ErrValidation "Invalid node outpoint")
  end.

(** One round of the loop of [signCoopExitRefunds]: the signing job of the
    leaf at position [i] and its entry of [leafDataMap]. *)
Definition refundSigningJob (leaves : list LeafKeyTweak)
    (connectorOutputs : list TransactionInput) (receiverPubKey : list byte)
    (i : nat) : result (LeafRefundTxSigningJob * LeafRefundSigningData) :=
  match leaves !! i with
  | None => Err (ErrValidation "Missing leaf")
  | Some leafTweak =>
      match connectorOutputs !! i with
      | None => Err (ErrValidation "Missing connector output")
      | Some connectorOutput =>
          currentRefundTx ← getTxFromRawTxBytes (refundTx (leaf leafTweak));
          currentInput ← getInput currentRefundTx 0;
          nextSequence ← getNextTransactionSequence (sequence currentInput);
          nodeOutPoint ← getInput currentRefundTx 0;
          refundTx ← createConnectorRefundTransaction nextSequence
                       nodeOutPoint connectorOutput (value (leaf leafTweak))
                       receiverPubKey;
          signingNonceCommitment ← getRandomSigningCommitment i;
          signingPublicKey ←
            getPublicKeyFromDerivation (keyDerivation leafTweak);
          rawTx ← toBytes refundTx;
          let signingJob :=
            {| LeafId := id (leaf leafTweak);
               RefundTxSigningJob :=
                 Some {| SigningPublicKey := signingPublicKey;
                         JobRawTx := rawTx;
                         SigningNonceCommitment :=
                           Some signingNonceCommitment |};
               DirectRefundTxSigningJob := None;
               DirectFromCpfpRefundTxSigningJob := None |} in
          tx ← getTxFromRawTxBytes (nodeTx (leaf leafTweak));
          Ok (signingJob,
              {| dataKeyDerivation := keyDerivation leafTweak;
                 dataRefundTx := refundTx;
                 dataSigningNonceCommitment := signingNonceCommitment;
                 dataTx := tx;
                 dataVout := vout (leaf leafTweak);
                 dataReceivingPubkey := receiverPubKey |})
      end
  end.

(** The loop, over the positions it visits. *)
Fixpoint collectSigningJobs (leaves : list LeafKeyTweak)
    (connectorOutputs : list TransactionInput) (receiverPubKey : list byte)
    (positions : list nat) (signingJobs : list LeafRefundTxSigningJob)
    (leafDataMap : gmap string LeafRefundSigningData)
    : result (list LeafRefundTxSigningJob *
              gmap string LeafRefundSigningData) :=
  match positions with
  | [] => Ok (signingJobs, leafDataMap)
  | i :: rest =>
      match refundSigningJob leaves connectorOutputs receiverPubKey i with
      | Err e => Err e
      | Ok (signingJob, data) =>
          collectSigningJobs leaves connectorOutputs receiverPubKey rest
            (signingJobs ++ [signingJob])
            (<[LeafId signingJob := data]> leafDataMap)
      end
  end.

(** The first part of [signCoopExitRefunds]: the length check and the loop
    that builds the signing jobs, before the coordinator is contacted. *)
Definition refundSigningJobs (leaves : list LeafKeyTweak)
    (connectorOutputs : list TransactionInput) (receiverPubKey : list byte)
    : result (list LeafRefundTxSigningJob *
              gmap string LeafRefundSigningData) :=
  if negb (List.length leaves =? List.length connectorOutputs)%nat
  then Err (ErrValidation "Mismatch between leaves and connector outputs")
  else collectSigningJobs leaves connectorOutputs receiverPubKey
         (List.seq 0 (List.length leaves)) [] ∅.

(** [try { ... } catch (error) { throw new NetworkError(msg, ..., error) }] *)
Definition networkError {A} (msg : string) (m : M A) : M A :=
  fun ctx =>
    match m ctx with
    | (Err e, ctx') => (Err (ErrNetworkFrom msg e), ctx')
    | ok => ok
    end.

Definition signCoopExitRefunds (leaves : list LeafKeyTweak)
    (exitTxId : list byte) (connectorOutputs : list TransactionInput)
    (receiverPubKey : list byte)
    : M (TransferProto * gmap string (list byte)) :=
  built ← lift (refundSigningJobs leaves connectorOutputs receiverPubKey);
  let '(signingJobs, leafDataMap) := built in
  sparkClient ← lift createSparkClient;
  response ← networkError "Failed to initiate cooperative exit" (
    let transferId := uuidv7 0 in
    ownerIdentityPublicKey ← lift getIdentityPublicKey;
    let expiryTime :=
      if bool_decide (getNetwork = Mainnet)
      then Date_now + 2 * 24 * 60 * 60 * 1000 + 5 * 60 * 1000
      else Date_now + 5 * 60 * 1000 in
    cooperative_exit sparkClient
      {| RequestTransfer :=
           {| TransferId := transferId;
              OwnerIdentityPublicKey := ownerIdentityPublicKey;
              ReceiverIdentityPublicKey := receiverPubKey;
              RequestExpiryTime := expiryTime;
              LeavesToSend := signingJobs |};
         RequestExitId := uuidv7 1;
         RequestExitTxid := exitTxId |});
  match transfer response with
  | None => fail (ErrNetwork "Failed to initiate cooperative exit")
  | Some transferProto =>
      signatures ← lift (signRefunds leafDataMap (signingResults response));
      let signaturesMap :=
        fold_left
          (fun m signature =>
             <[nodeId signature := refundTxSignature signature]> m)
          signatures ∅ in
      mret (transferProto, signaturesMap)
  end.
End Service.
End CoopExitService.

(** * Properties *)

(** ** Machine integers *)

Lemma Int64_wrap_id (z : Z) : Int64.in_range z -> Int64.wrap z = z.
Proof.
  unfold Int64.in_range, Int64.wrap, Int64.min_signed, Int64.max_signed.
  intros Hz. rewrite Z.mod_small; lia.
Qed.

(** ** wallet/transaction.go *)

Module wallet_facts.
Import wire wallet.

Section Fee.
Variable DefaultFeeSats : Z.
Hypothesis fee_nonneg : 0 <= DefaultFeeSats.

Local Abbreviation maybeApplyFee := (wallet.maybeApplyFee DefaultFeeSats).

Lemma maybeApplyFee_keeps (amount : Z) :
  amount <= DefaultFeeSats -> maybeApplyFee amount = amount.
Proof using Type.
  intros Hle. unfold wallet.maybeApplyFee.
  destruct (Z.gtb_spec amount DefaultFeeSats); [lia | reflexivity].
Qed.

Lemma maybeApplyFee_subtracts (amount : Z) :
  Int64.in_range amount -> DefaultFeeSats < amount ->
  maybeApplyFee amount = amount - DefaultFeeSats.
Proof using fee_nonneg.
  intros Hr Hlt. unfold wallet.maybeApplyFee, Int64.sub.
  destruct (Z.gtb_spec amount DefaultFeeSats); [| lia].
  apply Int64_wrap_id.
  unfold Int64.in_range, Int64.min_signed, Int64.max_signed in *. lia.
Qed.

Lemma maybeApplyFee_positive (amount : Z) :
  Int64.in_range amount -> 0 < amount -> 0 < maybeApplyFee amount.
Proof using fee_nonneg.
  intros Hr Hpos.
  destruct (Z_le_gt_dec amount DefaultFeeSats) as [Hle | Hgt].
  - rewrite maybeApplyFee_keeps by assumption. assumption.
  - rewrite maybeApplyFee_subtracts by (assumption || lia). lia.
Qed.

Lemma maybeApplyFee_cases (amount : Z) :
  Int64.in_range amount ->
  maybeApplyFee amount =
    if amount >? DefaultFeeSats then amount - DefaultFeeSats else amount.
Proof using fee_nonneg.
  intros Hr. destruct (Z.gtb_spec amount DefaultFeeSats) as [Hgt | Hle].
  - apply maybeApplyFee_subtracts; [assumption | lia].
  - apply maybeApplyFee_keeps; lia.
Qed.
End Fee.

(** Appending outputs one by one in a loop appends the mapped list. *)
Lemma TxOuts_fold_AddTxOut (f : TxOut -> TxOut) (outs : list TxOut) :
  forall tx : MsgTx,
    fold_left (fun tx txOut => AddTxOut tx (f txOut)) outs tx =
    {| Version := Version tx; TxIns := TxIns tx;
       TxOuts := TxOuts tx ++ List.map f outs; LockTime := LockTime tx |}.
Proof.
  induction outs as [| o outs IH]; intros tx; simpl.
  - rewrite app_nil_r. destruct tx; reflexivity.
  - rewrite IH. simpl. rewrite <- app_assoc. reflexivity.
Qed.

Lemma createSplitTx_passthrough (fee : Z) (op : OutPoint)
    (outs : list TxOut) :
  totalOutputAmount outs <= fee ->
  createSplitTx fee op outs =
    {| Version := 3; TxIns := [NewTxIn op [] []]; TxOuts := outs;
       LockTime := 0 |}.
Proof.
  intros Hle. unfold createSplitTx.
  destruct (Z.gtb_spec (totalOutputAmount outs) fee); [lia |].
  rewrite (TxOuts_fold_AddTxOut (fun o => o)). simpl.
  rewrite List.map_id. reflexivity.
Qed.

Lemma createSplitTx_scaled (fee : Z) (op : OutPoint) (outs : list TxOut) :
  fee < totalOutputAmount outs ->
  createSplitTx fee op outs =
    {| Version := 3; TxIns := [NewTxIn op [] []];
       TxOuts :=
         List.map
           (fun o =>
              NewTxOut
                (adjustedAmount (feeRatio fee (totalOutputAmount outs))
                                (Value o))
                (PkScript o)) outs;
       LockTime := 0 |}.
Proof.
  intros Hlt. unfold createSplitTx.
  destruct (Z.gtb_spec (totalOutputAmount outs) fee); [| lia].
  rewrite (TxOuts_fold_AddTxOut
             (fun o => NewTxOut (adjustedAmount _ (Value o)) (PkScript o))).
  reflexivity.
Qed.
End wallet_facts.

Module wallet_claims.
Import wire wallet wallet_facts.

(** A sample key type for concrete runs: the 32-byte x-only key itself,
    wrapped as [OP_1 <32 bytes>]; a key of another length is refused. *)
Definition sample_p2tr (pk : list byte) : result (list byte) :=
  if (Z.of_nat (List.length pk) =? 32)
  then Ok (x51 :: x20 :: pk)
  else Err (ErrExternal "invalid public key").

Definition sample_key : list byte := List.repeat x07 32.
Definition sample_outpoint : OutPoint :=
  {| Hash := List.repeat xab 32; Index := 0 |}.

(** Whatever the positive fee, a leaf worth exactly the fee keeps its whole
    amount in the direct refund. *)
Lemma createRefundTxs_direct_at_fee (fee : Z) :
  0 < fee ->
  exists cpfp direct,
    createRefundTxs fee (list byte) sample_p2tr 2000 sample_outpoint fee
                    sample_key true = Ok (cpfp, direct) /\
    List.map Value (TxOuts direct) = [fee] /\ fee <> fee - fee.
Proof.
  intros Hfee. unfold createRefundTxs. simpl.
  eexists _, _. split; [reflexivity |]. simpl.
  rewrite (maybeApplyFee_keeps fee fee) by lia. split; [reflexivity | lia].
Qed.

(** C6 (as stated) fails: with a fee of 955 sats a 500-sat leaf keeps its
    500 sats in the direct refund; the fee is not subtracted. *)
Lemma createRefundTxs_small_leaf_keeps_amount :
  exists cpfp direct,
    createRefundTxs 955 (list byte) sample_p2tr 2000 sample_outpoint 500
                    sample_key true = Ok (cpfp, direct) /\
    List.map Value (TxOuts direct) = [500] /\
    List.map Value (TxOuts direct) <> [500 - 955].
Proof.
  eexists _, _. split; [vm_compute; reflexivity |].
  split; [reflexivity | intros H; vm_compute in H; discriminate H].
Qed.

(** C6 (amended).  When the receiver's P2TR script can be derived,
    [createRefundTxs] returns exactly two version-3 transactions, each with
    the single input (node outpoint, requested sequence): the CPFP refund
    pays the whole leaf amount to that script and adds the ephemeral
    anchor; the direct refund has one output to the same script, worth the
    leaf amount minus [DefaultFeeSats] when the fee is requested and the
    leaf amount exceeds it, and the unchanged leaf amount otherwise.  When
    the script cannot be derived, no transaction is returned. *)
Theorem createRefundTxs_shape
    (DefaultFeeSats : Z) (PublicKey : Type)
    (P2TRScriptFromPubKey : PublicKey -> result (list byte))
    (sequence : Z) (nodeOutPoint : OutPoint) (amountSats : Z)
    (receivingPubkey : PublicKey) (shouldCalculateFee : bool) :
  0 <= DefaultFeeSats ->
  Int64.in_range amountSats ->
  match P2TRScriptFromPubKey receivingPubkey with
  | Ok script =>
      let txin := {| PreviousOutPoint := nodeOutPoint;
                     SignatureScript := []; Witness := [];
                     Sequence := sequence |} in
      createRefundTxs DefaultFeeSats PublicKey P2TRScriptFromPubKey sequence
                      nodeOutPoint amountSats receivingPubkey
                      shouldCalculateFee =
      Ok ({| Version := 3; TxIns := [txin];
             TxOuts := [NewTxOut amountSats script; EphemeralAnchorOutput];
             LockTime := 0 |},
          {| Version := 3; TxIns := [txin];
             TxOuts :=
               [NewTxOut
                  (if shouldCalculateFee && (amountSats >? DefaultFeeSats)
                   then amountSats - DefaultFeeSats else amountSats)
                  script];
             LockTime := 0 |})
  | Err e =>
      createRefundTxs DefaultFeeSats PublicKey P2TRScriptFromPubKey sequence
                      nodeOutPoint amountSats receivingPubkey
                      shouldCalculateFee =
      Err (ErrWrap "failed to create refund pkscript" e)
  end.
Proof.
  intros Hfee Hr. unfold createRefundTxs.
  destruct (P2TRScriptFromPubKey receivingPubkey) as [script | e];
    [| reflexivity].
  destruct shouldCalculateFee; simpl; [| reflexivity].
  rewrite (maybeApplyFee_cases DefaultFeeSats Hfee amountSats Hr).
  reflexivity.
Qed.

Lemma createRefundTxs_shape_witness :
  createRefundTxs 955 (list byte) sample_p2tr 2000 sample_outpoint 100000
                  sample_key true =
  Ok ({| Version := 3;
         TxIns := [{| PreviousOutPoint := sample_outpoint;
                      SignatureScript := []; Witness := [];
                      Sequence := 2000 |}];
         TxOuts := [NewTxOut 100000 (x51 :: x20 :: sample_key);
                    EphemeralAnchorOutput];
         LockTime := 0 |},
      {| Version := 3;
         TxIns := [{| PreviousOutPoint := sample_outpoint;
                      SignatureScript := []; Witness := [];
                      Sequence := 2000 |}];
         TxOuts := [NewTxOut 99045 (x51 :: x20 :: sample_key)];
         LockTime := 0 |}).
Proof.
  refine (createRefundTxs_shape 955 (list byte) sample_p2tr 2000
            sample_outpoint 100000 sample_key true _ _).
  - lia.
  - unfold Int64.in_range, Int64.min_signed, Int64.max_signed. lia.
Defined.

(** The claim of C10 for one builder run: every child output that is at
    most the fee is carried over unchanged, and every positive child
    output stays positive. *)
Definition fee_keeps_outputs (fee : Z) (ins outs : list TxOut) : Prop :=
  Forall2
    (fun i o =>
       (Value i <= fee -> Value o = Value i) /\
       (0 < Value i -> 0 < Value o))
    ins outs.

Definition sample_children : list TxOut :=
  [NewTxOut 1000 [x51]; NewTxOut 1 [x51]].

Example createSplitTx_sample_values :
  List.map Value (TxOuts (createSplitTx 955 sample_outpoint sample_children))
  = [45; 0].
Proof. vm_compute. reflexivity. Qed.

(** C10 (as stated) fails for split transactions: with a fee of 955 sats
    and children of 1000 and 1 sats the total exceeds the fee, so both are
    scaled; the 1-sat child, although below the fee, is not kept and comes
    out as 0 sats. *)
Lemma createSplitTx_zeroes_small_output :
  ~ fee_keeps_outputs 955 sample_children
      (TxOuts (createSplitTx 955 sample_outpoint sample_children)).
Proof.
  assert (E : TxOuts (createSplitTx 955 sample_outpoint sample_children) =
              [NewTxOut 45 [x51]; NewTxOut 0 [x51]])
    by (vm_compute; reflexivity).
  rewrite E. unfold fee_keeps_outputs, sample_children. intros H.
  inversion H as [| i o ins outs _ Htl]; subst.
  inversion Htl as [| i' o' ins' outs' [_ Hpos] _]; subst.
  simpl in Hpos. lia.
Qed.

(** C10 (amended).  The builders that go through [maybeApplyFee] (root,
    node, leaf-node and direct refund) never zero or invert an output: an
    amount of at most [DefaultFeeSats] is kept unchanged, a larger one
    loses exactly the fee, and a positive amount stays positive.  The
    split transaction guards on the sum of the child outputs instead: when
    that sum is at most [DefaultFeeSats] every child output is passed
    through unchanged. *)
Theorem fee_never_zeroes_output
    (DefaultFeeSats : Z) (PublicKey : Type)
    (P2TRScriptFromPubKey : PublicKey -> result (list byte)) :
  0 <= DefaultFeeSats ->
  (forall amount, Int64.in_range amount ->
     (amount <= DefaultFeeSats ->
      maybeApplyFee DefaultFeeSats amount = amount) /\
     (DefaultFeeSats < amount ->
      maybeApplyFee DefaultFeeSats amount = amount - DefaultFeeSats) /\
     (0 < amount -> 0 < maybeApplyFee DefaultFeeSats amount)) /\
  (forall op txOut,
     TxOuts (createRootTx DefaultFeeSats op txOut) =
     [NewTxOut (maybeApplyFee DefaultFeeSats (Value txOut))
               (PkScript txOut)]) /\
  (forall op txOut,
     TxOuts (createNodeTx DefaultFeeSats op txOut) =
     [NewTxOut (maybeApplyFee DefaultFeeSats (Value txOut))
               (PkScript txOut)]) /\
  (forall sequence op txOut,
     TxOuts (createLeafNodeTx DefaultFeeSats sequence op txOut true) =
     [NewTxOut (maybeApplyFee DefaultFeeSats (Value txOut))
               (PkScript txOut)]) /\
  (forall sequence op amount pk cpfp direct,
     createRefundTxs DefaultFeeSats PublicKey P2TRScriptFromPubKey sequence
                     op amount pk true = Ok (cpfp, direct) ->
     List.map Value (TxOuts direct) =
     [maybeApplyFee DefaultFeeSats amount]) /\
  (forall op childTxOuts,
     totalOutputAmount childTxOuts <= DefaultFeeSats ->
     TxOuts (createSplitTx DefaultFeeSats op childTxOuts) = childTxOuts).
Proof.
  intros Hfee.
  split; [| split; [| split; [| split; [| split]]]]; try reflexivity.
  - intros amount Hr. split; [| split].
    + intros Hle. now apply maybeApplyFee_keeps.
    + intros Hlt. now apply maybeApplyFee_subtracts.
    + intros Hpos. now apply maybeApplyFee_positive.
  - intros sequence op amount pk cpfp direct. unfold createRefundTxs.
    destruct (P2TRScriptFromPubKey pk); [| discriminate].
    intros Heq. injection Heq as _ <-. reflexivity.
  - intros op outs Hle.
    rewrite createSplitTx_passthrough by assumption. reflexivity.
Qed.

Lemma fee_never_zeroes_output_witness :
  maybeApplyFee 955 500 = 500 /\
  maybeApplyFee 955 100000 = 99045 /\
  TxOuts (createSplitTx 955 sample_outpoint
            [NewTxOut 500 [x51]; NewTxOut 400 [x51]]) =
  [NewTxOut 500 [x51]; NewTxOut 400 [x51]].
Proof.
  pose proof (fee_never_zeroes_output 955 (list byte) sample_p2tr
                ltac:(lia)) as (Hfee & _ & _ & _ & _ & Hsplit).
  assert (Hr : forall z, 0 <= z <= 1000000 -> Int64.in_range z).
  { intros z Hz.
    unfold Int64.in_range, Int64.min_signed, Int64.max_signed. lia. }
  split; [| split].
  - apply (Hfee 500); [apply Hr |]; lia.
  - apply (Hfee 100000); [apply Hr |]; lia.
  - apply Hsplit. vm_compute. discriminate.
Defined.
End wallet_claims.

(** ** The operator database *)

Module ent_facts.
Import ent.

(** Every tree node row is stored under its own primary key. *)
Definition keyed_by_id (db : Db) : Prop :=
  forall (k : UUID) (tn : TreeNode), TreeNodes db !! k = Some tn -> ID tn = k.

Definition is_locked_status (s : TreeNodeStatus) : bool :=
  bool_decide (s = TreeNodeStatusSplitLocked) ||
  bool_decide (s = TreeNodeStatusTransferLocked).

Ltac run_db :=
  unfold mbind, M_bind, bind, lift, fail, ret, GetDbFromContext,
         TreeNode_ForUpdate_Only, TreeNode_UpdateOne_SetStatus,
         with_db; simpl.

Lemma MarkNodeAsLocked_no_db (nodeID : UUID) (s : TreeNodeStatus) :
  MarkNodeAsLocked nodeID s None = (Err ErrNoDb, None).
Proof. reflexivity. Qed.

Lemma MarkNodeAsLocked_not_a_lock (db : Db) (nodeID : UUID)
    (s : TreeNodeStatus) :
  is_locked_status s = false ->
  MarkNodeAsLocked nodeID s (Some db) =
    (Err (ErrMsg ("not updating node status to a locked state: " ++
                  TreeNodeStatus_string s)), Some db).
Proof.
  intros Hs. unfold MarkNodeAsLocked. run_db.
  destruct s; try discriminate Hs; reflexivity.
Qed.

Lemma MarkNodeAsLocked_missing (db : Db) (nodeID : UUID)
    (s : TreeNodeStatus) :
  is_locked_status s = true ->
  TreeNodes db !! nodeID = None ->
  MarkNodeAsLocked nodeID s (Some db) =
    (Err (ErrEntNotFound "tree_node"), Some db).
Proof.
  intros Hs Hnone. unfold MarkNodeAsLocked. run_db.
  destruct s; try discriminate Hs; simpl; rewrite Hnone; reflexivity.
Qed.

Lemma MarkNodeAsLocked_unavailable (db : Db) (nodeID : UUID)
    (s : TreeNodeStatus) (node : TreeNode) :
  is_locked_status s = true ->
  TreeNodes db !! nodeID = Some node ->
  Status node <> TreeNodeStatusAvailable ->
  MarkNodeAsLocked nodeID s (Some db) =
    (Err (ErrMsg ("node not in a state to be locked: " ++
                  TreeNodeStatus_string (Status node))),
     Some (with_RowLocks (fun l => {[ nodeID ]} ∪ l) db)).
Proof.
  intros Hs Hnode Hst. unfold MarkNodeAsLocked. run_db.
  destruct s; try discriminate Hs; simpl; rewrite Hnode; simpl;
    rewrite (bool_decide_eq_true_2 _ Hst); reflexivity.
Qed.

Lemma MarkNodeAsLocked_available (db : Db) (nodeID : UUID)
    (s : TreeNodeStatus) (node : TreeNode) :
  is_locked_status s = true ->
  TreeNodes db !! nodeID = Some node ->
  ID node = nodeID ->
  Status node = TreeNodeStatusAvailable ->
  MarkNodeAsLocked nodeID s (Some db) =
    (Ok tt,
     Some (with_TreeNodes (insert nodeID (SetStatus s node))
             (with_RowLocks (fun l => {[ nodeID ]} ∪ l) db))).
Proof.
  intros Hs Hnode Hid Hst. unfold MarkNodeAsLocked. run_db.
  destruct s; try discriminate Hs; simpl; rewrite Hnode; simpl;
    rewrite Hst; simpl; rewrite Hid, Hnode; reflexivity.
Qed.

(** Locking keeps every row under its key. *)
Lemma MarkNodeAsLocked_keyed (db db' : Db) (nodeID : UUID)
    (s : TreeNodeStatus) (r : result unit) :
  keyed_by_id db ->
  MarkNodeAsLocked nodeID s (Some db) = (r, Some db') ->
  keyed_by_id db'.
Proof.
  intros Hwf Hrun.
  destruct (is_locked_status s) eqn:Hs.
  2:{ rewrite MarkNodeAsLocked_not_a_lock in Hrun by assumption.
      injection Hrun as _ <-. assumption. }
  destruct (TreeNodes db !! nodeID) as [node |] eqn:Hnode.
  2:{ rewrite MarkNodeAsLocked_missing in Hrun by assumption.
      injection Hrun as _ <-. assumption. }
  destruct (decide (Status node = TreeNodeStatusAvailable)) as [Hst | Hst].
  - rewrite (MarkNodeAsLocked_available db nodeID s node) in Hrun
      by (auto using Hwf).
    injection Hrun as _ <-. intros k tn. simpl.
    destruct (decide (nodeID = k)) as [-> | Hne].
    + rewrite lookup_insert_eq. intros [= <-]. simpl. auto using Hwf.
    + rewrite lookup_insert_ne by assumption. apply Hwf.
  - rewrite (MarkNodeAsLocked_unavailable db nodeID s node) in Hrun
      by assumption.
    injection Hrun as _ <-. exact Hwf.
Qed.
End ent_facts.

Module ent_claims.
Import ent ent_facts.

Definition sample_node (id : UUID) (s : TreeNodeStatus) : TreeNode :=
  {| ID := id; NodeTreeID := 1%N; Value := 100000; Status := s;
     VerifyingPubkey := [x02]; OwnerIdentityPubkey := [x03];
     OwnerSigningPubkey := [x04]; RawTx := [x01]; RawRefundTx := None;
     Vout := 0 |}.

Definition sample_db : Db :=
  {| Trees := {[ 1%N := {| TreeID := 1%N; TreeNetwork := Regtest |} ]};
     TreeNodes :=
       {[ 10%N := sample_node 10%N TreeNodeStatusAvailable;
          11%N := sample_node 11%N TreeNodeStatusTransferLocked ]};
     SigningNonces := [];
     Transfers := ∅;
     CooperativeExits := ∅;
     RowLocks := ∅ |}.

(** C3.  Asked to put a stored node into [split_locked] or
    [transfer_locked], [MarkNodeAsLocked] reads the row [FOR UPDATE], so
    the row joins the locks of the transaction; when the node's status is
    not [available] it returns an error and leaves every node row as it
    was; when it is [available] it succeeds and the only change is that
    row's status, now the requested locked status.  Asked for any other
    target status it returns an error before touching the database. *)
Theorem MarkNodeAsLocked_only_locks_available
    (db : Db) (nodeID : UUID) (nodeStatus : TreeNodeStatus)
    (node : TreeNode) :
  keyed_by_id db ->
  TreeNodes db !! nodeID = Some node ->
  (is_locked_status nodeStatus = true ->
   exists (r : result unit) (db' : Db),
     MarkNodeAsLocked nodeID nodeStatus (Some db) = (r, Some db') /\
     RowLocks db' = {[ nodeID ]} ∪ RowLocks db /\
     (Status node <> TreeNodeStatusAvailable ->
      is_ok r = false /\ TreeNodes db' = TreeNodes db) /\
     (Status node = TreeNodeStatusAvailable ->
      r = Ok tt /\
      TreeNodes db' = <[nodeID := SetStatus nodeStatus node]> (TreeNodes db) /\
      (exists node', TreeNodes db' !! nodeID = Some node' /\
                     Status node' = nodeStatus))) /\
  (is_locked_status nodeStatus = false ->
   exists e : error,
     MarkNodeAsLocked nodeID nodeStatus (Some db) = (Err e, Some db)).
Proof.
  intros Hwf Hnode. split.
  - intros Hs.
    destruct (decide (Status node = TreeNodeStatusAvailable)) as [Hst | Hst].
    + eexists _, _. split.
      * apply MarkNodeAsLocked_available; eauto.
      * simpl. split; [reflexivity |]. split; [contradiction |].
        intros _. split; [reflexivity |]. split; [reflexivity |].
        exists (SetStatus nodeStatus node).
        rewrite lookup_insert_eq. split; reflexivity.
    + eexists _, _. split.
      * apply MarkNodeAsLocked_unavailable; eauto.
      * simpl. split; [reflexivity |]. split; [| contradiction].
        intros _. split; reflexivity.
  - intros Hs. eexists. apply MarkNodeAsLocked_not_a_lock. assumption.
Qed.

Lemma sample_db_keyed : keyed_by_id sample_db.
Proof.
  intros k tn. unfold sample_db; simpl. intros H.
  apply lookup_insert_Some in H as [[<- <-] | [_ H]]; [reflexivity |].
  apply lookup_singleton_Some in H as [<- <-]. reflexivity.
Qed.

Lemma MarkNodeAsLocked_only_locks_available_witness :
  (exists db',
     MarkNodeAsLocked 10%N TreeNodeStatusTransferLocked (Some sample_db) =
       (Ok tt, Some db') /\
     TreeNodes db' !! 10%N =
       Some (sample_node 10%N TreeNodeStatusTransferLocked)) /\
  (exists r db',
     MarkNodeAsLocked 11%N TreeNodeStatusSplitLocked (Some sample_db) =
       (r, Some db') /\
     is_ok r = false /\ TreeNodes db' = TreeNodes sample_db).
Proof.
  split.
  - destruct (MarkNodeAsLocked_only_locks_available sample_db 10%N
                TreeNodeStatusTransferLocked
                (sample_node 10%N TreeNodeStatusAvailable)
                sample_db_keyed eq_refl) as [Hlock _].
    destruct (Hlock eq_refl) as (r & db' & Hrun & _ & _ & Hav).
    destruct (Hav eq_refl) as (-> & Hnodes & _).
    exists db'. split; [exact Hrun |].
    rewrite Hnodes, lookup_insert_eq. reflexivity.
  - destruct (MarkNodeAsLocked_only_locks_available sample_db 11%N
                TreeNodeStatusSplitLocked
                (sample_node 11%N TreeNodeStatusTransferLocked)
                sample_db_keyed eq_refl) as [Hlock _].
    destruct (Hlock eq_refl) as (r & db' & Hrun & _ & Hun & _).
    destruct (Hun ltac:(discriminate)) as [Herr Hnodes].
    exists r, db'. auto.
Defined.

Section NonceLookup.
Variable SigningCommitment : Type.
Variable MarshalBinary : SigningCommitment -> list byte.
Variable ObjectsSigningNonce : Type.
Variable UnmarshalBinary : list byte -> result ObjectsSigningNonce.

Local Abbreviation GetSigningNonceFromCommitment :=
  (ent.GetSigningNonceFromCommitment SigningCommitment MarshalBinary
     ObjectsSigningNonce UnmarshalBinary).
Local Abbreviation GetSigningNonces :=
  (ent.GetSigningNonces SigningCommitment MarshalBinary).

Ltac run_nonce :=
  unfold ent.GetSigningNonceFromCommitment, ent.GetSigningNonces,
         SigningNonce_Where_First, SigningNonce_WhereIn_All;
  run_db.

Lemma GetSigningNonceFromCommitment_keeps_db
    (c : SigningCommitment) (ctx : Context) :
  snd (GetSigningNonceFromCommitment c ctx) = ctx.
Proof using Type.
  run_nonce. destruct ctx as [db |]; simpl; [| reflexivity].
  destruct (List.find _ (SigningNonces db)); reflexivity.
Qed.

Lemma GetSigningNonces_keeps_db
    (cs : list SigningCommitment) (ctx : Context) :
  snd (GetSigningNonces cs ctx) = ctx.
Proof using Type.
  run_nonce. destruct ctx as [db |]; reflexivity.
Qed.

Lemma GetSigningNonceFromCommitment_found
    (c : SigningCommitment) (db : Db) (row : SigningNonce) :
  List.find
    (fun r => bool_decide (NonceCommitment r = MarshalBinary c))
    (SigningNonces db) = Some row ->
  GetSigningNonceFromCommitment c (Some db) =
    (UnmarshalBinary (Nonce row), Some db).
Proof using Type.
  intros Hfind. run_nonce. rewrite Hfind. reflexivity.
Qed.

Lemma GetSigningNonceFromCommitment_unknown
    (c : SigningCommitment) (db : Db) :
  (forall row, In row (SigningNonces db) ->
               NonceCommitment row <> MarshalBinary c) ->
  GetSigningNonceFromCommitment c (Some db) =
    (Err (ErrEntNotFound "signing_nonce"), Some db).
Proof using Type.
  intros Hnone. run_nonce.
  destruct (List.find _ (SigningNonces db)) as [row |] eqn:Hfind;
    [| reflexivity].
  apply List.find_some in Hfind as [Hin Heq].
  apply bool_decide_eq_true_1 in Heq. destruct (Hnone row Hin Heq).
Qed.
End NonceLookup.

Definition sample_commitment : list byte := List.repeat x02 66.
Definition sample_nonce : list byte := List.repeat x09 64.

(** A stand-in for [objects.SigningNonce.UnmarshalBinary]: the 64 bytes
    themselves; any other length is refused. *)
Definition sample_unmarshal (b : list byte) : result (list byte) :=
  if (List.length b =? 64)%nat then Ok b
  else Err (ErrExternal "invalid nonce length").

Definition sample_pool : Db :=
  {| Trees := ∅; TreeNodes := ∅;
     SigningNonces :=
       [{| Nonce := sample_nonce; NonceCommitment := sample_commitment |}];
     Transfers := ∅; CooperativeExits := ∅; RowLocks := ∅ |}.

Definition sample_consume : M (list byte) :=
  ent.GetSigningNonceFromCommitment (list byte) (fun c => c) (list byte)
    sample_unmarshal sample_commitment.



End ent_claims.

(** ** The transfer handler *)

Module transfer_facts.
Import ent ent_facts transfer.

Ltac run_tx :=
  unfold transaction, Transfer_Get, Transfer_SetStatus, close_transfer;
  run_db.

Lemma pending_status_spec (st : TransferStatus) :
  pending_status st = true <->
  st = TransferStatusSenderKeyTweaked \/
  st = TransferStatusReceiverKeyTweaked.
Proof.
  unfold pending_status. rewrite orb_true_iff, !bool_decide_eq_true.
  reflexivity.
Qed.

Lemma transaction_fail {A} (e : error) (ctx : Context) :
  transaction (fail e : M A) ctx = (Err e, ctx).
Proof. reflexivity. Qed.

(** The time lock read from a refund transaction is its sequence modulo
    [2^16]. *)
Lemma GetRefundTxTimeLock_range
    (TxFromRawTxBytes : list byte -> result wire.MsgTx)
    (tn : TreeNode) (timelock : Z) :
  GetRefundTxTimeLock TxFromRawTxBytes tn = Ok (Some timelock) ->
  0 <= timelock < 2 ^ 16.
Proof.
  unfold GetRefundTxTimeLock.
  destruct (RawRefundTx tn) as [raw |]; [| discriminate].
  destruct (TxFromRawTxBytes raw) as [tx | e]; [| discriminate].
  destruct (wire.TxIns tx) as [| txIn ins]; [discriminate |].
  intros [= <-]. change 0xFFFF with (Z.ones 16).
  rewrite Z.land_ones by lia. apply Z.mod_pos_bound. lia.
Qed.

Section Sequence.
Variable TimeLockInterval : Z.
Hypothesis interval_positive : 0 < TimeLockInterval.

Lemma nextSequence_Ok (old new : Z) :
  nextSequence TimeLockInterval old = Ok new ->
  new = old - TimeLockInterval /\ new < old /\ 0 <= new.
Proof using interval_positive.
  unfold nextSequence.
  destruct (Z.ltb_spec old TimeLockInterval); [discriminate |].
  intros [= <-]. lia.
Qed.

Lemma nextSequence_refused (old : Z) :
  old < TimeLockInterval ->
  nextSequence TimeLockInterval old =
    Err (ErrStatus FailedPrecondition
           "time lock too low, refresh the leaf first").
Proof using Type.
  intros Hlt. unfold nextSequence.
  destruct (Z.ltb_spec old TimeLockInterval); [reflexivity | lia].
Qed.

(** Along the chain of successors every sequence is its predecessor's
    minus the step. *)
Lemma refundChain_steps (fuel : nat) :
  forall (s : Z) (i : nat) (a b : Z),
    (s :: refundChain TimeLockInterval fuel s) !! i = Some a ->
    refundChain TimeLockInterval fuel s !! i = Some b ->
    b = a - TimeLockInterval /\ b < a.
Proof using interval_positive.
  induction fuel as [| fuel IH]; intros s i a b Ha Hb; simpl in *.
  - discriminate Hb.
  - destruct (nextSequence TimeLockInterval s) as [next |] eqn:Hnext;
      [| discriminate Hb].
    destruct i as [| i]; simpl in *.
    + injection Ha as <-. injection Hb as <-.
      apply nextSequence_Ok in Hnext. lia.
    + eapply IH; eassumption.
Qed.
End Sequence.
End transfer_facts.

(** ** The SDK's cooperative exit service *)

Module CoopExitService_facts.
Import ent handler transfer transfer_facts.

Section Service.
Variable TimeLockInterval : Z.
Variable getTxFromRawTxBytes :
  list byte -> result CoopExitService.Transaction.
Variable toBytes : CoopExitService.Transaction -> result (list byte).
Variable validInput : CoopExitService.TransactionInput -> bool.
Variable validOutput : CoopExitService.TransactionOutput -> bool.
Variable getP2TRScriptFromPublicKey : list byte -> Network -> result (list byte).
Variable KeyDerivation : Type.
Variable getNetwork : Network.
Variable getRandomSigningCommitment : nat -> result SigningCommitment.
Variable getPublicKeyFromDerivation : KeyDerivation -> result (list byte).

Local Abbreviation LeafKeyTweak := (CoopExitService.LeafKeyTweak KeyDerivation).
Local Abbreviation createConnectorRefundTransaction :=
  (CoopExitService.createConnectorRefundTransaction validInput validOutput
     getP2TRScriptFromPublicKey getNetwork).
Local Abbreviation refundSigningJob :=
  (CoopExitService.refundSigningJob TimeLockInterval getTxFromRawTxBytes
     toBytes validInput validOutput getP2TRScriptFromPublicKey KeyDerivation
     getNetwork getRandomSigningCommitment getPublicKeyFromDerivation).
Local Abbreviation collectSigningJobs :=
  (CoopExitService.collectSigningJobs TimeLockInterval getTxFromRawTxBytes
     toBytes validInput validOutput getP2TRScriptFromPublicKey KeyDerivation
     getNetwork getRandomSigningCommitment getPublicKeyFromDerivation).
Local Abbreviation refundSigningJobs :=
  (CoopExitService.refundSigningJobs TimeLockInterval getTxFromRawTxBytes
     toBytes validInput validOutput getP2TRScriptFromPublicKey KeyDerivation
     getNetwork getRandomSigningCommitment getPublicKeyFromDerivation).

(** The refund transaction of a leaf spends the outpoint of the current
    one under the next sequence, and then the connector output. *)
Definition successorInputs (currentInput connector : CoopExitService.TransactionInput)
    (nextSequence : Z) : list CoopExitService.TransactionInput :=
  [ {| CoopExitService.txid := CoopExitService.txid currentInput;
       CoopExitService.index := CoopExitService.index currentInput;
       CoopExitService.sequence := Some nextSequence |};
    connector ].

Ltac result_bind :=
  unfold mbind, CoopExitService.result_bind.

Lemma createConnectorRefundTransaction_inputs
    (sequence : Z) (nodeOutPoint connectorOutput : CoopExitService.TransactionInput)
    (amountSats : Z) (receiverPubKey : list byte)
    (refundTx : CoopExitService.Transaction) :
  createConnectorRefundTransaction sequence nodeOutPoint connectorOutput
    amountSats receiverPubKey = Ok refundTx ->
  CoopExitService.inputs refundTx =
    successorInputs nodeOutPoint connectorOutput sequence.
Proof using Type.
  unfold CoopExitService.createConnectorRefundTransaction, successorInputs.
  destruct (CoopExitService.txid nodeOutPoint) as [nodeTxid |];
    [| discriminate].
  destruct (CoopExitService.index nodeOutPoint) as [nodeIndex |];
    [| discriminate].
  result_bind. unfold CoopExitService.addInput, CoopExitService.addOutput.
  destruct (validInput _); [| discriminate].
  destruct (validInput connectorOutput); [| discriminate].
  destruct (getP2TRScriptFromPublicKey _ _) as [receiverScript |];
    [| discriminate].
  destruct (validOutput _); [| discriminate].
  intros [= <-]. reflexivity.
Qed.

(** What a round of the loop has done when it succeeds. *)
Definition carries_next (leafTweak : LeafKeyTweak)
    (connector : CoopExitService.TransactionInput)
    (job : LeafRefundTxSigningJob) : Prop :=
  exists current currentInput old refund refundTx,
    getTxFromRawTxBytes
      (CoopExitService.refundTx (CoopExitService.leaf _ leafTweak)) =
      Ok current /\
    CoopExitService.getInput current 0 = Ok currentInput /\
    CoopExitService.sequence currentInput = Some old /\
    nextSequence TimeLockInterval old = Ok (old - TimeLockInterval) /\
    LeafId job = CoopExitService.id (CoopExitService.leaf _ leafTweak) /\
    RefundTxSigningJob job = Some refund /\
    toBytes refundTx = Ok (JobRawTx refund) /\
    CoopExitService.inputs refundTx =
      successorInputs currentInput connector (old - TimeLockInterval).

Lemma refundSigningJob_Ok (leaves : list LeafKeyTweak)
    (connectorOutputs : list CoopExitService.TransactionInput)
    (receiverPubKey : list byte) (i : nat) (job : LeafRefundTxSigningJob)
    (data : CoopExitService.LeafRefundSigningData KeyDerivation) :
  refundSigningJob leaves connectorOutputs receiverPubKey i = Ok (job, data) ->
  exists leafTweak connector,
    leaves !! i = Some leafTweak /\
    connectorOutputs !! i = Some connector /\
    carries_next leafTweak connector job.
Proof using Type.
  unfold CoopExitService.refundSigningJob.
  destruct (leaves !! i) as [leafTweak |]; [| discriminate].
  destruct (connectorOutputs !! i) as [connector |]; [| discriminate].
  result_bind.
  destruct (getTxFromRawTxBytes (CoopExitService.refundTx _))
    as [current |] eqn:Hcurrent; [| discriminate].
  destruct (CoopExitService.getInput current 0) as [currentInput |] eqn:Hinput;
    [| discriminate].
  unfold CoopExitService.getNextTransactionSequence.
  destruct (CoopExitService.sequence currentInput) as [old |] eqn:Hold;
    [| discriminate].
  destruct (nextSequence TimeLockInterval old) as [next |] eqn:Hnext;
    [| discriminate].
  destruct (createConnectorRefundTransaction next currentInput connector _ _)
    as [refundTx |] eqn:Hrefund; [| discriminate].
  destruct (getRandomSigningCommitment i) as [commitment |]; [| discriminate].
  destruct (getPublicKeyFromDerivation _) as [publicKey |]; [| discriminate].
  destruct (toBytes refundTx) as [rawTx |] eqn:Hraw; [| discriminate].
  destruct (getTxFromRawTxBytes (CoopExitService.nodeTx _)) as [tx |];
    [| discriminate].
  intros [= <- <-]. exists leafTweak, connector.
  split; [reflexivity |]. split; [reflexivity |].
  assert (Hstep : next = old - TimeLockInterval).
  { unfold nextSequence in Hnext.
    destruct (old <? TimeLockInterval); [discriminate |].
    now injection Hnext as <-. }
  subst next.
  eexists current, currentInput, old, _, refundTx.
  split_and!; try done.
  now apply createConnectorRefundTransaction_inputs in Hrefund.
Qed.

(** A leaf whose current refund transaction has a sequence below the step
    stops its round of the loop. *)
Lemma refundSigningJob_refused (leaves : list LeafKeyTweak)
    (connectorOutputs : list CoopExitService.TransactionInput)
    (receiverPubKey : list byte) (i : nat) (leafTweak : LeafKeyTweak)
    (connector current currentInput : _) (old : Z) :
  leaves !! i = Some leafTweak ->
  connectorOutputs !! i = Some connector ->
  getTxFromRawTxBytes
    (CoopExitService.refundTx (CoopExitService.leaf _ leafTweak)) =
    Ok current ->
  CoopExitService.getInput current 0 = Ok currentInput ->
  CoopExitService.sequence currentInput = Some old ->
  old < TimeLockInterval ->
  refundSigningJob leaves connectorOutputs receiverPubKey i =
    Err (ErrStatus FailedPrecondition
           "time lock too low, refresh the leaf first").
Proof using Type.
  intros Hleaf Hconnector Hcurrent Hinput Hold Hlow.
  unfold CoopExitService.refundSigningJob.
  rewrite Hleaf, Hconnector. result_bind. rewrite Hcurrent, Hinput.
  unfold CoopExitService.getNextTransactionSequence. rewrite Hold.
  now rewrite nextSequence_refused.
Qed.

Lemma collectSigningJobs_Ok (leaves : list LeafKeyTweak)
    (connectorOutputs : list CoopExitService.TransactionInput)
    (receiverPubKey : list byte) (positions : list nat) :
  forall signingJobs leafDataMap jobs dataMap,
    collectSigningJobs leaves connectorOutputs receiverPubKey positions
      signingJobs leafDataMap = Ok (jobs, dataMap) ->
    exists new,
      jobs = signingJobs ++ new /\
      Forall2
        (fun i job =>
           exists data,
             refundSigningJob leaves connectorOutputs receiverPubKey i =
               Ok (job, data))
        positions new.
Proof using Type.
  induction positions as [| i positions IH];
    intros signingJobs leafDataMap jobs dataMap;
    cbn [CoopExitService.collectSigningJobs].
  - intros [= <- <-]. exists []. rewrite app_nil_r. auto.
  - destruct (refundSigningJob leaves connectorOutputs receiverPubKey i)
      as [[job data] | e] eqn:Hjob; [| discriminate].
    intros Hrest. apply IH in Hrest as (new & -> & Hnew).
    exists (job :: new). rewrite <- app_assoc. split; [reflexivity |].
    constructor; eauto.
Qed.

(** The loop fails with the error of the first round that fails. *)
Lemma collectSigningJobs_Err (leaves : list LeafKeyTweak)
    (connectorOutputs : list CoopExitService.TransactionInput)
    (receiverPubKey : list byte) (e : error) (i : nat)
    (before after : list nat) :
  Forall
    (fun j =>
       is_ok (refundSigningJob leaves connectorOutputs receiverPubKey j) =
         true) before ->
  refundSigningJob leaves connectorOutputs receiverPubKey i = Err e ->
  forall signingJobs leafDataMap,
    collectSigningJobs leaves connectorOutputs receiverPubKey
      (before ++ i :: after) signingJobs leafDataMap = Err e.
Proof using Type.
  intros Hbefore Hi.
  induction Hbefore as [| j before Hj _ IH]; intros signingJobs leafDataMap;
    cbn [app CoopExitService.collectSigningJobs].
  - now rewrite Hi.
  - destruct (refundSigningJob leaves connectorOutputs receiverPubKey j)
      as [[job data] | e']; [apply IH | discriminate Hj].
Qed.

(** The loop fails as soon as one round fails. *)
Lemma collectSigningJobs_fails (leaves : list LeafKeyTweak)
    (connectorOutputs : list CoopExitService.TransactionInput)
    (receiverPubKey : list byte) (i : nat) (positions : list nat) :
  In i positions ->
  is_ok (refundSigningJob leaves connectorOutputs receiverPubKey i) = false ->
  forall signingJobs leafDataMap,
    is_ok (collectSigningJobs leaves connectorOutputs receiverPubKey positions
             signingJobs leafDataMap) = false.
Proof using Type.
  intros Hin Hi.
  induction positions as [| j positions IH]; intros signingJobs leafDataMap;
    [contradiction |].
  cbn [CoopExitService.collectSigningJobs].
  destruct (refundSigningJob leaves connectorOutputs receiverPubKey j)
    as [[job data] | e] eqn:Hj; [| reflexivity].
  destruct Hin as [-> | Hin]; [rewrite Hj in Hi; discriminate Hi |].
  now apply IH.
Qed.

Lemma refundSigningJobs_Ok (leaves : list LeafKeyTweak)
    (connectorOutputs : list CoopExitService.TransactionInput)
    (receiverPubKey : list byte) (jobs : list LeafRefundTxSigningJob)
    (dataMap : gmap string (CoopExitService.LeafRefundSigningData KeyDerivation)) :
  refundSigningJobs leaves connectorOutputs receiverPubKey =
    Ok (jobs, dataMap) ->
  List.length jobs = List.length leaves /\
  forall i leafTweak,
    leaves !! i = Some leafTweak ->
    exists connector job,
      connectorOutputs !! i = Some connector /\
      jobs !! i = Some job /\
      carries_next leafTweak connector job.
Proof using Type.
  unfold CoopExitService.refundSigningJobs.
  destruct (negb _); [discriminate |].
  intros Hrun. apply collectSigningJobs_Ok in Hrun as (new & -> & Hnew).
  simpl. split.
  - apply Forall2_length in Hnew. rewrite <- Hnew. apply List.length_seq.
  - intros i leafTweak Hleaf.
    assert (Hi : (i < List.length leaves)%nat)
      by (eapply lookup_lt_Some; eassumption).
    assert (Hpos : List.seq 0 (List.length leaves) !! i = Some i)
      by (apply (lookup_seq_lt 0); exact Hi).
    destruct (Forall2_lookup_l _ _ _ _ _ Hnew Hpos)
      as (job & Hjob & data & Hround).
    apply refundSigningJob_Ok in Hround
      as (leafTweak' & connector & Hleaf' & Hconnector & Hcarries).
    rewrite Hleaf in Hleaf'. injection Hleaf' as <-.
    exists connector, job. auto.
Qed.
End Service.
End CoopExitService_facts.

Module transfer_claims.
Import ent ent_facts ent_claims transfer transfer_facts.

(** C5.  [InitiateTransfer] with an empty list of leaves is refused with
    [InvalidArgument]; the database is left as it was, so no transfer is
    created. *)
Theorem InitiateTransfer_rejects_empty
    (now : Z) (req : InitiateTransferRequest) (ctx : Context) :
  leaves req = [] ->
  InitiateTransfer now req ctx =
    (Err (ErrStatus InvalidArgument "no leaves to send"), ctx) /\
  status_code (ErrStatus InvalidArgument "no leaves to send") =
    InvalidArgument.
Proof.
  intros Hempty. split; [| reflexivity].
  unfold InitiateTransfer. rewrite Hempty. simpl.
  apply transaction_fail.
Qed.

Definition sample_request (ls : list UUID) : InitiateTransferRequest :=
  {| transfer_id := 77%N; type := TransferTypeTransfer; expiry := 600;
     sender := [x03]; receiver := [x05]; leaves := ls |}.

Lemma InitiateTransfer_rejects_empty_witness :
  InitiateTransfer 0 (sample_request []) (Some sample_db) =
    (Err (ErrStatus InvalidArgument "no leaves to send"), Some sample_db).
Proof.
  exact (proj1 (InitiateTransfer_rejects_empty 0 (sample_request [])
                  (Some sample_db) eq_refl)).
Defined.

(** With one available leaf of the sender the same request goes through:
    the leaf is locked and the transfer is recorded. *)
Example InitiateTransfer_one_leaf :
  exists t db',
    InitiateTransfer 0 (sample_request [10%N]) (Some sample_db) =
      (Ok t, Some db') /\
    TransferStatus_ t = TransferStatusSenderInitiated /\
    Transfers db' !! 77%N = Some t /\
    Status <$> TreeNodes db' !! 10%N = Some TreeNodeStatusTransferLocked.
Proof.
  eexists _, _. split; [vm_compute; reflexivity |].
  split; [reflexivity |]. split; vm_compute; reflexivity.
Qed.

(** A leaf that is already locked fails the whole transfer. *)
Example InitiateTransfer_locked_leaf :
  InitiateTransfer 0 (sample_request [10%N; 11%N]) (Some sample_db) =
    (Err (ErrStatus FailedPrecondition "leaf not available"),
     Some sample_db).
Proof. vm_compute. reflexivity. Qed.

(** A stand-in for [common.TxFromRawTxBytes] on two-byte inputs: the bytes
    are the low 16 bits of the sequence of the only input, little endian,
    under the flag bit 30. *)
Definition sample_parse (raw : list byte) : result wire.MsgTx :=
  match raw with
  | [lo; hi] =>
      Ok (wire.AddTxIn (wire.NewMsgTx 3)
            {| wire.PreviousOutPoint :=
                 {| wire.Hash := List.repeat xab 32; wire.Index := 0 |};
               wire.SignatureScript := []; wire.Witness := [];
               wire.Sequence :=
                 Z.lor (Z.shiftl 1 30)
                   (Z.of_N (Byte.to_N hi) * 256 + Z.of_N (Byte.to_N lo)) |})
  | _ => Err (ErrExternal "malformed transaction")
  end.

Definition sample_leaf : TreeNode :=
  {| ID := 10%N; NodeTreeID := 1%N; Value := 100000;
     Status := TreeNodeStatusAvailable; VerifyingPubkey := [x02];
     OwnerIdentityPubkey := [x03]; OwnerSigningPubkey := [x04];
     RawTx := [x01]; RawRefundTx := Some [xd0; x07]; Vout := 0 |}.


Definition sample_transfer (id : UUID) (ty : TransferType)
    (st : TransferStatus) (tweaked : bool) : Transfer :=
  {| TransferID := id; Type_ := ty; SenderIdentityPubkey := [x03];
     ReceiverIdentityPubkey := [x05]; ExpiryTime := 600;
     TransferStatus_ := st; LeavesToSend := [10%N];
     SenderTweaked := tweaked |}.

(** The sample database with one transfer of leaf 10 in flight. *)
Definition sample_db_with (t : Transfer) (exits : gmap UUID CooperativeExit)
    : Db :=
  {| Trees := Trees sample_db;
     TreeNodes :=
       <[10%N := sample_node 10%N TreeNodeStatusTransferLocked]>
         (TreeNodes sample_db);
     SigningNonces := [];
     Transfers := {[ TransferID t := t ]};
     CooperativeExits := exits;
     RowLocks := ∅ |}.

Definition sample_pending : Transfer :=
  sample_transfer 77%N TransferTypeTransfer TransferStatusSenderKeyTweaked
    true.

Example QueryPendingTransfers_regtest :
  QueryPendingTransfers [x05] Regtest (Some (sample_db_with sample_pending ∅))
  = (Ok {[ 77%N := sample_pending ]}, Some (sample_db_with sample_pending ∅)).
Proof. vm_compute. reflexivity. Qed.



(** Reverting a list of leaves keeps every stored row, hands the listed
    ones back to the owner as available, and leaves the others alone. *)
Lemma revert_leaves_lookup (owner : list byte) (ls : list UUID)
    (nodes : gmap UUID TreeNode) (k : UUID) (tn : TreeNode) :
  nodes !! k = Some tn ->
  exists tn',
    revert_leaves owner ls nodes !! k = Some tn' /\
    ID tn' = ID tn /\ Value tn' = Value tn /\
    (k ∈ ls ->
     Status tn' = TreeNodeStatusAvailable /\
     OwnerIdentityPubkey tn' = owner) /\
    (k ∉ ls -> tn' = tn).
Proof.
  intros Hk. induction ls as [| l ls IH]; simpl.
  - exists tn. split_and!; try done.
    intros Hin. by apply not_elem_of_nil in Hin.
  - destruct IH as (tn1 & Hlook & Hid & Hval & Hin & Hout).
    destruct (decide (l = k)) as [-> | Hne].
    + exists (revert_leaf owner tn1).
      rewrite lookup_alter_eq, Hlook. simpl. split_and!; try done.
      intros Hnot. exfalso. apply Hnot. left.
    + exists tn1. rewrite lookup_alter_ne by assumption.
      split_and!; try done.
      * intros Hk'. apply elem_of_cons in Hk' as [-> | Hk'];
          [congruence | now apply Hin].
      * intros Hnot. apply Hout. intros Hk'. apply Hnot. now right.
Qed.

(** The states from [SENDER_KEY_TWEAKED] onwards. *)
Definition reached_sender_key_tweaked (st : TransferStatus) : bool :=
  bool_decide (st = TransferStatusSenderKeyTweaked) ||
  bool_decide (st = TransferStatusReceiverKeyTweaked) ||
  bool_decide (st = TransferStatusCompleted).

(** C4.  For a stored transfer, [CancelTransfer] succeeds while the status
    is [SENDER_INITIATED] or [SENDER_KEY_TWEAK_PENDING] and the sender has
    not supplied the key tweak: the transfer becomes [CANCELLED] and each
    of its stored leaves is available again under the sender.  Once the
    status has reached [SENDER_KEY_TWEAKED] it is refused with
    [FailedPrecondition] and nothing changes, also after the expiry time
    has passed and expiry has been processed. *)
Theorem CancelTransfer_only_before_tweak
    (db : Db) (id : UUID) (t : Transfer) :
  Transfers db !! id = Some t ->
  TransferID t = id ->
  ((TransferStatus_ t = TransferStatusSenderInitiated \/
    TransferStatus_ t = TransferStatusSenderKeyTweakPending) ->
   SenderTweaked t = false ->
   exists db',
     CancelTransfer id (Some db) =
       (Ok (SetTransferStatus TransferStatusCancelled t), Some db') /\
     Transfers db' !! id =
       Some (SetTransferStatus TransferStatusCancelled t) /\
     (forall leaf tn,
        leaf ∈ LeavesToSend t ->
        TreeNodes db !! leaf = Some tn ->
        exists tn',
          TreeNodes db' !! leaf = Some tn' /\
          Status tn' = TreeNodeStatusAvailable /\
          OwnerIdentityPubkey tn' = SenderIdentityPubkey t)) /\
  (reached_sender_key_tweaked (TransferStatus_ t) = true ->
   (exists msg,
      CancelTransfer id (Some db) =
        (Err (ErrStatus FailedPrecondition msg), Some db)) /\
   (forall now,
      ExpiryTime t < now ->
      exists db1 msg,
        ExpireTransfer now id (Some db) = (Ok tt, Some db1) /\
        Transfers db1 = Transfers db /\
        TreeNodes db1 = TreeNodes db /\
        CancelTransfer id (Some db1) =
          (Err (ErrStatus FailedPrecondition msg), Some db1))).
Proof.
  intros Hget Hid. split.
  - intros Hst Hnot.
    assert (Hc : cancellable t = true).
    { unfold cancellable. rewrite Hnot.
      destruct Hst as [-> | ->]; reflexivity. }
    unfold CancelTransfer. run_tx. rewrite Hget. simpl. rewrite Hc. simpl.
    eexists. split; [reflexivity |]. simpl. rewrite Hid. split.
    + apply lookup_insert_eq.
    + intros leaf tn Hin Htn.
      destruct (revert_leaves_lookup (SenderIdentityPubkey t)
                  (LeavesToSend t) (TreeNodes db) leaf tn Htn)
        as (tn' & Hlook & _ & _ & Hrev & _).
      exists tn'. split; [exact Hlook |]. now apply Hrev.
  - intros Hreached.
    assert (Hc : cancellable t = false).
    { unfold cancellable. unfold reached_sender_key_tweaked in Hreached.
      destruct (TransferStatus_ t); try discriminate Hreached;
        reflexivity. }
    split.
    + unfold CancelTransfer. run_tx. rewrite Hget. simpl. rewrite Hc.
      simpl. eexists. reflexivity.
    + intros now Hexp. unfold ExpireTransfer, CancelTransfer. run_tx.
      rewrite Hget. simpl. rewrite Hc, andb_false_r. simpl.
      eexists _, _. split; [reflexivity |]. simpl.
      split; [reflexivity |]. split; [reflexivity |].
      rewrite Hget. simpl. rewrite Hc. simpl. reflexivity.
Qed.

Lemma CancelTransfer_only_before_tweak_witness :
  (exists db',
     CancelTransfer 77%N
       (Some (sample_db_with
                (sample_transfer 77%N TransferTypeTransfer
                   TransferStatusSenderInitiated false) ∅)) =
       (Ok (sample_transfer 77%N TransferTypeTransfer
              TransferStatusCancelled false), Some db')) /\
  (exists msg,
     CancelTransfer 77%N (Some (sample_db_with sample_pending ∅)) =
       (Err (ErrStatus FailedPrecondition msg),
        Some (sample_db_with sample_pending ∅))).
Proof.
  split.
  - destruct (CancelTransfer_only_before_tweak
                (sample_db_with
                   (sample_transfer 77%N TransferTypeTransfer
                      TransferStatusSenderInitiated false) ∅)
                77%N _ eq_refl eq_refl) as [Hcancel _].
    destruct (Hcancel (or_introl eq_refl) eq_refl) as (db' & Hrun & _).
    exists db'. exact Hrun.
  - destruct (CancelTransfer_only_before_tweak
                (sample_db_with sample_pending ∅) 77%N _ eq_refl eq_refl)
      as [_ Hrefuse].
    exact (proj1 (Hrefuse eq_refl)).
Defined.

(** A cancelled transfer gives the leaf back: it is available under the
    sender and can be sent again. *)
Example CancelTransfer_then_send_again :
  exists t db1 t2 db2,
    CancelTransfer 77%N
      (Some (sample_db_with
               (sample_transfer 77%N TransferTypeTransfer
                  TransferStatusSenderInitiated false) ∅)) =
      (Ok t, Some db1) /\
    TreeNodes db1 !! 10%N = Some (sample_node 10%N TreeNodeStatusAvailable) /\
    InitiateTransfer 0
      {| transfer_id := 78%N; type := TransferTypeTransfer; expiry := 600;
         sender := [x03]; receiver := [x05]; leaves := [10%N] |}
      (Some db1) = (Ok t2, Some db2).
Proof.
  eexists _, _, _, _. split; [vm_compute; reflexivity |].
  split; vm_compute; reflexivity.
Qed.

(** The row that [cooperativeExit] writes for a transfer is the one the
    claim gate finds, and it carries no confirmation height yet. *)
Lemma exit_of_transfer_after_create
    (db : Db) (exitUUID : UUID) (t : Transfer) (txid : list byte) :
  CooperativeExits db !! exitUUID = None ->
  (forall k e, CooperativeExits db !! k = Some e ->
               ExitTransfer e <> TransferID t) ->
  exists row db',
    handler.CooperativeExit_Create exitUUID t txid (Some db) =
      (Ok row, Some db') /\
    exit_of_transfer db' (TransferID t) = Some row /\
    ConfirmationHeight row = None /\
    Transfers db' = Transfers db /\ TreeNodes db' = TreeNodes db.
Proof.
  intros Hfresh Hother.
  unfold handler.CooperativeExit_Create. run_db. rewrite Hfresh.
  eexists _, _. split; [reflexivity |].
  split; [| split; [reflexivity | split; reflexivity]].
  unfold exit_of_transfer. simpl.
  set (row := {| ExitID := exitUUID; ExitTransfer := TransferID t;
                 ExitTxid := txid; ConfirmationHeight := None |}).
  destruct (List.find _ (map_to_list (<[exitUUID := row]>
                                        (CooperativeExits db))))
    as [[k e] |] eqn:Hfind; simpl.
  - apply List.find_some in Hfind as [Hin Hp].
    apply list_elem_of_In, elem_of_map_to_list in Hin.
    apply bool_decide_eq_true_1 in Hp. simpl in Hp.
    apply lookup_insert_Some in Hin as [[_ <-] | [_ Hold]];
      [reflexivity |].
    destruct (Hother k e Hold Hp).
  - exfalso.
    assert (Hin : In (exitUUID, row)
                    (map_to_list (<[exitUUID := row]>
                                    (CooperativeExits db)))).
    { apply list_elem_of_In, elem_of_map_to_list, lookup_insert_eq. }
    pose proof (List.find_none _ _ Hfind _ Hin) as Hp. simpl in Hp.
    apply bool_decide_eq_false_1 in Hp. apply Hp. reflexivity.
Qed.

(** C1.  For a cooperative-exit transfer with its exit row recorded,
    [ClaimTransferTweakKeys] is refused with [FailedPrecondition]
    ("insufficient confirmations"), changing nothing, whenever the exit
    transaction has fewer confirmations than
    [CoopExitConfirmationThreshold]; with at least that many and the
    transfer in [SENDER_KEY_TWEAKED] the claim succeeds and moves the
    transfer to [RECEIVER_KEY_TWEAKED].  The row written by
    [cooperativeExit] has no confirmation height, so with a positive
    threshold a claim right after it is refused at every chain tip. *)
Theorem claim_gated_on_confirmations
    (CoopExitConfirmationThreshold : Z)
    (db : Db) (id : UUID) (t : Transfer) (exit : CooperativeExit)
    (tip : Z) :
  Transfers db !! id = Some t ->
  TransferID t = id ->
  Type_ t = TransferTypeCooperativeExit ->
  exit_of_transfer db id = Some exit ->
  (confirmations tip exit < CoopExitConfirmationThreshold ->
   ClaimTransferTweakKeys CoopExitConfirmationThreshold tip id (Some db) =
     (Err (ErrStatus FailedPrecondition "insufficient confirmations"),
      Some db)) /\
  (CoopExitConfirmationThreshold <= confirmations tip exit ->
   TransferStatus_ t = TransferStatusSenderKeyTweaked ->
   exists db',
     ClaimTransferTweakKeys CoopExitConfirmationThreshold tip id (Some db) =
       (Ok tt, Some db') /\
     Transfers db' !! id =
       Some (SetTransferStatus TransferStatusReceiverKeyTweaked t) /\
     TreeNodes db' = TreeNodes db) /\
  (ConfirmationHeight exit = None ->
   0 < CoopExitConfirmationThreshold ->
   confirmations tip exit < CoopExitConfirmationThreshold).
Proof.
  intros Hget Hid Hty Hexit. split; [| split].
  - intros Hlow. unfold ClaimTransferTweakKeys, checkCoopExitConfirmed.
    run_tx. rewrite Hget. simpl. rewrite Hty. simpl.
    rewrite Hid, Hexit.
    destruct (Z.ltb_spec (confirmations tip exit)
                CoopExitConfirmationThreshold); [reflexivity | lia].
  - intros Hhigh Hst. unfold ClaimTransferTweakKeys, checkCoopExitConfirmed.
    run_tx. rewrite Hget. simpl. rewrite Hty. simpl.
    rewrite Hid, Hexit.
    destruct (Z.ltb_spec (confirmations tip exit)
                CoopExitConfirmationThreshold); [lia |].
    simpl. rewrite Hst. simpl.
    eexists. split; [reflexivity |]. simpl. split; [| reflexivity].
    rewrite lookup_alter_eq, Hget. reflexivity.
  - intros Hnone Hpos. unfold confirmations. rewrite Hnone. exact Hpos.
Qed.

Definition sample_exit (height : option Z) : CooperativeExit :=
  {| ExitID := 90%N; ExitTransfer := 77%N; ExitTxid := List.repeat xee 32;
     ConfirmationHeight := height |}.

Definition sample_coop_exit : Transfer :=
  sample_transfer 77%N TransferTypeCooperativeExit
    TransferStatusSenderKeyTweaked true.

Definition sample_exit_db (height : option Z) : Db :=
  sample_db_with sample_coop_exit {[ 90%N := sample_exit height ]}.

(** Threshold six, exit confirmed at height 100: at tip 102 there are
    three confirmations and the claim is refused; at tip 105 there are six
    and it goes through. *)
Lemma claim_gated_on_confirmations_witness :
  ClaimTransferTweakKeys 6 102 77%N (Some (sample_exit_db (Some 100))) =
    (Err (ErrStatus FailedPrecondition "insufficient confirmations"),
     Some (sample_exit_db (Some 100))) /\
  (exists db',
     ClaimTransferTweakKeys 6 105 77%N (Some (sample_exit_db (Some 100))) =
       (Ok tt, Some db')).
Proof.
  split.
  - refine (proj1 (claim_gated_on_confirmations 6
                     (sample_exit_db (Some 100)) 77%N sample_coop_exit
                     (sample_exit (Some 100)) 102
                     eq_refl eq_refl eq_refl eq_refl) _).
    vm_compute. reflexivity.
  - destruct (claim_gated_on_confirmations 6
                (sample_exit_db (Some 100)) 77%N sample_coop_exit
                (sample_exit (Some 100)) 105
                eq_refl eq_refl eq_refl eq_refl) as (_ & Hok & _).
    destruct Hok as (db' & Hrun & _);
      [vm_compute; discriminate | reflexivity |].
    exists db'. exact Hrun.
Defined.

(** *** A cooperative exit, end to end *)

(** Stand-ins for what [cooperativeExit] calls outside the sources at hand:
    the session owns the key, the transfer is created by [InitiateTransfer]
    over leaf 10, ids are decimal, and marshalling, signing and the fan-out
    to the other operators succeed without touching the database. *)
Definition sample_uuid_Parse (str : string) : result UUID :=
  if String.eqb str "77" then Ok 77%N
  else if String.eqb str "90" then Ok 90%N
  else Err (ErrExternal "invalid UUID").

Definition sample_createTransfer (transferId : string) (ty : TransferType)
    (expiryTime : Z) (senderKey receiverKey : list byte)
    (maps : handler.RefundMaps) (requireDirectTx : bool)
    : M (Transfer * unit) :=
  id ← lift (sample_uuid_Parse transferId);
  t ← InitiateTransfer 0
        {| transfer_id := id; type := ty; expiry := expiryTime;
           sender := senderKey; receiver := receiverKey; leaves := [10%N] |};
  mret (t, tt).

Definition sample_cooperativeExit
    : handler.CooperativeExitRequest -> bool -> M (Transfer * unit) :=
  handler.cooperativeExit (fun _ => mret tt) unit Transfer unit
    sample_createTransfer sample_uuid_Parse (fun t => mret t)
    (fun _ _ => mret tt) (fun _ => mret tt).

Definition sample_exit_request : handler.CooperativeExitRequest :=
  {| handler.RequestTransfer :=
       {| handler.TransferId := "77";
          handler.OwnerIdentityPublicKey := [x03];
          handler.ReceiverIdentityPublicKey := [x05];
          handler.RequestExpiryTime := 600;
          handler.LeavesToSend :=
            [{| handler.LeafId := "10";
                handler.RefundTxSigningJob :=
                  Some {| handler.SigningPublicKey := [x04];
                          handler.JobRawTx := [x6c; x07];
                          handler.SigningNonceCommitment := None |};
                handler.DirectRefundTxSigningJob := None;
                handler.DirectFromCpfpRefundTxSigningJob := None |}] |};
     handler.RequestExitId := "90";
     handler.RequestExitTxid := List.repeat xee 32 |}.

(** The exit is recorded without a confirmation height, and a claim that
    follows is refused for lack of confirmations, wherever the chain tip
    is; the version that insists on direct refund transactions refuses this
    request before anything is written. *)
Example cooperativeExit_then_claim_refused :
  exists t db',
    sample_cooperativeExit sample_exit_request false (Some sample_db) =
      (Ok (t, tt), Some db') /\
    TransferStatus_ t = TransferStatusSenderInitiated /\
    CooperativeExits db' !! 90%N = Some (sample_exit None) /\
    ClaimTransferTweakKeys 6 1000 77%N (Some db') =
      (Err (ErrStatus FailedPrecondition "insufficient confirmations"),
       Some db') /\
    fst (sample_cooperativeExit sample_exit_request true (Some sample_db)) =
      Err (ErrMsg "DirectRefundTxSigningJob and DirectFromCpfpRefundTxSigningJob are required. Please upgrade to the latest SDK version").
Proof.
  eexists _, _. split; [vm_compute; reflexivity |].
  split; [reflexivity |]. split; [vm_compute; reflexivity |].
  split; vm_compute; reflexivity.
Qed.

(** *** Refund sequences *)

Section Sequence.
Variable TimeLockInterval : Z.
Variable getTxFromRawTxBytes :
  list byte -> result CoopExitService.Transaction.
Variable toBytes : CoopExitService.Transaction -> result (list byte).
Variable validInput : CoopExitService.TransactionInput -> bool.
Variable validOutput : CoopExitService.TransactionOutput -> bool.
Variable getP2TRScriptFromPublicKey : list byte -> Network -> result (list byte).
Variable KeyDerivation : Type.
Variable getNetwork : Network.
Variable getRandomSigningCommitment : nat -> result handler.SigningCommitment.
Variable getPublicKeyFromDerivation : KeyDerivation -> result (list byte).
Variable getIdentityPublicKey : result (list byte).
Variable uuidv7 : nat -> string.
Variable Date_now : Z.
Variable SparkClient TransferProto SigningResult : Type.
Variable createSparkClient : result SparkClient.
Variable cooperative_exit :
  SparkClient -> handler.CooperativeExitRequest ->
  M (CoopExitService.CooperativeExitResponse TransferProto SigningResult).
Variable signRefunds :
  gmap string (CoopExitService.LeafRefundSigningData KeyDerivation) ->
  list SigningResult -> result (list CoopExitService.NodeSignatures).

Local Abbreviation refundSigningJob :=
  (CoopExitService.refundSigningJob TimeLockInterval getTxFromRawTxBytes
     toBytes validInput validOutput getP2TRScriptFromPublicKey KeyDerivation
     getNetwork getRandomSigningCommitment getPublicKeyFromDerivation).
Local Abbreviation refundSigningJobs :=
  (CoopExitService.refundSigningJobs TimeLockInterval getTxFromRawTxBytes
     toBytes validInput validOutput getP2TRScriptFromPublicKey KeyDerivation
     getNetwork getRandomSigningCommitment getPublicKeyFromDerivation).
Local Abbreviation signCoopExitRefunds :=
  (CoopExitService.signCoopExitRefunds TimeLockInterval getTxFromRawTxBytes
     toBytes validInput validOutput getP2TRScriptFromPublicKey KeyDerivation
     getNetwork getRandomSigningCommitment getPublicKeyFromDerivation
     getIdentityPublicKey uuidv7 Date_now SparkClient TransferProto
     SigningResult createSparkClient cooperative_exit signRefunds).

End Sequence.

(** Stand-ins for the bitcoin library and the signer: a transaction is two
    bytes, the sequence of its only input, little endian; every input and
    output is accepted. *)
Definition sample_getTx (raw : list byte)
    : result CoopExitService.Transaction :=
  match raw with
  | [lo; hi] =>
      Ok {| CoopExitService.inputs :=
              [ {| CoopExitService.txid := Some (List.repeat xab 32);
                   CoopExitService.index := Some 0;
                   CoopExitService.sequence :=
                     Some (Z.of_N (Byte.to_N hi) * 256 +
                           Z.of_N (Byte.to_N lo)) |} ];
            CoopExitService.outputs := [] |}
  | _ => Err (ErrExternal "malformed transaction")
  end.

Definition sample_byte (z : Z) : byte :=
  match Byte.of_N (Z.to_N (z mod 256)) with
  | Some b => b
  | None => x00
  end.

Definition sample_toBytes (tx : CoopExitService.Transaction)
    : result (list byte) :=
  match CoopExitService.inputs tx with
  | {| CoopExitService.sequence := Some s |} :: _ =>
      Ok [sample_byte s; sample_byte (s / 256)]
  | _ => Err (ErrExternal "cannot serialise")
  end.

Definition sample_tweak (refundTx : list byte)
    : CoopExitService.LeafKeyTweak unit :=
  {| CoopExitService.leaf :=
       {| CoopExitService.id := "10"; CoopExitService.value := 100000;
          CoopExitService.nodeTx := [x01; x00];
          CoopExitService.refundTx := refundTx; CoopExitService.vout := 0 |};
     CoopExitService.keyDerivation := tt |}.

Definition sample_connector : CoopExitService.TransactionInput :=
  {| CoopExitService.txid := Some (List.repeat xcd 32);
     CoopExitService.index := Some 1;
     CoopExitService.sequence := None |}.

(** The coordinator at the other end of the connection runs the handler. *)
Definition sample_rpc (client : unit) (req : handler.CooperativeExitRequest)
    : M (CoopExitService.CooperativeExitResponse Transfer unit) :=
  created ← sample_cooperativeExit req false;
  mret {| CoopExitService.transfer := Some (fst created);
          CoopExitService.signingResults := [] |}.

Definition sample_signCoopExitRefunds
    : list (CoopExitService.LeafKeyTweak unit) -> list byte ->
      list CoopExitService.TransactionInput -> list byte ->
      M (Transfer * gmap string (list byte)) :=
  CoopExitService.signCoopExitRefunds 100 sample_getTx sample_toBytes
    (fun _ => true) (fun _ => true) (fun key _ => Ok key) unit Regtest
    (fun _ => Ok {| handler.Hiding := [x01]; handler.Binding := [x02] |})
    (fun _ => Ok [x04]) (Ok [x03])
    (fun n => match n with O => "77"%string | _ => "90"%string end) 0
    unit Transfer unit (Ok tt) sample_rpc (fun _ _ => Ok []).

End transfer_claims.


(** * Further properties of the code *)

(** ** wallet/transaction.go: shape and value of the built transactions *)

Module wallet_more.
Import wire wallet wallet_facts.

(** The sum of the output values of a transaction. *)
Definition outputTotal (tx : MsgTx) : Z :=
  fold_right Z.add 0 (List.map Value (TxOuts tx)).

(** X1.  Whatever the fee and the child outputs, the split transaction has
    version 3, lock time 0 and a single input, which spends the parent
    outpoint with the final sequence number; it has one output per child, in
    the order given and with the child's script: fee distribution changes
    amounts only. *)
Theorem createSplitTx_structure
    (DefaultFeeSats : Z) (parentOutPoint : OutPoint)
    (childTxOuts : list TxOut) :
  let tx := createSplitTx DefaultFeeSats parentOutPoint childTxOuts in
  Version tx = 3 /\
  LockTime tx = 0 /\
  TxIns tx = [{| PreviousOutPoint := parentOutPoint; SignatureScript := [];
                 Witness := []; Sequence := 0xffffffff |}] /\
  List.length (TxOuts tx) = List.length childTxOuts /\
  List.map PkScript (TxOuts tx) = List.map PkScript childTxOuts.
Proof.
  intros tx. subst tx.
  destruct (Z_le_gt_dec (totalOutputAmount childTxOuts) DefaultFeeSats)
    as [Hle | Hgt].
  - rewrite createSplitTx_passthrough by assumption. simpl.
    repeat (split; [reflexivity |]). reflexivity.
  - rewrite createSplitTx_scaled by lia. simpl.
    repeat (split; [reflexivity |]).
    rewrite List.length_map, List.map_map. simpl. split; reflexivity.
Qed.

(** X2.  The fee makes the output amount drop at the threshold: with a
    positive fee, an amount strictly between the fee and twice the fee
    leaves less than an amount of exactly the fee does, and the amount just
    above the fee leaves a single satoshi. *)
Theorem maybeApplyFee_drops_above_fee (DefaultFeeSats amount : Z) :
  0 < DefaultFeeSats ->
  Int64.in_range amount ->
  DefaultFeeSats < amount < 2 * DefaultFeeSats ->
  maybeApplyFee DefaultFeeSats amount <
    maybeApplyFee DefaultFeeSats DefaultFeeSats /\
  (amount = DefaultFeeSats + 1 -> maybeApplyFee DefaultFeeSats amount = 1).
Proof.
  intros Hfee Hr Hbetween.
  rewrite (maybeApplyFee_keeps DefaultFeeSats DefaultFeeSats) by lia.
  rewrite (maybeApplyFee_subtracts DefaultFeeSats) by (assumption || lia).
  split; lia.
Qed.

Lemma maybeApplyFee_drops_above_fee_witness :
  maybeApplyFee 955 956 < maybeApplyFee 955 955 /\
  maybeApplyFee 955 956 = 1.
Proof.
  assert (Hr : Int64.in_range 956).
  { unfold Int64.in_range, Int64.min_signed, Int64.max_signed. lia. }
  destruct (maybeApplyFee_drops_above_fee 955 956 ltac:(lia) Hr ltac:(lia))
    as [Hlt Hone].
  split; [exact Hlt | apply Hone; reflexivity].
Defined.

(** X3.  The refund transactions conserve the leaf's value up to the fee:
    the outputs of the CPFP refund add up to exactly the leaf amount (the
    anchor carries nothing), those of the connector refund too, and the
    direct refund pays out the leaf amount less at most [DefaultFeeSats],
    never more than the leaf amount. *)
Theorem refund_outputs_conserve_value
    (DefaultFeeSats : Z) (PublicKey : Type)
    (P2TRScriptFromPubKey : PublicKey -> result (list byte))
    (sequence : Z) (nodeOutPoint connectorOutput : OutPoint)
    (amountSats : Z) (pk : PublicKey) (shouldCalculateFee : bool) :
  0 <= DefaultFeeSats ->
  Int64.in_range amountSats ->
  (forall cpfp direct,
     createRefundTxs DefaultFeeSats PublicKey P2TRScriptFromPubKey sequence
       nodeOutPoint amountSats pk shouldCalculateFee = Ok (cpfp, direct) ->
     outputTotal cpfp = amountSats /\
     amountSats - DefaultFeeSats <= outputTotal direct <= amountSats /\
     (shouldCalculateFee = false -> outputTotal direct = amountSats)) /\
  (forall refund,
     createConnectorRefundTransaction PublicKey P2TRScriptFromPubKey sequence
       nodeOutPoint connectorOutput amountSats pk = Ok refund ->
     outputTotal refund = amountSats /\
     List.map PreviousOutPoint (TxIns refund) =
       [nodeOutPoint; connectorOutput] /\
     List.map Sequence (TxIns refund) = [sequence; 0xffffffff]).
Proof.
  intros Hfee Hr. split.
  - intros cpfp direct. unfold createRefundTxs.
    destruct (P2TRScriptFromPubKey pk) as [script | e]; [| discriminate].
    intros [= <- <-]. unfold outputTotal. simpl.
    split; [lia |]. destruct shouldCalculateFee; simpl.
    + rewrite (maybeApplyFee_cases DefaultFeeSats Hfee amountSats Hr).
      destruct (Z.gtb_spec amountSats DefaultFeeSats);
        (split; [lia | discriminate]).
    + split; [lia | intros _; lia].
  - intros refund. unfold createConnectorRefundTransaction.
    destruct (P2TRScriptFromPubKey pk) as [script | e]; [| discriminate].
    intros [= <-]. unfold outputTotal. simpl.
    split; [lia |]. split; reflexivity.
Qed.

Lemma refund_outputs_conserve_value_witness :
  exists cpfp direct,
    createRefundTxs 955 (list byte) wallet_claims.sample_p2tr 2000
      wallet_claims.sample_outpoint 100000 wallet_claims.sample_key true =
      Ok (cpfp, direct) /\
    outputTotal cpfp = 100000 /\
    99045 <= outputTotal direct <= 100000.
Proof.
  assert (Hr : Int64.in_range 100000).
  { unfold Int64.in_range, Int64.min_signed, Int64.max_signed. lia. }
  destruct (refund_outputs_conserve_value 955 (list byte)
              wallet_claims.sample_p2tr 2000 wallet_claims.sample_outpoint
              wallet_claims.sample_outpoint 100000 wallet_claims.sample_key
              true ltac:(lia) Hr) as [Hrefund _].
  eexists _, _. split; [reflexivity |].
  destruct (Hrefund _ _ eq_refl) as (Hcpfp & Hdirect & _).
  split; [exact Hcpfp | exact Hdirect].
Defined.
End wallet_more.

(** ** so/ent/signingnonce_extension.go: the batch lookup *)

Module nonce_more.
Import ent ent_facts.

Section Lookup.
Variable SigningCommitment : Type.
Variable MarshalBinary : SigningCommitment -> list byte.
Variable ObjectsSigningNonce : Type.
Variable UnmarshalBinary : list byte -> result ObjectsSigningNonce.

(** A marshalled commitment is 66 bytes long: two compressed points. *)
Hypothesis marshal_length :
  forall c, List.length (MarshalBinary c) = 66%nat.

Local Abbreviation GetSigningNonceFromCommitment :=
  (ent.GetSigningNonceFromCommitment SigningCommitment MarshalBinary
     ObjectsSigningNonce UnmarshalBinary).
Local Abbreviation GetSigningNonces :=
  (ent.GetSigningNonces SigningCommitment MarshalBinary).

(** The stored rows with a given commitment, in store order. *)
Definition rows_with (key : list byte) (rows : list SigningNonce)
    : list SigningNonce :=
  List.filter (fun row => bool_decide (NonceCommitment row = key)) rows.

Lemma array66_exact (b : list byte) :
  List.length b = 66%nat -> array66 b = Ok b.
Proof using Type.
  intros Hlen. unfold array66. rewrite Hlen. simpl.
  rewrite take_ge by (rewrite <- Hlen; reflexivity). reflexivity.
Qed.

Lemma collectNonces_lookup (rows : list SigningNonce) :
  Forall (fun row => List.length (NonceCommitment row) = 66%nat) rows ->
  forall acc : gmap (list byte) SigningNonce,
  exists res,
    collectNonces rows acc = Ok res /\
    forall key,
      res !! key =
      match last (rows_with key rows) with
      | Some row => Some row
      | None => acc !! key
      end.
Proof using Type.
  induction 1 as [| row rows Hlen _ IH]; intros acc; simpl.
  - exists acc. split; [reflexivity |]. intros key. reflexivity.
  - rewrite (array66_exact _ Hlen).
    destruct (IH (<[NonceCommitment row := row]> acc)) as (res & Hrun & Hres).
    exists res. split; [exact Hrun |]. intros key. rewrite Hres.
    unfold rows_with. simpl. case_bool_decide as Heq.
    + rewrite last_cons.
      destruct (last (List.filter _ rows)); [reflexivity |].
      rewrite Heq. apply lookup_insert_eq.
    + destruct (last (List.filter _ rows)); [reflexivity |].
      apply lookup_insert_ne. exact Heq.
Qed.

Lemma requested_rows_length (cs : list SigningCommitment)
    (rows : list SigningNonce) :
  Forall (fun row => List.length (NonceCommitment row) = 66%nat)
    (List.filter
       (fun row =>
          bool_decide (NonceCommitment row ∈ List.map MarshalBinary cs))
       rows).
Proof using marshal_length.
  apply Forall_forall. intros row Hin.
  apply list_elem_of_In, List.filter_In in Hin as [_ Hreq].
  apply bool_decide_eq_true_1, list_elem_of_In, List.in_map_iff in Hreq
    as (c & <- & _).
  apply marshal_length.
Qed.

Lemma rows_with_requested (key : list byte) (requested : list (list byte))
    (rows : list SigningNonce) :
  rows_with key
    (List.filter (fun row => bool_decide (NonceCommitment row ∈ requested))
       rows) =
  if bool_decide (key ∈ requested) then rows_with key rows else [].
Proof using Type.
  unfold rows_with. induction rows as [| row rows IH]; cbn [List.filter].
  - case_bool_decide; reflexivity.
  - destruct (decide (NonceCommitment row ∈ requested)) as [Hin | Hnin].
    + rewrite (bool_decide_eq_true_2 _ Hin). cbn [List.filter]. rewrite IH.
      destruct (decide (NonceCommitment row = key)) as [Heq | Hne].
      * rewrite (bool_decide_eq_true_2 _ Heq). subst key.
        rewrite (bool_decide_eq_true_2 _ Hin). reflexivity.
      * rewrite (bool_decide_eq_false_2 _ Hne). reflexivity.
    + rewrite (bool_decide_eq_false_2 _ Hnin). rewrite IH.
      destruct (decide (NonceCommitment row = key)) as [Heq | Hne].
      * subst key. rewrite (bool_decide_eq_false_2 _ Hnin). reflexivity.
      * rewrite (bool_decide_eq_false_2 _ Hne). reflexivity.
Qed.

Lemma GetSigningNonces_lookup
    (db : Db) (commitments : list SigningCommitment) :
  exists res,
    GetSigningNonces commitments (Some db) = (Ok res, Some db) /\
    forall key,
      res !! key =
      if bool_decide (key ∈ List.map MarshalBinary commitments)
      then last (rows_with key (SigningNonces db))
      else None.
Proof using marshal_length.
  unfold ent.GetSigningNonces, SigningNonce_WhereIn_All. run_db.
  destruct (collectNonces_lookup _
              (requested_rows_length commitments (SigningNonces db)) ∅)
    as (res & Hrun & Hres).
  exists res. rewrite Hrun. split; [reflexivity |].
  intros key. rewrite Hres, rows_with_requested, lookup_empty.
  case_bool_decide; [| reflexivity].
  destruct (last (rows_with key (SigningNonces db))); reflexivity.
Qed.

(** X4.  With 66-byte marshalled commitments, [GetSigningNonces] on a
    context with a database never fails and leaves the database alone; its
    result maps a key to the last stored row with that commitment when the
    commitment was asked for, and has no entry for any other key: every
    entry is a stored row, filed under its own commitment, that was asked
    for.  A commitment that is not stored is simply absent from the result,
    and asking for nothing gives the empty result. *)
Theorem GetSigningNonces_last_requested_row
    (db : Db) (commitments : list SigningCommitment) :
  exists res,
    GetSigningNonces commitments (Some db) = (Ok res, Some db) /\
    (forall key,
       res !! key =
       if bool_decide (key ∈ List.map MarshalBinary commitments)
       then last (rows_with key (SigningNonces db))
       else None) /\
    (forall key row,
       res !! key = Some row ->
       In row (SigningNonces db) /\ NonceCommitment row = key /\
       key ∈ List.map MarshalBinary commitments) /\
    (commitments = [] -> res = ∅).
Proof using marshal_length.
  destruct (GetSigningNonces_lookup db commitments) as (res & Hrun & Hres).
  exists res. split; [exact Hrun |]. split; [exact Hres |]. split.
  - intros key row Hrow. rewrite Hres in Hrow.
    case_bool_decide as Hreq; [| discriminate Hrow].
    apply last_Some in Hrow as [pre Hpre].
    assert (Hin : In row (rows_with key (SigningNonces db))).
    { rewrite Hpre. apply List.in_or_app. right. left. reflexivity. }
    apply List.filter_In in Hin as [Hin Hkey].
    apply bool_decide_eq_true_1 in Hkey. auto.
  - intros ->. apply map_eq. intros key. rewrite Hres, lookup_empty.
    case_bool_decide as Hreq; [| reflexivity].
    simpl in Hreq. by apply not_elem_of_nil in Hreq.
Qed.

(** X5.  The two lookups agree when the stored commitments are pairwise
    distinct: the batch lookup of a single commitment has the row whose nonce
    the single lookup decodes.  For a commitment that is not stored they
    differ: the single lookup is a not-found error, the batch lookup
    succeeds with an empty result. *)
Theorem nonce_lookups_agree (db : Db) (c : SigningCommitment) :
  NoDup (List.map NonceCommitment (SigningNonces db)) ->
  exists res,
    GetSigningNonces [c] (Some db) = (Ok res, Some db) /\
    match res !! MarshalBinary c with
    | Some row =>
        GetSigningNonceFromCommitment c (Some db) =
          (UnmarshalBinary (Nonce row), Some db) /\
        In row (SigningNonces db)
    | None =>
        res = ∅ /\
        GetSigningNonceFromCommitment c (Some db) =
          (Err (ErrEntNotFound "signing_nonce"), Some db)
    end.
Proof using marshal_length.
  intros Hnodup.
  destruct (GetSigningNonces_lookup db [c]) as (res & Hrun & Hres).
  exists res. split; [exact Hrun |].
  assert (Hkey : res !! MarshalBinary c =
                 last (rows_with (MarshalBinary c) (SigningNonces db))).
  { rewrite Hres. simpl. rewrite bool_decide_eq_true_2 by set_solver.
    reflexivity. }
  assert (Hfirst : forall rows,
             NoDup (List.map NonceCommitment rows) ->
             last (rows_with (MarshalBinary c) rows) =
             List.find
               (fun r => bool_decide (NonceCommitment r = MarshalBinary c))
               rows).
  { clear. induction rows as [| row rows IH]; intros Hnd; [reflexivity |].
    simpl in Hnd. apply NoDup_cons in Hnd as [Hnotin Hnd].
    unfold rows_with in *. simpl. case_bool_decide as Heq.
    - rewrite last_cons.
      destruct (last (List.filter _ rows)) as [other |] eqn:Hlast;
        [| reflexivity].
      exfalso. apply last_Some in Hlast as [pre Hpre].
      assert (Hin : In other (List.filter
                (fun r => bool_decide (NonceCommitment r = MarshalBinary c))
                rows)).
      { rewrite Hpre. apply List.in_or_app. right. left. reflexivity. }
      apply List.filter_In in Hin as [Hin Hc].
      apply bool_decide_eq_true_1 in Hc. apply Hnotin.
      rewrite Heq, <- Hc. apply list_elem_of_In, List.in_map, Hin.
    - apply IH, Hnd. }
  rewrite Hkey, (Hfirst _ Hnodup).
  destruct (List.find _ (SigningNonces db)) as [row |] eqn:Hfind.
  - split.
    + now apply ent_claims.GetSigningNonceFromCommitment_found.
    + now apply List.find_some in Hfind as [Hin _].
  - split.
    + apply map_eq. intros key. rewrite Hres, lookup_empty. simpl.
      case_bool_decide as Hreq; [| reflexivity].
      apply list_elem_of_singleton in Hreq as ->.
      rewrite (Hfirst _ Hnodup). exact Hfind.
    + apply ent_claims.GetSigningNonceFromCommitment_unknown.
      intros row Hin Heq.
      pose proof (List.find_none _ _ Hfind row Hin) as Hno. simpl in Hno.
      apply bool_decide_eq_false_1 in Hno. exact (Hno Heq).
Qed.
End Lookup.

(** A stand-in for [objects.SigningCommitment]: one byte, marshalled as 66
    copies of itself. *)
Definition sample_marshal (seed : byte) : list byte := List.repeat seed 66.

Lemma sample_marshal_length (seed : byte) :
  List.length (sample_marshal seed) = 66%nat.
Proof. apply List.repeat_length. Qed.

Definition sample_row (seed nonce : byte) : SigningNonce :=
  {| Nonce := List.repeat nonce 64; NonceCommitment := sample_marshal seed |}.

(** Two rows share the commitment of seed 2; one row has that of seed 3. *)
Definition sample_table (rows : list SigningNonce) : Db :=
  {| Trees := ∅; TreeNodes := ∅; SigningNonces := rows; Transfers := ∅;
     CooperativeExits := ∅; RowLocks := ∅ |}.

Lemma GetSigningNonces_last_requested_row_witness :
  exists res,
    ent.GetSigningNonces byte sample_marshal [x02; x05]
      (Some (sample_table [sample_row x02 x0a; sample_row x03 x0b;
                           sample_row x02 x0c])) =
      (Ok res,
       Some (sample_table [sample_row x02 x0a; sample_row x03 x0b;
                           sample_row x02 x0c])) /\
    res !! sample_marshal x02 = Some (sample_row x02 x0c) /\
    res !! sample_marshal x03 = None /\
    res !! sample_marshal x05 = None.
Proof.
  destruct (GetSigningNonces_last_requested_row byte sample_marshal
              sample_marshal_length
              (sample_table [sample_row x02 x0a; sample_row x03 x0b;
                             sample_row x02 x0c]) [x02; x05])
    as (res & Hrun & Hres & _).
  exists res. split; [exact Hrun |].
  rewrite !Hres. split; [| split]; vm_compute; reflexivity.
Defined.

Definition sample_distinct : Db :=
  sample_table [sample_row x02 x0a; sample_row x03 x0b].

Lemma nonce_lookups_agree_witness :
  exists res,
    ent.GetSigningNonces byte sample_marshal [x03] (Some sample_distinct) =
      (Ok res, Some sample_distinct) /\
    match res !! sample_marshal x03 with
    | Some row =>
        ent.GetSigningNonceFromCommitment byte sample_marshal (list byte)
          ent_claims.sample_unmarshal x03 (Some sample_distinct) =
          (ent_claims.sample_unmarshal (Nonce row), Some sample_distinct) /\
        In row (SigningNonces sample_distinct)
    | None =>
        res = ∅ /\
        ent.GetSigningNonceFromCommitment byte sample_marshal (list byte)
          ent_claims.sample_unmarshal x03 (Some sample_distinct) =
          (Err (ErrEntNotFound "signing_nonce"), Some sample_distinct)
    end.
Proof.
  apply (nonce_lookups_agree byte sample_marshal (list byte)
           ent_claims.sample_unmarshal sample_marshal_length
           sample_distinct x03).
  simpl. apply NoDup_cons. split.
  - intros Hin. apply list_elem_of_singleton in Hin. discriminate Hin.
  - apply NoDup_singleton.
Defined.
End nonce_more.

(** ** so/ent/treenode_extension.go: locking and the refund time lock *)

Module treenode_more.
Import ent ent_facts.

(** What a run of [MarkNodeAsLocked] on a database amounts to. *)
Lemma MarkNodeAsLocked_cases (db : Db) (nodeID : UUID) (s : TreeNodeStatus) :
  keyed_by_id db ->
  (exists e, MarkNodeAsLocked nodeID s (Some db) = (Err e, Some db)) \/
  (exists e node,
     TreeNodes db !! nodeID = Some node /\
     Status node <> TreeNodeStatusAvailable /\
     MarkNodeAsLocked nodeID s (Some db) =
       (Err e, Some (with_RowLocks (fun l => {[ nodeID ]} ∪ l) db))) \/
  (exists node,
     is_locked_status s = true /\
     TreeNodes db !! nodeID = Some node /\
     Status node = TreeNodeStatusAvailable /\
     MarkNodeAsLocked nodeID s (Some db) =
       (Ok tt,
        Some (with_TreeNodes (insert nodeID (SetStatus s node))
                (with_RowLocks (fun l => {[ nodeID ]} ∪ l) db)))).
Proof.
  intros Hwf.
  destruct (is_locked_status s) eqn:Hs.
  2:{ left. eexists. now apply MarkNodeAsLocked_not_a_lock. }
  destruct (TreeNodes db !! nodeID) as [node |] eqn:Hnode.
  2:{ left. eexists. now apply MarkNodeAsLocked_missing. }
  destruct (decide (Status node = TreeNodeStatusAvailable)) as [Hst | Hst].
  - right. right. exists node.
    split; [reflexivity |]. split; [reflexivity |]. split; [exact Hst |].
    exact (MarkNodeAsLocked_available db nodeID s node Hs Hnode
             (Hwf _ _ Hnode) Hst).
  - right. left. eexists _, node.
    split; [reflexivity |]. split; [exact Hst |].
    exact (MarkNodeAsLocked_unavailable db nodeID s node Hs Hnode Hst).
Qed.

(** X6.  A node cannot be locked twice: once [MarkNodeAsLocked] has
    succeeded on a node, a further call on the same node, for whatever
    target status, returns an error and leaves every node row as it is. *)
Theorem MarkNodeAsLocked_twice_refused
    (db db1 : Db) (nodeID : UUID) (first second : TreeNodeStatus) :
  keyed_by_id db ->
  MarkNodeAsLocked nodeID first (Some db) = (Ok tt, Some db1) ->
  exists e db2,
    MarkNodeAsLocked nodeID second (Some db1) = (Err e, Some db2) /\
    TreeNodes db2 = TreeNodes db1.
Proof.
  intros Hwf Hfirst.
  destruct (MarkNodeAsLocked_cases db nodeID first Hwf)
    as [[e He] | [(e & node & _ & _ & He) | (node & Hs & Hnode & Hst & Hrun)]];
    try (rewrite He in Hfirst; discriminate Hfirst).
  rewrite Hrun in Hfirst. injection Hfirst as <-.
  assert (Hwf1 : keyed_by_id
                   (with_TreeNodes (insert nodeID (SetStatus first node))
                      (with_RowLocks (fun l => {[ nodeID ]} ∪ l) db))).
  { eapply MarkNodeAsLocked_keyed; eassumption. }
  destruct (MarkNodeAsLocked_cases _ nodeID second Hwf1)
    as [[e He] | [(e & node1 & _ & _ & He) | (node1 & _ & Hn1 & Hst1 & _)]].
  - eexists _, _. split; [exact He | reflexivity].
  - eexists _, _. split; [exact He | reflexivity].
  - exfalso. simpl in Hn1. rewrite lookup_insert_eq in Hn1.
    injection Hn1 as <-. simpl in Hst1. subst first. discriminate Hs.
Qed.

Lemma MarkNodeAsLocked_twice_refused_witness :
  exists db1 e db2,
    MarkNodeAsLocked 10%N TreeNodeStatusTransferLocked
      (Some ent_claims.sample_db) = (Ok tt, Some db1) /\
    MarkNodeAsLocked 10%N TreeNodeStatusSplitLocked (Some db1) =
      (Err e, Some db2) /\
    TreeNodes db2 = TreeNodes db1.
Proof.
  eexists. 
  assert (Hrun : MarkNodeAsLocked 10%N TreeNodeStatusTransferLocked
                   (Some ent_claims.sample_db) =
                 (Ok tt, Some _)) by (vm_compute; reflexivity).
  destruct (MarkNodeAsLocked_twice_refused ent_claims.sample_db _ 10%N
              TreeNodeStatusTransferLocked TreeNodeStatusSplitLocked
              ent_claims.sample_db_keyed Hrun) as (e & db2 & Hsecond & Hsame).
  exists e, db2. split; [exact Hrun |]. split; assumption.
Defined.

(** X7.  [MarkNodeAsLocked] writes to the row of the one node only: trees,
    transfers, cooperative exits and signing nonces are as before, every
    node row other than the one addressed is as before, no node row is added
    or removed, the row locks held only grow, and after an error no node row
    has changed at all. *)
Theorem MarkNodeAsLocked_frame
    (db db' : Db) (nodeID : UUID) (s : TreeNodeStatus) (r : result unit) :
  keyed_by_id db ->
  MarkNodeAsLocked nodeID s (Some db) = (r, Some db') ->
  Trees db' = Trees db /\
  SigningNonces db' = SigningNonces db /\
  Transfers db' = Transfers db /\
  CooperativeExits db' = CooperativeExits db /\
  RowLocks db ⊆ RowLocks db' /\
  (forall k, k <> nodeID -> TreeNodes db' !! k = TreeNodes db !! k) /\
  dom (TreeNodes db') = dom (TreeNodes db) /\
  (is_ok r = false -> TreeNodes db' = TreeNodes db).
Proof.
  intros Hwf Hrun.
  destruct (MarkNodeAsLocked_cases db nodeID s Hwf)
    as [[e He] | [(e & node & Hnode & _ & He) |
                  (node & _ & Hnode & _ & He)]];
    rewrite He in Hrun; injection Hrun as <- <-; simpl.
  - split_and!; done.
  - split_and!; try done. set_solver.
  - split_and!; try done.
    + set_solver.
    + intros k Hk. now apply lookup_insert_ne.
    + rewrite dom_insert_L. apply subseteq_union_1_L, singleton_subseteq_l.
      eapply elem_of_dom_2, Hnode.
Qed.

Lemma MarkNodeAsLocked_frame_witness :
  exists db',
    MarkNodeAsLocked 10%N TreeNodeStatusTransferLocked
      (Some ent_claims.sample_db) = (Ok tt, Some db') /\
    TreeNodes db' !! 11%N = TreeNodes ent_claims.sample_db !! 11%N /\
    Transfers db' = Transfers ent_claims.sample_db.
Proof.
  eexists.
  assert (Hrun : MarkNodeAsLocked 10%N TreeNodeStatusTransferLocked
                   (Some ent_claims.sample_db) =
                 (Ok tt, Some _)) by (vm_compute; reflexivity).
  destruct (MarkNodeAsLocked_frame ent_claims.sample_db _ 10%N
              TreeNodeStatusTransferLocked (Ok tt)
              ent_claims.sample_db_keyed Hrun)
    as (_ & _ & Htransfers & _ & _ & Hother & _).
  split; [exact Hrun |]. split; [apply Hother; discriminate | exact Htransfers].
Defined.

Section TimeLock.
Variable TxFromRawTxBytes : list byte -> result wire.MsgTx.

(** X8.  [GetRefundTxTimeLock] returns no time lock for a node without a
    refund transaction, hands on the parser's error, and otherwise returns
    the sequence of the first input modulo [2^16]: the bits from 16 upwards
    (the type and disable flags, the marker bit 30) never reach the result,
    which always lies between 0 and 65535. *)
Theorem GetRefundTxTimeLock_low_bits (tn : TreeNode) :
  (RawRefundTx tn = None ->
   GetRefundTxTimeLock TxFromRawTxBytes tn = Ok None) /\
  (forall raw e,
     RawRefundTx tn = Some raw -> TxFromRawTxBytes raw = Err e ->
     GetRefundTxTimeLock TxFromRawTxBytes tn = Err e) /\
  (forall raw tx txIn rest,
     RawRefundTx tn = Some raw -> TxFromRawTxBytes raw = Ok tx ->
     wire.TxIns tx = txIn :: rest ->
     GetRefundTxTimeLock TxFromRawTxBytes tn =
       Ok (Some (wire.Sequence txIn mod 2 ^ 16)) /\
     forall high low,
       0 <= low < 2 ^ 16 ->
       wire.Sequence txIn = high * 2 ^ 16 + low ->
       GetRefundTxTimeLock TxFromRawTxBytes tn = Ok (Some low)).
Proof using Type.
  unfold GetRefundTxTimeLock. split; [| split].
  - intros ->. reflexivity.
  - intros raw e -> ->. reflexivity.
  - intros raw tx txIn rest -> -> ->.
    change 0xFFFF with (Z.ones 16). rewrite Z.land_ones by lia.
    split; [reflexivity |].
    intros high low Hlow ->.
    rewrite Z.add_comm, Z.mod_add by lia. rewrite Z.mod_small by lia.
    reflexivity.
Qed.
End TimeLock.

Lemma GetRefundTxTimeLock_low_bits_witness :
  GetRefundTxTimeLock transfer_claims.sample_parse
    transfer_claims.sample_leaf = Ok (Some 2000).
Proof.
  destruct (GetRefundTxTimeLock_low_bits transfer_claims.sample_parse
              transfer_claims.sample_leaf) as (_ & _ & Hread).
  destruct (Hread [xd0; x07] _ _ [] eq_refl eq_refl eq_refl) as [_ Hlow].
  apply (Hlow 16384 2000); [lia | reflexivity].
Defined.
End treenode_more.

(** ** so/handler/coop_exit_handler.go: the request checks and their order *)

Module handler_more.
Import ent ent_facts handler transfer_claims.

Definition hasRefundJob (job : LeafRefundTxSigningJob) : bool :=
  match RefundTxSigningJob job with
  | Some _ => true
  | None => false
  end.

Definition hasDirectJobs (job : LeafRefundTxSigningJob) : bool :=
  match DirectRefundTxSigningJob job, DirectFromCpfpRefundTxSigningJob job with
  | Some _, Some _ => true
  | _, _ => false
  end.

Definition leafIds (jobs : list LeafRefundTxSigningJob) : gset string :=
  list_to_set (List.map LeafId jobs).

Definition directRequired : error :=
  ErrMsg "DirectRefundTxSigningJob and DirectFromCpfpRefundTxSigningJob are required. Please upgrade to the latest SDK version".

(** A leaf the first loop gets past: its refund job is there, and so are
    both direct jobs when they are required. *)
Definition passes (requireDirectTx : bool) (job : LeafRefundTxSigningJob)
    : bool :=
  hasRefundJob job && (hasDirectJobs job || negb requireDirectTx).

(** How the loop ends at a leaf it does not get past: the refund job is read
    first. *)
Definition refusal (job : LeafRefundTxSigningJob) : error :=
  if hasRefundJob job then directRequired else nilDereference.

(** What the loop records about its progress. *)
Definition maps_cover (acc maps : RefundMaps)
    (jobs : list LeafRefundTxSigningJob) : Prop :=
  dom (cpfpLeafRefundMap maps) = dom (cpfpLeafRefundMap acc) ∪ leafIds jobs /\
  dom (directLeafRefundMap maps) =
    dom (directLeafRefundMap acc) ∪ leafIds (List.filter hasDirectJobs jobs) /\
  dom (directFromCpfpLeafRefundMap maps) =
    dom (directFromCpfpLeafRefundMap acc) ∪
    leafIds (List.filter hasDirectJobs jobs).

(** Where the loop stops: the first leaf it does not get past. *)
Definition stops_at (requireDirectTx : bool)
    (jobs : list LeafRefundTxSigningJob) (e : error) : Prop :=
  exists pre job post,
    jobs = pre ++ job :: post /\
    forallb (passes requireDirectTx) pre = true /\
    passes requireDirectTx job = false /\
    e = refusal job.

Lemma leafIds_cons job jobs : leafIds (job :: jobs) = {[ LeafId job ]} ∪ leafIds jobs.
Proof. reflexivity. Qed.

Lemma union_shift (x : string) (A B : gset string) :
  {[ x ]} ∪ A ∪ B = A ∪ ({[ x ]} ∪ B).
Proof.
  rewrite (comm_L (∪) {[ x ]} A), <- (assoc_L (∪)). reflexivity.
Qed.

Lemma passes_all (requireDirectTx : bool)
    (jobs : list LeafRefundTxSigningJob) :
  forallb (passes requireDirectTx) jobs =
  forallb hasRefundJob jobs &&
  (forallb hasDirectJobs jobs || negb requireDirectTx).
Proof.
  unfold passes. induction jobs as [| job jobs IH]; cbn [forallb].
  - reflexivity.
  - rewrite IH.
    destruct (hasRefundJob job), (hasDirectJobs job), requireDirectTx,
      (forallb hasRefundJob jobs), (forallb hasDirectJobs jobs);
      reflexivity.
Qed.

Lemma stops_at_cons (requireDirectTx : bool)
    (job : LeafRefundTxSigningJob) (jobs : list LeafRefundTxSigningJob)
    (e : error) :
  passes requireDirectTx job = true ->
  stops_at requireDirectTx jobs e ->
  stops_at requireDirectTx (job :: jobs) e.
Proof.
  intros Hjob (pre & bad & post & -> & Hpre & Hbad & ->).
  exists (job :: pre), bad, post. split; [reflexivity |].
  cbn [forallb]. rewrite Hjob, Hpre. auto.
Qed.

Lemma stops_at_head (requireDirectTx : bool)
    (job : LeafRefundTxSigningJob) (jobs : list LeafRefundTxSigningJob) :
  passes requireDirectTx job = false ->
  stops_at requireDirectTx (job :: jobs) (refusal job).
Proof.
  intros Hjob. exists [], job, jobs. auto.
Qed.

Lemma stops_at_fails (requireDirectTx : bool)
    (jobs : list LeafRefundTxSigningJob) (e : error) :
  stops_at requireDirectTx jobs e ->
  forallb (passes requireDirectTx) jobs = false.
Proof.
  intros (pre & bad & post & -> & _ & Hbad & _).
  rewrite List.forallb_app. cbn [forallb]. rewrite Hbad.
  now rewrite andb_false_r.
Qed.

Lemma collectRefundMaps_from (requireDirectTx : bool)
    (jobs : list LeafRefundTxSigningJob) :
  forall acc : RefundMaps,
    match collectRefundMaps requireDirectTx jobs acc with
    | Ok maps =>
        maps_cover acc maps jobs /\
        forallb (passes requireDirectTx) jobs = true
    | Err e => stops_at requireDirectTx jobs e
    end.
Proof.
  induction jobs as [| job jobs IH]; intros acc.
  - simpl. unfold maps_cover, leafIds. simpl.
    rewrite !union_empty_r_L. auto.
  - cbn [collectRefundMaps].
    destruct (RefundTxSigningJob job) as [refund |] eqn:Hrefund.
    2:{ replace nilDereference with (refusal job)
          by (unfold refusal, hasRefundJob; now rewrite Hrefund).
        apply stops_at_head. unfold passes, hasRefundJob.
        now rewrite Hrefund. }
    assert (Hhas : hasRefundJob job = true)
      by (unfold hasRefundJob; now rewrite Hrefund).
    destruct (hasDirectJobs job) eqn:Hjob.
    + assert (Hpass : passes requireDirectTx job = true)
        by (unfold passes; now rewrite Hhas, Hjob).
      pose proof Hjob as Hboth. unfold hasDirectJobs in Hboth.
      destruct (DirectRefundTxSigningJob job) as [direct |] eqn:Hd;
        [| discriminate Hboth].
      destruct (DirectFromCpfpRefundTxSigningJob job) as [fromCpfp |] eqn:Hf;
        [| discriminate Hboth].
      match goal with
      | |- context [collectRefundMaps _ jobs ?acc'] => specialize (IH acc')
      end.
      destruct (collectRefundMaps _ jobs _) as [maps | e].
      * destruct IH as [(Hc & Hdi & Hfc) Hall]. simpl in Hc, Hdi, Hfc.
        rewrite dom_insert_L in Hc, Hdi, Hfc.
        unfold maps_cover. cbn [List.filter forallb]. rewrite Hjob.
        rewrite !leafIds_cons, Hc, Hdi, Hfc, Hpass, Hall.
        split; [split_and!; apply union_shift | reflexivity].
      * now apply stops_at_cons.
    + assert (Hmatch :
        match DirectRefundTxSigningJob job,
              DirectFromCpfpRefundTxSigningJob job return Prop with
        | Some _, Some _ => False
        | _, _ => True
        end).
      { unfold hasDirectJobs in Hjob.
        destruct (DirectRefundTxSigningJob job),
          (DirectFromCpfpRefundTxSigningJob job); (discriminate || exact I). }
      assert (Hstep :
        match DirectRefundTxSigningJob job,
              DirectFromCpfpRefundTxSigningJob job with
        | Some direct, Some directFromCpfp =>
            collectRefundMaps requireDirectTx jobs
              {| cpfpLeafRefundMap :=
                   <[LeafId job := JobRawTx refund]> (cpfpLeafRefundMap acc);
                 directLeafRefundMap :=
                   <[LeafId job := JobRawTx direct]>
                     (directLeafRefundMap acc);
                 directFromCpfpLeafRefundMap :=
                   <[LeafId job := JobRawTx directFromCpfp]>
                     (directFromCpfpLeafRefundMap acc) |}
        | _, _ =>
            if requireDirectTx
            then Err directRequired
            else collectRefundMaps requireDirectTx jobs
                   {| cpfpLeafRefundMap :=
                        <[LeafId job := JobRawTx refund]>
                          (cpfpLeafRefundMap acc);
                      directLeafRefundMap := directLeafRefundMap acc;
                      directFromCpfpLeafRefundMap :=
                        directFromCpfpLeafRefundMap acc |}
        end =
        if requireDirectTx
        then Err directRequired
        else collectRefundMaps requireDirectTx jobs
               {| cpfpLeafRefundMap :=
                    <[LeafId job := JobRawTx refund]> (cpfpLeafRefundMap acc);
                  directLeafRefundMap := directLeafRefundMap acc;
                  directFromCpfpLeafRefundMap :=
                    directFromCpfpLeafRefundMap acc |}).
      { destruct (DirectRefundTxSigningJob job),
          (DirectFromCpfpRefundTxSigningJob job);
          (contradiction || reflexivity). }
      unfold directRequired in Hstep. rewrite Hstep. clear Hstep Hmatch.
      destruct requireDirectTx.
      * replace (ErrMsg _) with (refusal job)
          by (unfold refusal; now rewrite Hhas).
        apply stops_at_head. unfold passes. now rewrite Hhas, Hjob.
      * assert (Hpass : passes false job = true)
          by (unfold passes; now rewrite Hhas, Hjob).
        match goal with
        | |- context [collectRefundMaps _ jobs ?acc'] => specialize (IH acc')
        end.
        destruct (collectRefundMaps _ jobs _) as [maps | e].
        -- destruct IH as [(Hc & Hdi & Hfc) Hall]. simpl in Hc, Hdi, Hfc.
           rewrite dom_insert_L in Hc.
           unfold maps_cover. cbn [List.filter forallb]. rewrite Hjob.
           rewrite !leafIds_cons, Hc, Hdi, Hfc, Hpass, Hall.
           split; [split_and!; (apply union_shift || reflexivity) |
                   reflexivity].
        -- now apply stops_at_cons.
Qed.

(** X9.  The first loop of [cooperativeExit] gets past a leaf when its
    refund job is there and, where direct transactions are required, both
    direct jobs are.  It succeeds exactly when it gets past every leaf, and
    otherwise stops at the first leaf it does not get past: with a nil-pointer
    panic when that leaf has no refund job, with the "required" error when
    it has.  On success the CPFP map has an entry for exactly the leaves of
    the request, the two direct maps have the same keys, namely the leaves
    that bring both direct jobs (a leaf with only one of the two is in
    neither), these are among the keys of the CPFP map, and where direct
    transactions are required all three maps have the same keys. *)
Theorem collectRefundMaps_domains (requireDirectTx : bool)
    (jobs : list LeafRefundTxSigningJob) :
  match collectRefundMaps requireDirectTx jobs emptyRefundMaps with
  | Ok maps =>
      dom (cpfpLeafRefundMap maps) = leafIds jobs /\
      dom (directLeafRefundMap maps) =
        leafIds (List.filter hasDirectJobs jobs) /\
      dom (directFromCpfpLeafRefundMap maps) =
        dom (directLeafRefundMap maps) /\
      dom (directLeafRefundMap maps) ⊆ dom (cpfpLeafRefundMap maps) /\
      (requireDirectTx = true ->
       dom (directLeafRefundMap maps) = dom (cpfpLeafRefundMap maps))
  | Err e =>
      exists pre job post,
        jobs = pre ++ job :: post /\
        forallb (passes requireDirectTx) pre = true /\
        passes requireDirectTx job = false /\
        e = (if hasRefundJob job then directRequired else nilDereference)
  end /\
  is_ok (collectRefundMaps requireDirectTx jobs emptyRefundMaps) =
    forallb (passes requireDirectTx) jobs /\
  forallb (passes requireDirectTx) jobs =
    forallb hasRefundJob jobs &&
    (forallb hasDirectJobs jobs || negb requireDirectTx).
Proof.
  pose proof (collectRefundMaps_from requireDirectTx jobs emptyRefundMaps)
    as H.
  split; [| split; [| apply passes_all]].
  - destruct (collectRefundMaps requireDirectTx jobs emptyRefundMaps)
      as [maps | e]; [| exact H].
    destruct H as [(Hc & Hd & Hf) Hall].
    unfold emptyRefundMaps in Hc, Hd, Hf.
    cbn [cpfpLeafRefundMap directLeafRefundMap directFromCpfpLeafRefundMap]
      in Hc, Hd, Hf.
    rewrite dom_empty_L, union_empty_l_L in Hc, Hd, Hf.
    assert (Hsub : leafIds (List.filter hasDirectJobs jobs) ⊆ leafIds jobs).
    { unfold leafIds. intros id Hid.
      apply elem_of_list_to_set, list_elem_of_In, List.in_map_iff in Hid
        as (job & <- & Hin).
      apply List.filter_In in Hin as [Hin _].
      apply elem_of_list_to_set, list_elem_of_In, List.in_map, Hin. }
    split; [exact Hc |]. split; [exact Hd |].
    split; [congruence |]. split.
    + rewrite Hc, Hd. exact Hsub.
    + intros ->. rewrite Hc, Hd. rewrite passes_all in Hall.
      apply andb_prop in Hall as [_ Hall]. rewrite orb_false_r in Hall.
      rewrite (List.forallb_filter_id hasDirectJobs jobs Hall).
      reflexivity.
  - destruct (collectRefundMaps requireDirectTx jobs emptyRefundMaps)
      as [maps | e]; cbn [is_ok].
    + symmetry. exact (proj2 H).
    + symmetry. eapply stops_at_fails, H.
Qed.

Section CoopExit.
Variable EnforceSessionIdentityPublicKeyMatches : list byte -> M unit.
Variable LeafMap TransferProto SigningResults : Type.
Variable createTransfer :
  string -> TransferType -> Z -> list byte -> list byte -> RefundMaps ->
  bool -> M (Transfer * LeafMap).
Variable uuid_Parse : string -> result UUID.
Variable MarshalProto : Transfer -> M TransferProto.
Variable signRefunds : StartTransferRequest -> LeafMap -> M SigningResults.
Variable syncCoopExitInit : CooperativeExitRequest -> M unit.

Local Abbreviation cooperativeExit :=
  (handler.cooperativeExit EnforceSessionIdentityPublicKeyMatches LeafMap
     TransferProto SigningResults createTransfer uuid_Parse MarshalProto
     signRefunds syncCoopExitInit).
Local Abbreviation CooperativeExit :=
  (handler.CooperativeExit EnforceSessionIdentityPublicKeyMatches LeafMap
     TransferProto SigningResults createTransfer uuid_Parse MarshalProto
     signRefunds syncCoopExitInit).
Local Abbreviation CooperativeExitV2 :=
  (handler.CooperativeExitV2 EnforceSessionIdentityPublicKeyMatches LeafMap
     TransferProto SigningResults createTransfer uuid_Parse MarshalProto
     signRefunds syncCoopExitInit).

Ltac run_exit :=
  unfold handler.CooperativeExit, handler.CooperativeExitV2,
         handler.cooperativeExit, wrap_err;
  unfold mbind, M_bind, bind, lift, fail, ret, mret, M_ret.

(** The state in which [createTransfer] is called, and what it gets. *)
Definition createTransfer_call (req : CooperativeExitRequest)
    (maps : RefundMaps) (requireDirectTx : bool) : M (Transfer * LeafMap) :=
  createTransfer (TransferId (RequestTransfer req)) TransferTypeCooperativeExit
    (RequestExpiryTime (RequestTransfer req))
    (OwnerIdentityPublicKey (RequestTransfer req))
    (ReceiverIdentityPublicKey (RequestTransfer req)) maps requireDirectTx.

(** X10.  Once the session check has passed, both entry points stop at the
    first loop, in the state the session check left and before any transfer
    is created, when the request is short of a job.  When every leaf brings
    its refund job but some leaf lacks one of the direct jobs,
    [CooperativeExitV2] refuses with the "required" error, while
    [CooperativeExit] accepts the request at this point and goes on to
    create the transfer, whose failure it reports wrapped.  When some leaf
    brings no refund job, [CooperativeExit] ends in a nil-pointer panic, and
    [CooperativeExitV2] in that panic or the "required" error, whichever
    leaf comes first. *)
Theorem CooperativeExitV2_requires_direct
    (req : CooperativeExitRequest) (ctx ctx1 : Context) :
  EnforceSessionIdentityPublicKeyMatches
    (OwnerIdentityPublicKey (RequestTransfer req)) ctx = (Ok tt, ctx1) ->
  (forallb hasRefundJob (LeavesToSend (RequestTransfer req)) = true ->
   forallb hasDirectJobs (LeavesToSend (RequestTransfer req)) = false ->
   CooperativeExitV2 req ctx = (Err directRequired, ctx1) /\
   exists maps,
     collectRefundMaps false (LeavesToSend (RequestTransfer req))
       emptyRefundMaps = Ok maps /\
     (forall e ctx2,
        createTransfer_call req maps false ctx1 = (Err e, ctx2) ->
        CooperativeExit req ctx =
          (Err (ErrWrap "failed to create transfer for request" e), ctx2))) /\
  (forallb hasRefundJob (LeavesToSend (RequestTransfer req)) = false ->
   CooperativeExit req ctx = (Err nilDereference, ctx1) /\
   exists e,
     CooperativeExitV2 req ctx = (Err e, ctx1) /\
     (e = nilDereference \/ e = directRequired)).
Proof using Type.
  intros Hauth.
  pose proof (collectRefundMaps_from true
                (LeavesToSend (RequestTransfer req)) emptyRefundMaps) as Htrue.
  pose proof (collectRefundMaps_from false
                (LeavesToSend (RequestTransfer req)) emptyRefundMaps) as Hfalse.
  rewrite passes_all in Htrue, Hfalse.
  assert (Hends : forall pre job post,
            LeavesToSend (RequestTransfer req) = pre ++ job :: post ->
            forallb hasRefundJob (LeavesToSend (RequestTransfer req)) = true ->
            refusal job = directRequired).
  { intros pre job post Heq Hall. rewrite Heq, List.forallb_app in Hall.
    apply andb_prop in Hall as [_ Hall]. cbn [forallb] in Hall.
    apply andb_prop in Hall as [Hjob _]. unfold refusal. now rewrite Hjob. }
  split.
  - intros Hrefund Hno. split.
    + run_exit. rewrite Hauth.
      destruct (collectRefundMaps true _ _) as [maps | e].
      * destruct Htrue as [_ Hall]. rewrite Hrefund, Hno in Hall.
        discriminate Hall.
      * destruct Htrue as (pre & job & post & Heq & _ & _ & ->).
        rewrite (Hends pre job post Heq Hrefund). reflexivity.
    + destruct (collectRefundMaps false _ _) as [maps | e] eqn:Hmaps.
      * exists maps. split; [reflexivity |]. intros e ctx2 Hcreate.
        run_exit. rewrite Hauth, Hmaps.
        unfold createTransfer_call in Hcreate. rewrite Hcreate. reflexivity.
      * apply stops_at_fails in Hfalse. rewrite passes_all, Hrefund in Hfalse.
        rewrite orb_true_r in Hfalse. discriminate Hfalse.
  - intros Hrefund. split.
    + run_exit. rewrite Hauth.
      destruct (collectRefundMaps false _ _) as [maps | e].
      * destruct Hfalse as [_ Hall]. rewrite Hrefund in Hall.
        discriminate Hall.
      * destruct Hfalse as (pre & job & post & _ & _ & Hbad & ->).
        unfold passes in Hbad. rewrite orb_true_r, andb_true_r in Hbad.
        unfold refusal. rewrite Hbad. reflexivity.
    + run_exit. rewrite Hauth.
      destruct (collectRefundMaps true _ _) as [maps | e].
      * destruct Htrue as [_ Hall]. rewrite Hrefund in Hall.
        discriminate Hall.
      * destruct Htrue as (pre & job & post & _ & _ & _ & ->).
        exists (refusal job). split; [reflexivity |].
        unfold refusal. destruct (hasRefundJob job); auto.
Qed.

(** X11.  The exit id and the exit transaction id are checked only after the
    transfer has been created.  An exit id that does not parse, an exit
    transaction id that is not 32 bytes long, or an exit id that is already
    taken makes [cooperativeExit] fail in the very state [createTransfer]
    left: no cooperative exit row is written and none is overwritten. *)
Theorem cooperativeExit_bad_exit_writes_nothing
    (req : CooperativeExitRequest) (requireDirectTx : bool)
    (ctx ctx1 ctx2 : Context) (maps : RefundMaps) (t : Transfer)
    (leafMap : LeafMap) :
  EnforceSessionIdentityPublicKeyMatches
    (OwnerIdentityPublicKey (RequestTransfer req)) ctx = (Ok tt, ctx1) ->
  collectRefundMaps requireDirectTx (LeavesToSend (RequestTransfer req))
    emptyRefundMaps = Ok maps ->
  createTransfer_call req maps requireDirectTx ctx1 = (Ok (t, leafMap), ctx2) ->
  (forall e,
     uuid_Parse (RequestExitId req) = Err e ->
     cooperativeExit req requireDirectTx ctx =
       (Err (ErrWrap "unable to parse exit_id" e), ctx2)) /\
  (forall exitUUID,
     uuid_Parse (RequestExitId req) = Ok exitUUID ->
     List.length (RequestExitTxid req) <> 32%nat ->
     cooperativeExit req requireDirectTx ctx =
       (Err (ErrMsg "exit_txid is not 32 bytes in request"), ctx2)) /\
  (forall exitUUID db2 old,
     uuid_Parse (RequestExitId req) = Ok exitUUID ->
     List.length (RequestExitTxid req) = 32%nat ->
     ctx2 = Some db2 ->
     CooperativeExits db2 !! exitUUID = Some old ->
     exists e,
       cooperativeExit req requireDirectTx ctx =
         (Err (ErrWrap "failed to create cooperative exit for request" e),
          ctx2)).
Proof using Type.
  intros Hauth Hmaps Hcreate. unfold createTransfer_call in Hcreate.
  split; [| split].
  - intros e Hparse. run_exit. rewrite Hauth, Hmaps, Hcreate, Hparse.
    reflexivity.
  - intros exitUUID Hparse Hlen. run_exit.
    rewrite Hauth, Hmaps, Hcreate, Hparse.
    destruct (Nat.eqb_spec (List.length (RequestExitTxid req)) 32);
      [contradiction | reflexivity].
  - intros exitUUID db2 old Hparse Hlen -> Hold. run_exit.
    rewrite Hauth, Hmaps, Hcreate, Hparse, Hlen. simpl.
    unfold GetDbFromContext, CooperativeExit_Create, with_db. simpl.
    rewrite Hold. eexists. reflexivity.
Qed.

(** A callee keeps the cooperative exit rows it finds. *)
Definition preserves_exits {A : Type} (m : M A) : Prop :=
  forall (db : Db) (r : result A) (ctx' : Context),
    m (Some db) = (r, ctx') ->
    exists db',
      ctx' = Some db' /\
      forall u row,
        CooperativeExits db !! u = Some row ->
        CooperativeExits db' !! u = Some row.

(** The exit row [cooperativeExit] writes for a transfer. *)
Definition exitRow (exitUUID : UUID) (t : Transfer)
    (req : CooperativeExitRequest) : ent.CooperativeExit :=
  {| ExitID := exitUUID; ExitTransfer := TransferID t;
     ExitTxid := RequestExitTxid req; ConfirmationHeight := None |}.

(** X12.  A successful [cooperativeExit] has passed the session check, got
    past every leaf in the first loop and created a transfer; the exit id of
    the request parsed to an id not yet taken in the database
    [createTransfer] left, and the exit transaction id is 32 bytes long.
    The transfer it marshals into the response is the one [createTransfer]
    returned, and, when marshalling, signing and the fan-out keep the exit
    rows they find, the final database holds under the parsed exit id the
    exit row of exactly that transfer, with the exit transaction id of the
    request and no confirmation height. *)
Theorem cooperativeExit_records_unconfirmed_exit
    (req : CooperativeExitRequest) (requireDirectTx : bool)
    (ctx ctx' : Context) (out : TransferProto * SigningResults) :
  (forall t, preserves_exits (MarshalProto t)) ->
  (forall tr leafMap, preserves_exits (signRefunds tr leafMap)) ->
  (forall r, preserves_exits (syncCoopExitInit r)) ->
  cooperativeExit req requireDirectTx ctx = (Ok out, ctx') ->
  exists ctx1 maps t leafMap db2 exitUUID db4 db',
    EnforceSessionIdentityPublicKeyMatches
      (OwnerIdentityPublicKey (RequestTransfer req)) ctx = (Ok tt, ctx1) /\
    collectRefundMaps requireDirectTx (LeavesToSend (RequestTransfer req))
      emptyRefundMaps = Ok maps /\
    forallb (passes requireDirectTx) (LeavesToSend (RequestTransfer req)) =
      true /\
    createTransfer_call req maps requireDirectTx ctx1 =
      (Ok (t, leafMap), Some db2) /\
    uuid_Parse (RequestExitId req) = Ok exitUUID /\
    List.length (RequestExitTxid req) = 32%nat /\
    CooperativeExits db2 !! exitUUID = None /\
    MarshalProto t
      (Some (with_CooperativeExits
               (insert exitUUID (exitRow exitUUID t req)) db2)) =
      (Ok (fst out), Some db4) /\
    ctx' = Some db' /\
    CooperativeExits db' !! exitUUID = Some (exitRow exitUUID t req).
Proof using Type.
  intros Hmarshal Hsign Hsync. run_exit.
  destruct (EnforceSessionIdentityPublicKeyMatches _ ctx) as [[[] | e] ctx1];
    [| discriminate].
  pose proof (collectRefundMaps_from requireDirectTx
                (LeavesToSend (RequestTransfer req)) emptyRefundMaps) as Hall.
  destruct (collectRefundMaps requireDirectTx _ _) as [maps | e];
    [| discriminate].
  destruct Hall as [_ Hall].
  destruct (createTransfer _ _ _ _ _ _ _ ctx1) as [[[t leafMap] | e] ctx2]
    eqn:Hcreate; [| discriminate].
  destruct (uuid_Parse (RequestExitId req)) as [exitUUID | e];
    [| discriminate].
  destruct (Nat.eqb_spec (List.length (RequestExitTxid req)) 32) as [Hlen | ];
    [| discriminate].
  simpl. unfold GetDbFromContext, CooperativeExit_Create, with_db.
  destruct ctx2 as [db2 |]; [| discriminate]. simpl.
  destruct (CooperativeExits db2 !! exitUUID) eqn:Hfresh; [discriminate |].
  simpl. fold (exitRow exitUUID t req).
  set (db3 := with_CooperativeExits
                (insert exitUUID (exitRow exitUUID t req)) db2).
  destruct (MarshalProto t (Some db3)) as [[proto | e] ctx4] eqn:Hm;
    [| discriminate].
  destruct (Hmarshal t db3 _ _ Hm) as (db4 & -> & Hkeep4).
  destruct (signRefunds (RequestTransfer req) leafMap (Some db4))
    as [[results | e] ctx5] eqn:Hs; [| discriminate].
  destruct (Hsign _ _ db4 _ _ Hs) as (db5 & -> & Hkeep5).
  destruct (syncCoopExitInit req (Some db5)) as [[[] | e] ctx6] eqn:Hy;
    [| discriminate].
  destruct (Hsync _ db5 _ _ Hy) as (db6 & -> & Hkeep6).
  intros [= <- <-].
  exists ctx1, maps, t, leafMap, db2, exitUUID, db4, db6.
  split_and!; try done.
  apply Hkeep6, Hkeep5, Hkeep4. subst db3. simpl. apply lookup_insert_eq.
Qed.
End CoopExit.

Lemma initiateTransferLeaf_cases (job : LeafRefundTxSigningJob) :
  match initiateTransferLeaf job with
  | Ok out =>
      hasRefundJob job = true /\
      pbinternal.LeafId out = LeafId job /\
      Some (pbinternal.RawRefundTx out) =
        JobRawTx <$> RefundTxSigningJob job
  | Err e => e = nilDereference /\ hasRefundJob job = false
  end.
Proof.
  unfold initiateTransferLeaf, hasRefundJob.
  destruct (RefundTxSigningJob job); simpl; auto.
Qed.

Lemma initiateTransferLeaves_from (todo : list LeafRefundTxSigningJob) :
  forall acc,
    match initiateTransferLeaves todo acc with
    | Ok leaves =>
        forallb hasRefundJob todo = true /\
        exists outs,
          leaves = acc ++ outs /\
          Forall2 (fun job out => initiateTransferLeaf job = Ok out) todo outs
    | Err e => e = nilDereference /\ forallb hasRefundJob todo = false
    end.
Proof.
  induction todo as [| job todo IH]; intros acc; cbn [initiateTransferLeaves].
  - split; [reflexivity |]. exists []. rewrite app_nil_r. auto.
  - pose proof (initiateTransferLeaf_cases job) as Hjob.
    destruct (initiateTransferLeaf job) as [out | e] eqn:Hout.
    + destruct Hjob as (Hhas & _). specialize (IH (acc ++ [out])).
      cbn [forallb]. rewrite Hhas.
      destruct (initiateTransferLeaves todo (acc ++ [out])) as [leaves | e].
      * destruct IH as (Hall & outs & -> & Hsent). split; [exact Hall |].
        exists (out :: outs). rewrite <- app_assoc. split; [reflexivity |].
        constructor; assumption.
      * exact IH.
    + destruct Hjob as (-> & Hhas). cbn [forallb]. rewrite Hhas. auto.
Qed.

Lemma leafId_unique (jobs : list LeafRefundTxSigningJob)
    (a b : LeafRefundTxSigningJob) :
  NoDup (List.map LeafId jobs) -> In a jobs -> In b jobs ->
  LeafId a = LeafId b -> a = b.
Proof.
  induction jobs as [| job jobs IH]; simpl; intros Hnd Ha Hb Heq;
    [contradiction |].
  apply NoDup_cons in Hnd as [Hnotin Hnd].
  destruct Ha as [<- | Ha], Hb as [<- | Hb]; auto.
  - exfalso. apply Hnotin. rewrite Heq.
    apply list_elem_of_In, List.in_map, Hb.
  - exfalso. apply Hnotin. rewrite <- Heq.
    apply list_elem_of_In, List.in_map, Ha.
Qed.

Lemma sent_in (jobs : list LeafRefundTxSigningJob)
    (outs : list pbinternal.InitiateTransferLeaf) :
  Forall2 (fun job out => initiateTransferLeaf job = Ok out) jobs outs ->
  List.map pbinternal.LeafId outs = List.map LeafId jobs /\
  List.map (fun out => Some (pbinternal.RawRefundTx out)) outs =
    List.map (fun job => JobRawTx <$> RefundTxSigningJob job) jobs /\
  forall job out, In job jobs -> initiateTransferLeaf job = Ok out ->
                  In out outs.
Proof.
  induction 1 as [| job out jobs outs Hout _ IH]; simpl.
  - split_and!; [reflexivity | reflexivity | contradiction].
  - destruct IH as (Hids & Hraw & Hin).
    pose proof (initiateTransferLeaf_cases job) as Hjob.
    rewrite Hout in Hjob. destruct Hjob as (_ & Hid & Hrefund).
    rewrite Hids, Hraw, Hid, Hrefund. split_and!; try reflexivity.
    intros job' out' [<- | Hin'] Hout'.
    + left. congruence.
    + right. eauto.
Qed.

Section SyncInit.
Variable ExecuteTaskWithAllOperators :
  pbinternal.InitiateCooperativeExitRequest -> M unit.

(** X13.  [syncCoopExitInit] reads the refund job of every leaf unchecked:
    a request in which some leaf brings none ends in a nil-pointer panic
    before any operator is contacted.  Otherwise the other operators are
    sent one request, which lists the leaves of the client's request in the
    same order, each with its refund transaction, and carries the exit id
    and exit transaction id unchanged.  A leaf that brings a direct refund
    job but no direct-from-CPFP job is sent on with that direct refund
    transaction (and an empty direct-from-CPFP one), although the
    coordinator's own direct refund map, built by [cooperativeExit], has no
    entry for it. *)
Theorem syncCoopExitInit_forwards_lone_direct
    (req : CooperativeExitRequest) (ctx : Context) :
  let jobs := LeavesToSend (RequestTransfer req) in
  match coopExitRequest req with
  | Err e =>
      e = nilDereference /\
      forallb hasRefundJob jobs = false /\
      syncCoopExitInit ExecuteTaskWithAllOperators req ctx =
        (Err nilDereference, ctx)
  | Ok out =>
      let sent := pbinternal.Leaves (pbinternal.Transfer out) in
      forallb hasRefundJob jobs = true /\
      syncCoopExitInit ExecuteTaskWithAllOperators req ctx =
        ExecuteTaskWithAllOperators out ctx /\
      List.map pbinternal.LeafId sent = List.map LeafId jobs /\
      List.map (fun leaf => Some (pbinternal.RawRefundTx leaf)) sent =
        List.map (fun job => JobRawTx <$> RefundTxSigningJob job) jobs /\
      pbinternal.ExitId out = RequestExitId req /\
      pbinternal.ExitTxid out = RequestExitTxid req /\
      (forall job refund direct maps,
         NoDup (List.map LeafId jobs) ->
         In job jobs ->
         RefundTxSigningJob job = Some refund ->
         DirectRefundTxSigningJob job = Some direct ->
         DirectFromCpfpRefundTxSigningJob job = None ->
         collectRefundMaps false jobs emptyRefundMaps = Ok maps ->
         directLeafRefundMap maps !! LeafId job = None /\
         In {| pbinternal.LeafId := LeafId job;
               pbinternal.RawRefundTx := JobRawTx refund;
               pbinternal.DirectRefundTx := JobRawTx direct;
               pbinternal.DirectFromCpfpRefundTx := [] |} sent)
  end.
Proof using Type.
  intros jobs. unfold syncCoopExitInit, coopExitRequest.
  unfold mbind, M_bind, bind, lift. fold jobs.
  pose proof (initiateTransferLeaves_from jobs []) as Hloop.
  destruct (initiateTransferLeaves jobs []) as [leaves | e].
  2:{ destruct Hloop as (-> & Hno). auto. }
  destruct Hloop as (Hall & outs & Hleaves & Hsent). simpl in Hleaves.
  subst leaves. cbn.
  destruct (sent_in jobs outs Hsent) as (Hids & Hraw & Hin).
  split_and!; try done.
  intros job refund direct maps Hnd Hjob Hrefund Hdirect Hnone Hmaps. split.
  - pose proof (collectRefundMaps_from false jobs emptyRefundMaps) as H.
    rewrite Hmaps in H. destruct H as [(_ & Hd & _) _].
    apply not_elem_of_dom. rewrite Hd.
    unfold emptyRefundMaps. cbn [directLeafRefundMap].
    rewrite dom_empty_L, union_empty_l_L. unfold leafIds.
    intros Hid.
    apply elem_of_list_to_set, list_elem_of_In, List.in_map_iff in Hid
      as (other & Hsame & Hother).
    apply List.filter_In in Hother as [Hother Hhas].
    assert (other = job) as -> by (eapply leafId_unique; eauto).
    unfold hasDirectJobs in Hhas. rewrite Hdirect, Hnone in Hhas.
    discriminate Hhas.
  - apply (Hin job); [exact Hjob |].
    unfold initiateTransferLeaf. rewrite Hrefund, Hdirect, Hnone.
    reflexivity.
Qed.
End SyncInit.

Lemma CooperativeExitV2_requires_direct_witness :
  handler.CooperativeExitV2 (fun _ => mret tt) unit Transfer unit
    sample_createTransfer sample_uuid_Parse (fun t => mret t)
    (fun _ _ => mret tt) (fun _ => mret tt) sample_exit_request
    (Some ent_claims.sample_db) =
  (Err directRequired, Some ent_claims.sample_db).
Proof.
  exact (proj1 (proj1 (CooperativeExitV2_requires_direct (fun _ => mret tt)
                         unit Transfer unit sample_createTransfer
                         sample_uuid_Parse (fun t => mret t)
                         (fun _ _ => mret tt) (fun _ => mret tt)
                         sample_exit_request (Some ent_claims.sample_db)
                         (Some ent_claims.sample_db) eq_refl)
                 eq_refl eq_refl)).
Defined.

(** The sample request with an exit transaction id of 31 bytes. *)
Definition short_txid_request : CooperativeExitRequest :=
  {| RequestTransfer := RequestTransfer sample_exit_request;
     RequestExitId := "90";
     RequestExitTxid := List.repeat xee 31 |}.

Lemma cooperativeExit_bad_exit_writes_nothing_witness :
  exists db2,
    sample_cooperativeExit short_txid_request false
      (Some ent_claims.sample_db) =
      (Err (ErrMsg "exit_txid is not 32 bytes in request"), Some db2) /\
    CooperativeExits db2 = ∅.
Proof.
  eexists. split.
  - refine (proj1 (proj2 (cooperativeExit_bad_exit_writes_nothing
                            (fun _ => mret tt) unit Transfer unit
                            sample_createTransfer sample_uuid_Parse
                            (fun t => mret t) (fun _ _ => mret tt)
                            (fun _ => mret tt) short_txid_request false
                            (Some ent_claims.sample_db)
                            (Some ent_claims.sample_db) _ _ _ _
                            eq_refl eq_refl _)) 90%N eq_refl _).
    + vm_compute. reflexivity.
    + vm_compute. discriminate.
  - reflexivity.
Defined.

Lemma mret_preserves_exits {A : Type} (a : A) :
  preserves_exits (mret a : M A).
Proof.
  intros db r ctx' [= <- <-]. exists db. split; [reflexivity | auto].
Qed.

Lemma cooperativeExit_records_unconfirmed_exit_witness :
  exists db' t,
    sample_cooperativeExit sample_exit_request false
      (Some ent_claims.sample_db) = (Ok (t, tt), Some db') /\
    TransferID t = 77%N /\
    CooperativeExits db' !! 90%N =
      Some {| ExitID := 90%N; ExitTransfer := 77%N;
              ExitTxid := List.repeat xee 32; ConfirmationHeight := None |}.
Proof.
  destruct (sample_cooperativeExit sample_exit_request false
              (Some ent_claims.sample_db)) as [[[t []] | e] ctx'] eqn:Hrun;
    [| vm_compute in Hrun; discriminate Hrun].
  destruct (cooperativeExit_records_unconfirmed_exit
              (fun _ => mret tt) unit Transfer unit sample_createTransfer
              sample_uuid_Parse (fun t => mret t) (fun _ _ => mret tt)
              (fun _ => mret tt) sample_exit_request false
              (Some ent_claims.sample_db) ctx' (t, tt)
              (fun t => mret_preserves_exits t)
              (fun _ _ => mret_preserves_exits tt)
              (fun _ => mret_preserves_exits tt) Hrun)
    as (ctx1 & maps & t' & leafMap & db2 & exitUUID & db4 & db' & Hauth &
        Hmaps & _ & Hcreate & Hparse & _ & _ & Hmarshal & -> & Hrow).
  injection Hparse as <-. injection Hmarshal as <- _.
  injection Hauth as <-.
  assert (Hid : TransferID t' = 77%N).
  { vm_compute in Hmaps. injection Hmaps as <-.
    vm_compute in Hcreate. injection Hcreate as <- _ _. reflexivity. }
  exists db', t'. split; [reflexivity |]. split; [exact Hid |].
  unfold exitRow in Hrow. rewrite Hid in Hrow. exact Hrow.
Defined.
End handler_more.

(** ** so/authz: who gets through the interceptor *)

Module authz_more.
Import authz.

Section Decisions.
Variable SplitHostPort : string -> result (string * string).

Local Abbreviation authorizeRequest := (authz.authorizeRequest SplitHostPort).

(** The methods the configuration protects: all of them when no service is
    listed. *)
Definition protects (config : InterceptorConfig) (method : string) : bool :=
  match ProtectedServices config with
  | [] => true
  | prefixes => isProtected prefixes method
  end.

(** The client IP the allow-list is checked against. *)
Definition effectiveClientIP (config : InterceptorConfig)
    (ctx : RequestContext) (host : string) : string :=
  match GetClientIpFromHeader ctx (XffClientIpPosition config) with
  | Ok xffClientIP => xffClientIP
  | Err _ => host
  end.

Lemma authorizeRequest_unprotected (config : InterceptorConfig)
    (ctx : RequestContext) (method : string) :
  protects config method = false ->
  authorizeRequest config ctx method = None.
Proof using Type.
  unfold protects, authz.authorizeRequest. intros Hp.
  destruct (ConfigMode config =? ModeDisabled); [reflexivity |].
  destruct (ProtectedServices config) as [| pre rest]; [discriminate |].
  rewrite Hp. reflexivity.
Qed.

Lemma authorizeRequest_protected (config : InterceptorConfig)
    (ctx : RequestContext) (method : string) :
  protects config method = true ->
  ConfigMode config <> ModeDisabled ->
  authorizeRequest config ctx method =
    match Peer ctx with
    | None =>
        if ConfigMode config =? ModeEnforce
        then Some (ErrStatus Internal "failed to get peer information")
        else None
    | Some addr =>
        match SplitHostPort addr with
        | Err _ =>
            if ConfigMode config =? ModeEnforce
            then Some (ErrStatus Internal "failed to get peer information")
            else None
        | Ok (host, _) =>
            if negb (HasPrefix addr "10.") then
              if ConfigMode config =? ModeEnforce
              then Some (ErrStatus PermissionDenied
                           ("request not allowed from " ++ addr))
              else None
            else
              if negb (HasPrefix (effectiveClientIP config ctx host) "10.") &&
                 negb (ConfigMode config =? ModeLogOnly) &&
                 negb (bool_decide
                         (effectiveClientIP config ctx host ∈
                          AllowedIPs config))
              then
                if ConfigMode config =? ModeEnforce
                then Some (ErrStatus PermissionDenied
                             ("request not allowed from " ++
                              effectiveClientIP config ctx host))
                else None
              else None
        end
    end.
Proof using Type.
  unfold protects, authz.authorizeRequest, effectiveClientIP. intros Hp Hmode.
  destruct (Z.eqb_spec (ConfigMode config) ModeDisabled); [contradiction |].
  destruct (ProtectedServices config) as [| pre rest]; [reflexivity |].
  rewrite Hp. reflexivity.
Qed.

(** X14.  [authorizeRequest] denies only in enforce mode: whenever it returns
    an error, the configured mode is [ModeEnforce], the method is a
    protected one, and the error is a [PermissionDenied] or an [Internal]
    status.  In every other mode, valid or not, every request passes. *)
Theorem authorizeRequest_denies_only_in_enforce
    (config : InterceptorConfig) (ctx : RequestContext) (method : string)
    (e : error) :
  authorizeRequest config ctx method = Some e ->
  ConfigMode config = ModeEnforce /\
  protects config method = true /\
  (status_code e = PermissionDenied \/ status_code e = Internal).
Proof using Type.
  intros Hdeny.
  destruct (protects config method) eqn:Hp.
  2:{ rewrite authorizeRequest_unprotected in Hdeny by assumption.
      discriminate Hdeny. }
  destruct (Z.eqb_spec (ConfigMode config) ModeDisabled) as [Hdis | Hdis].
  { unfold authz.authorizeRequest in Hdeny.
    rewrite Hdis in Hdeny. discriminate Hdeny. }
  rewrite authorizeRequest_protected in Hdeny by assumption.
  destruct (Z.eqb_spec (ConfigMode config) ModeEnforce) as [Henf | Henf].
  - split; [exact Henf |]. split; [reflexivity |].
    destruct (Peer ctx) as [addr |]; [| injection Hdeny as <-; auto].
    destruct (SplitHostPort addr) as [[host port] | err];
      [| injection Hdeny as <-; auto].
    destruct (negb (HasPrefix addr "10.")); [injection Hdeny as <-; auto |].
    destruct (_ && _); [injection Hdeny as <-; auto | discriminate Hdeny].
  - exfalso.
    destruct (Peer ctx) as [addr |]; [| discriminate Hdeny].
    destruct (SplitHostPort addr) as [[host port] | err];
      [| discriminate Hdeny].
    destruct (negb (HasPrefix addr "10.")); [discriminate Hdeny |].
    destruct (_ && _); discriminate Hdeny.
Qed.

(** X15.  In enforce mode a request passes exactly when its method is not
    protected, or its peer address parses, starts with "10." and the client
    IP (the x-forwarded-for one if the header gives one, the peer's host
    otherwise) starts with "10." or is on the allow-list.  In particular a
    protected request whose peer address does not start with "10." is
    denied whatever the allow-list holds. *)
Theorem authorizeRequest_enforce_decision
    (config : InterceptorConfig) (ctx : RequestContext) (method : string) :
  ConfigMode config = ModeEnforce ->
  (authorizeRequest config ctx method = None <->
   protects config method = false \/
   exists addr host port,
     Peer ctx = Some addr /\
     SplitHostPort addr = Ok (host, port) /\
     HasPrefix addr "10." = true /\
     (HasPrefix (effectiveClientIP config ctx host) "10." = true \/
      effectiveClientIP config ctx host ∈ AllowedIPs config)) /\
  (forall addr host port,
     protects config method = true ->
     Peer ctx = Some addr ->
     SplitHostPort addr = Ok (host, port) ->
     HasPrefix addr "10." = false ->
     authorizeRequest config ctx method =
       Some (ErrStatus PermissionDenied ("request not allowed from " ++ addr))).
Proof using Type.
  intros Henf.
  assert (Hdis : ConfigMode config <> ModeDisabled)
    by (rewrite Henf; discriminate).
  split.
  - destruct (protects config method) eqn:Hp.
    2:{ rewrite authorizeRequest_unprotected by assumption.
        split; [auto | reflexivity]. }
    rewrite authorizeRequest_protected by assumption.
    rewrite Henf. simpl.
    destruct (Peer ctx) as [addr |].
    2:{ split; [discriminate |].
        intros [Hf | (addr & host & port & Hpeer & _)]; discriminate. }
    destruct (SplitHostPort addr) as [[host port] | err] eqn:Hsplit.
    2:{ split; [discriminate |].
        intros [Hf | (a & h & p & [= <-] & Hs & _)]; [discriminate |].
        rewrite Hsplit in Hs. discriminate Hs. }
    destruct (HasPrefix addr "10.") eqn:Hpeer; simpl.
    2:{ split; [discriminate |].
        intros [Hf | (a & h & p & [= <-] & _ & Hin & _)]; [discriminate |].
        rewrite Hpeer in Hin. discriminate Hin. }
    destruct (HasPrefix (effectiveClientIP config ctx host) "10.") eqn:Hip;
      simpl.
    { split; [| reflexivity]. intros _. right.
      exists addr, host, port. auto. }
    case_bool_decide as Hallow; simpl.
    + split; [| reflexivity]. intros _. right.
      exists addr, host, port. auto.
    + split; [discriminate |].
      intros [Hf | (a & h & p & [= <-] & Hs & _ & Hok)]; [discriminate |].
      rewrite Hsplit in Hs. injection Hs as <- <-.
      destruct Hok as [Hok | Hok]; [rewrite Hip in Hok; discriminate |].
      contradiction.
  - intros addr host port Hp Hpeer Hsplit Hext.
    rewrite authorizeRequest_protected by assumption.
    rewrite Hpeer, Hsplit, Hext, Henf. reflexivity.
Qed.
End Decisions.

Lemma prefix_append (a b : string) : String.prefix a (a ++ b) = true.
Proof.
  induction a as [| c a IH]; simpl.
  - destruct b; reflexivity.
  - destruct (Ascii.ascii_dec c c); [exact IH | contradiction].
Qed.

Lemma append_assoc (a b c : string) :
  ((a ++ b) ++ c)%string = (a ++ (b ++ c))%string.
Proof.
  induction a as [| x a IH]; [reflexivity |].
  change (String x ((a ++ b) ++ c) = String x (a ++ (b ++ c)))%string.
  f_equal. exact IH.
Qed.

Lemma slash_wrap (service rest : string) :
  (("/" ++ service ++ "/") ++ rest)%string =
  ("/" ++ service ++ "/" ++ rest)%string.
Proof.
  rewrite (append_assoc "/" (service ++ "/") rest).
  rewrite (append_assoc service "/" rest). reflexivity.
Qed.

Lemma NewAuthzConfig_snoc (opts : list InterceptorConfigOption)
    (opt : InterceptorConfigOption) :
  NewAuthzConfig (opts ++ [opt]) = opt (NewAuthzConfig opts).
Proof. unfold NewAuthzConfig. rewrite fold_left_app. reflexivity. Qed.

(** X16.  [WithProtectedServices] given last turns each service name into
    the prefix "/name/" and leaves mode and allow-list as the earlier options
    set them: every method "/name/..." of a listed service is protected, and
    when the list is not empty a method that starts with none of these
    prefixes passes without a look at the peer.  The configuration built
    from no options lets every request pass. *)
Theorem WithProtectedServices_scope
    (SplitHostPort : string -> result (string * string))
    (opts : list InterceptorConfigOption) (services : list string)
    (ctx : RequestContext) :
  let config := NewAuthzConfig (opts ++ [WithProtectedServices services]) in
  ConfigMode config = ConfigMode (NewAuthzConfig opts) /\
  AllowedIPs config = AllowedIPs (NewAuthzConfig opts) /\
  (forall service rest,
     In service services ->
     protects config ("/" ++ service ++ "/" ++ rest) = true) /\
  (forall method,
     services <> [] ->
     (forall service,
        In service services ->
        HasPrefix method ("/" ++ service ++ "/") = false) ->
     authz.authorizeRequest SplitHostPort config ctx method = None) /\
  (forall method,
     authz.authorizeRequest SplitHostPort (NewAuthzConfig []) ctx method =
       None).
Proof.
  intros config. subst config. rewrite NewAuthzConfig_snoc.
  split; [reflexivity |]. split; [reflexivity |]. split; [| split].
  - intros service rest Hin. unfold protects. simpl.
    destruct services as [| s0 rest0]; [reflexivity |].
    change (isProtected
              (List.map (fun s => "/" ++ s ++ "/")%string (s0 :: rest0))
              ("/" ++ service ++ "/" ++ rest) = true).
    unfold isProtected. apply existsb_exists.
    exists ("/" ++ service ++ "/")%string. split.
    + apply List.in_map_iff. exists service. auto.
    + unfold HasPrefix.
      rewrite <- slash_wrap. apply prefix_append.
  - intros method Hne Hnone. apply authorizeRequest_unprotected.
    unfold protects. simpl.
    destruct services as [| s0 rest0]; [contradiction |].
    change (isProtected
              (List.map (fun s => "/" ++ s ++ "/")%string (s0 :: rest0))
              method = false).
    unfold isProtected.
    destruct (existsb _ _) eqn:Hex; [| reflexivity].
    apply existsb_exists in Hex as (pre & Hin & Hpre).
    apply List.in_map_iff in Hin as (service & <- & Hin).
    rewrite (Hnone service Hin) in Hpre. discriminate Hpre.
  - intros method. reflexivity.
Qed.

(** A stand-in for [net.SplitHostPort]: the text before the first colon is
    the host, the rest the port. *)
Fixpoint until_colon (s : string) : string * string :=
  match s with
  | EmptyString => (EmptyString, EmptyString)
  | String c rest =>
      if String.eqb (String c EmptyString) ":" then (EmptyString, rest)
      else let '(host, port) := until_colon rest in (String c host, port)
  end.

Definition sample_split (addr : string) : result (string * string) :=
  Ok (until_colon addr).

Definition sample_config (mode : Mode) : InterceptorConfig :=
  NewAuthzConfig [WithAllowedIPs ["203.0.113.7"%string]; WithMode mode;
                  WithProtectedServices ["spark_internal.SparkInternalService"%string]].

Definition sample_peer (addr : string) (forwarded : option string)
    : RequestContext :=
  {| Peer := Some addr;
     GetClientIpFromHeader :=
       fun _ => match forwarded with
                | Some ip => Ok ip
                | None => Err (ErrExternal "no x-forwarded-for header")
                end |}.

Definition sample_method : string :=
  "/spark_internal.SparkInternalService/initiate_cooperative_exit".

Lemma authorizeRequest_denies_only_in_enforce_witness :
  authz.authorizeRequest sample_split (sample_config ModeEnforce)
    (sample_peer "203.0.113.7:4000" None) sample_method =
  Some (ErrStatus PermissionDenied "request not allowed from 203.0.113.7:4000")
  /\ ConfigMode (sample_config ModeEnforce) = ModeEnforce.
Proof.
  assert (Hrun : authz.authorizeRequest sample_split (sample_config ModeEnforce)
                   (sample_peer "203.0.113.7:4000" None) sample_method =
                 Some (ErrStatus PermissionDenied
                         "request not allowed from 203.0.113.7:4000"))
    by (vm_compute; reflexivity).
  split; [exact Hrun |].
  exact (proj1 (authorizeRequest_denies_only_in_enforce sample_split _ _ _ _
                  Hrun)).
Defined.

Lemma authorizeRequest_enforce_decision_witness :
  authz.authorizeRequest sample_split (sample_config ModeEnforce)
    (sample_peer "10.0.3.4:4000" (Some "203.0.113.7"%string)) sample_method = None.
Proof.
  apply (proj1 (authorizeRequest_enforce_decision sample_split
                  (sample_config ModeEnforce)
                  (sample_peer "10.0.3.4:4000" (Some "203.0.113.7"%string))
                  sample_method eq_refl)).
  right. exists "10.0.3.4:4000"%string, "10.0.3.4"%string, "4000"%string.
  split; [reflexivity |]. split; [reflexivity |]. split; [reflexivity |].
  right. vm_compute. left.
Defined.

Lemma WithProtectedServices_scope_witness :
  authz.authorizeRequest sample_split (sample_config ModeEnforce)
    (sample_peer "198.51.100.9:4000" None)
    "/spark.SparkService/get_balance" = None.
Proof.
  refine (proj1 (proj2 (proj2 (proj2
            (WithProtectedServices_scope sample_split
               [WithAllowedIPs ["203.0.113.7"%string]; WithMode ModeEnforce]
               ["spark_internal.SparkInternalService"%string]
               (sample_peer "198.51.100.9:4000" None)))))
            "/spark.SparkService/get_balance"%string _ _).
  - discriminate.
  - intros service [<- | []]. reflexivity.
Defined.
End authz_more.

(** ** so/knobs/knobs.go: rollout and reload *)

Module knobs_more.
Import knobs.

(** The whole percentages, 0 to 100. *)
Definition percents : list Z := List.map Z.of_nat (List.seq 0 101).

Lemma in_percents (n : Z) : 0 <= n <= 100 -> In n percents.
Proof.
  intros Hn. unfold percents. apply List.in_map_iff.
  exists (Z.to_nat n). split; [lia |]. apply List.in_seq. lia.
Qed.

(** The value [RolloutUUIDTarget] works with, and its threshold. *)
Definition chosenValue (v defaultValue : float) : float :=
  if negb (PrimFloat.eqb v defaultValue) then v else defaultValue.

Definition thresholdOf (value : float) : Z :=
  Float64.to_int64 (PrimFloat.mul value (Float64.of_int 1000)).

(** A whole percentage is a finite number or zero, and its threshold is a
    thousand times the percentage. *)
Definition finite_or_zero (f : float) : bool :=
  match Prim2SF f with
  | S754_finite _ _ _ | S754_zero _ => true
  | _ => false
  end.

Lemma threshold_table :
  forallb
    (fun n =>
       finite_or_zero (Float64.of_int n) &&
       (thresholdOf (Float64.of_int n) =? n * 1000))
    percents = true.
Proof. vm_compute. reflexivity. Qed.

(** Go's [==] on two floats, one of them finite: they are the same number,
    or the two zeros. *)
Lemma eqb_finite (v d : float) :
  finite_or_zero v = true ->
  PrimFloat.eqb v d = true ->
  d = v \/
  ((v = PrimFloat.zero \/ v = PrimFloat.neg_zero) /\
   (d = PrimFloat.zero \/ d = PrimFloat.neg_zero)).
Proof.
  unfold finite_or_zero. rewrite FloatAxioms.eqb_spec.
  unfold SFeqb, SFcompare. intros Hv Heq.
  assert (Hzero : forall f s,
            Prim2SF f = S754_zero s ->
            f = PrimFloat.zero \/ f = PrimFloat.neg_zero).
  { intros f s Hf. rewrite <- (SF2Prim_Prim2SF f), Hf.
    destruct s; [right | left]; reflexivity. }
  destruct (Prim2SF v) as [sv | sv | | sv mv ev] eqn:Pv; try discriminate Hv;
    destruct (Prim2SF d) as [sd | sd | | sd md ed] eqn:Pd;
    try discriminate Heq.
  - right. eauto.
  - destruct sd; discriminate Heq.
  - destruct sd; discriminate Heq.
  - destruct sv; discriminate Heq.
  - destruct sd; discriminate Heq.
  - left. apply Prim2SF_inj. rewrite Pv, Pd.
    change (Pos.compare_cont Eq mv md) with (Pos.compare mv md) in Heq.
    destruct sv, sd; try discriminate Heq;
      destruct (Z.compare_spec ev ed) as [-> | |]; try discriminate Heq;
      destruct (Pos.compare_spec mv md) as [-> | |];
      (reflexivity || discriminate Heq).
Qed.

Lemma threshold_of_percent (n : Z) (defaultValue : float) :
  0 <= n <= 100 ->
  thresholdOf (chosenValue (Float64.of_int n) defaultValue) = n * 1000.
Proof.
  intros Hn. pose proof threshold_table as Htable.
  rewrite forallb_forall in Htable.
  specialize (Htable n (in_percents n Hn)).
  apply andb_prop in Htable as [Hfinite Hthreshold].
  apply Z.eqb_eq in Hthreshold. unfold chosenValue.
  destruct (PrimFloat.eqb (Float64.of_int n) defaultValue) eqn:Heq;
    [| exact Hthreshold].
  cbn [negb].
  destruct (eqb_finite _ _ Hfinite Heq) as [-> | [Hv Hd]];
    [exact Hthreshold |].
  rewrite <- Hthreshold.
  destruct Hv as [-> | ->], Hd as [-> | ->]; reflexivity.
Qed.

Section Rollout.
Variable md5_Sum : list byte -> list byte.

(** The residue that decides the rollout of an id for a knob: the 16 bytes
    of the id and the 16 bytes of the MD5 sum of the knob name, each read as
    a big-endian number, combined by exclusive or and reduced modulo
    100000. *)
Definition residue (knob : string) (id : list byte) : Z :=
  (Z.lxor (SetBytes id) (SetBytes (md5_Sum (list_byte_of_string knob))))
    mod 100000.

(** X17.  When the value [GetValueTarget] finds for a knob, or the default
    it falls back to, is a whole percentage between 0 and 100,
    [RolloutUUIDTarget] rolls an id out exactly when the residue of the id
    for the knob (all bytes of the id, exclusive-or all bytes of the MD5 sum
    of the knob name, modulo 100000) is below a thousand times the
    percentage, whatever the default passed in.  The residue lies between 0
    and 99999, so 0 never rolls out and 100 always does. *)
Theorem RolloutUUIDTarget_percentage
    (k : Knobs) (knob : string) (id : list byte) (target : option string)
    (percent : Z) (defaultValue : float) :
  0 <= percent <= 100 ->
  GetValueTarget k knob target defaultValue = Float64.of_int percent ->
  RolloutUUIDTarget md5_Sum k knob id target defaultValue =
    (residue knob id <? percent * 1000) /\
  0 <= residue knob id < 100000 /\
  (percent = 0 ->
   RolloutUUIDTarget md5_Sum k knob id target defaultValue = false) /\
  (percent = 100 ->
   RolloutUUIDTarget md5_Sum k knob id target defaultValue = true).
Proof using Type.
  intros Hp Hvalue.
  assert (Hres : 0 <= residue knob id < 100000)
    by (apply Z.mod_pos_bound; lia).
  assert (Hrun : RolloutUUIDTarget md5_Sum k knob id target defaultValue =
                 (residue knob id <? percent * 1000)).
  { unfold RolloutUUIDTarget. rewrite Hvalue.
    change ((residue knob id <?
             thresholdOf (chosenValue (Float64.of_int percent)
                            defaultValue)) =
            (residue knob id <? percent * 1000)).
    now rewrite threshold_of_percent. }
  split; [exact Hrun |]. split; [exact Hres |]. rewrite Hrun. split.
  - intros ->. apply Z.ltb_ge. lia.
  - intros ->. apply Z.ltb_lt. lia.
Qed.
End Rollout.

Definition sample_md5 (b : list byte) : list byte := List.repeat x5a 16.

Definition sample_knobs : Knobs :=
  {| values := {[ "spark.feature@REGTEST"%string := Float64.of_int 100;
                  "spark.other"%string := Float64.of_int 25 ]} |}.

Lemma RolloutUUIDTarget_percentage_witness :
  RolloutUUIDTarget sample_md5 sample_knobs "spark.feature"
    (List.repeat x11 16) (Some "REGTEST"%string) (Float64.of_int 0) = true.
Proof.
  apply (RolloutUUIDTarget_percentage sample_md5 sample_knobs "spark.feature"
           (List.repeat x11 16) (Some "REGTEST"%string) 100 (Float64.of_int 0)
           ltac:(lia)); reflexivity.
Defined.

Section Reload.
Variable yamlFloat : string -> option float.
Variable yamlMap : string -> option (list (string * float)).
Variable uint64_unrepresentable : float -> Z.

Local Abbreviation handleConfigMap :=
  (knobs.handleConfigMap yamlFloat yamlMap).
Local Abbreviation storeEntry := (knobs.storeEntry yamlFloat yamlMap).

(** The keys an entry of the ConfigMap gives a value to. *)
Definition entryKeys (entry : string * string) : list string :=
  match yamlFloat (snd entry) with
  | Some _ => [fst entry]
  | None =>
      match yamlMap (snd entry) with
      | Some parsedMap =>
          List.map (fun tv => targetKey (fst entry) (fst tv)) parsedMap
      | None => []
      end
  end.

Definition configKeys (entries : list (string * string)) : gset string :=
  list_to_set (List.concat (List.map entryKeys entries)).

Lemma dom_store_targets (name : string) (parsedMap : list (string * float)) :
  forall vals : gmap string float,
    dom (fold_left
           (fun vs '(target, targetValue) =>
              <[targetKey name target := targetValue]> vs)
           parsedMap vals) =
    dom vals ∪
    list_to_set (List.map (fun tv => targetKey name (fst tv)) parsedMap).
Proof using Type.
  induction parsedMap as [| [target tv] rest IH]; intros vals; simpl.
  - now rewrite union_empty_r_L.
  - rewrite IH, dom_insert_L.
    rewrite (comm_L (∪) {[ _ ]} (dom vals)), <- (assoc_L (∪)). reflexivity.
Qed.

Lemma dom_storeEntry (vals : gmap string float) (entry : string * string) :
  dom (storeEntry vals entry) = dom vals ∪ list_to_set (entryKeys entry).
Proof using Type.
  destruct entry as [name value]. unfold knobs.storeEntry, entryKeys. simpl.
  destruct (yamlFloat value) as [parsed |].
  - rewrite dom_insert_L. simpl. rewrite union_empty_r_L.
    apply (comm_L (∪)).
  - destruct (yamlMap value) as [parsedMap |].
    + apply dom_store_targets.
    + simpl. now rewrite union_empty_r_L.
Qed.

Lemma dom_store_all (entries : list (string * string)) :
  forall vals : gmap string float,
    dom (fold_left storeEntry entries vals) = dom vals ∪ configKeys entries.
Proof using Type.
  unfold configKeys.
  induction entries as [| entry rest IH]; intros vals; simpl.
  - now rewrite union_empty_r_L.
  - rewrite IH, dom_storeEntry, list_to_set_app_L, (assoc_L (∪)).
    reflexivity.
Qed.

(** X18.  [handleConfigMap] starts from scratch: a ConfigMap without data
    leaves the knobs alone; otherwise the keys that have a value afterwards
    are exactly those the entries of the ConfigMap give (the name for a
    number, name@target for each target of a map, nothing for an entry that
    parses as neither).  A knob the new ConfigMap does not mention falls
    back to the caller's default whatever it was set to before, and the
    database statement timeout then is the default 60000 ms. *)
Theorem handleConfigMap_reloads (k : Knobs) :
  handleConfigMap k None = k /\
  forall entries : list (string * string),
    dom (values (handleConfigMap k (Some entries))) = configKeys entries /\
    (forall knob defaultValue,
       knob ∉ configKeys entries ->
       GetValue (handleConfigMap k (Some entries)) knob defaultValue =
         defaultValue) /\
    (forall knob target defaultValue,
       targetKey knob target ∉ configKeys entries ->
       GetValueTarget (handleConfigMap k (Some entries)) knob (Some target)
         defaultValue = defaultValue) /\
    ("spark.database.statement_timeout"%string ∉ configKeys entries ->
     GetDatabaseStatementTimeoutMs uint64_unrepresentable
       (handleConfigMap k (Some entries)) = 60000).
Proof using Type.
  split; [reflexivity |]. intros entries.
  assert (Hdom : dom (values (handleConfigMap k (Some entries))) =
                 configKeys entries).
  { simpl. rewrite dom_store_all, dom_empty_L. apply union_empty_l_L. }
  assert (Hmiss : forall key,
             key ∉ configKeys entries ->
             values (handleConfigMap k (Some entries)) !! key = None).
  { intros key Hkey. apply not_elem_of_dom. now rewrite Hdom. }
  split; [exact Hdom |]. split; [| split].
  - intros knob d Hkey. unfold GetValue, GetValueTarget.
    now rewrite (Hmiss knob Hkey).
  - intros knob target d Hkey. unfold GetValueTarget.
    now rewrite (Hmiss _ Hkey).
  - intros Hkey. unfold GetDatabaseStatementTimeoutMs, GetValue,
      GetValueTarget.
    rewrite (Hmiss _ Hkey). vm_compute. reflexivity.
Qed.
End Reload.

(** Stand-ins for the YAML parser: "100" and "25" are numbers, "REGTEST: 50"
    is a map with one target. *)
Definition sample_yamlFloat (value : string) : option float :=
  if String.eqb value "100" then Some (Float64.of_int 100)
  else if String.eqb value "25" then Some (Float64.of_int 25)
  else None.

Definition sample_yamlMap (value : string) : option (list (string * float)) :=
  if String.eqb value "REGTEST: 50"
  then Some [("REGTEST"%string, Float64.of_int 50)]
  else None.

Lemma handleConfigMap_reloads_witness :
  GetValue
    (knobs.handleConfigMap sample_yamlFloat sample_yamlMap sample_knobs
       (Some [("spark.feature"%string, "REGTEST: 50"%string)]))
    "spark.other" (Float64.of_int 7) = Float64.of_int 7.
Proof.
  destruct (handleConfigMap_reloads sample_yamlFloat sample_yamlMap
              (fun _ => 0) sample_knobs) as [_ Hreload].
  destruct (Hreload [("spark.feature"%string, "REGTEST: 50"%string)])
    as (_ & Hgone & _).
  apply Hgone. vm_compute. intros Hin. inversion Hin.
Defined.
End knobs_more.

(** ** so/grpc: service names of the token metrics *)

Module grpc_more.
Import grpc.

(** A string with no slash in it. *)
Fixpoint noSlash (s : string) : bool :=
  match s with
  | EmptyString => true
  | String c rest =>
      negb (String.eqb (String c EmptyString) "/") && noSlash rest
  end.

Lemma Split_slash_whole (s : string) :
  noSlash s = true -> Split_slash s = [s].
Proof.
  induction s as [| c s IH]; cbn [noSlash Split_slash]; [reflexivity |].
  destruct (String.eqb (String c EmptyString) "/"); cbn [negb andb];
    [discriminate |].
  intros Hs. now rewrite (IH Hs).
Qed.

Lemma Split_slash_first (s rest : string) :
  noSlash s = true ->
  Split_slash (s ++ "/" ++ rest) = s :: Split_slash rest.
Proof.
  induction s as [| c s IH]; intros Hs.
  - reflexivity.
  - cbn [noSlash] in Hs.
    change (Split_slash (String c (s ++ "/" ++ rest)) =
            String c s :: Split_slash rest).
    cbn [Split_slash].
    destruct (String.eqb (String c EmptyString) "/"); cbn [negb andb] in Hs;
      [discriminate Hs |].
    now rewrite (IH Hs).
Qed.

(** X19.  [extractServiceName] returns the service of a gRPC full method
    name: the text between the first and the second slash, for every
    service name without a slash; a name without any slash gives "unknown".
    Every method that [isTokenTransactionMethod] accepts belongs to one of
    the two token services. *)
Theorem extractServiceName_of_method (service rest : string) :
  noSlash service = true ->
  extractServiceName ("/" ++ service ++ "/" ++ rest) = service /\
  extractServiceName ("/" ++ service) = service /\
  extractServiceName service = "unknown"%string /\
  (forall method,
     isTokenTransactionMethod method = true ->
     extractServiceName method = "spark_token.SparkTokenService"%string \/
     extractServiceName method =
       "spark_token.SparkTokenInternalService"%string).
Proof.
  intros Hs. unfold extractServiceName. split_and!.
  - change (Split_slash ("/" ++ service ++ "/" ++ rest))
      with (EmptyString :: Split_slash (service ++ "/" ++ rest)).
    now rewrite Split_slash_first.
  - change (Split_slash ("/" ++ service))
      with (EmptyString :: Split_slash service).
    now rewrite Split_slash_whole.
  - now rewrite Split_slash_whole.
  - intros method Hm. unfold isTokenTransactionMethod in Hm.
    apply bool_decide_eq_true_1 in Hm. unfold tokenMethods in Hm.
    repeat (apply elem_of_cons in Hm as [-> | Hm]; [vm_compute; auto |]).
    by apply not_elem_of_nil in Hm.
Qed.

Lemma extractServiceName_of_method_witness :
  extractServiceName "/spark.SparkService/cooperative_exit" =
    "spark.SparkService"%string.
Proof.
  exact (proj1 (extractServiceName_of_method "spark.SparkService"
                  "cooperative_exit" eq_refl)).
Defined.
End grpc_more.
